(** * hookbase-go: webhook signature verification and the retrying transport

    A shallow embedding of [webhook.go], [errors.go] and the transport of
    [hookbase.go], together with the parts of the Go standard library they
    call ([crypto/sha256], [crypto/hmac], [crypto/subtle],
    [encoding/base64], [strconv], [strings]), and the properties the
    specification states about them.  The client and its options
    ([options.go]), the query helpers of [hookbase.go], the path escaping
    of [net/url] and the page arithmetic of the resources follow, with
    further properties read off the code.

    Conventions.  A Go [string] is a [string] (a sequence of 8-bit
    characters), a [[]byte] is a [list byte], an [int]/[int64] is a [Z]
    with the 64-bit wrap-around written out ([wrap64]); [int] is taken
    to be 64 bits wide (amd64, arm64). *)

From Stdlib Require Import ZArith List Lia Bool.
From Stdlib Require Import Strings.Byte Strings.Ascii Strings.String.
From stdpp Require Import base option list gmap strings.

Local Open Scope Z_scope.

(** ** Machine integers *)

Module Int.

Definition min_int64 : Z := - 2 ^ 63.
Definition max_int64 : Z := 2 ^ 63 - 1.

Definition in_int64 (x : Z) : Prop := min_int64 <= x <= max_int64.

Definition in_int64b (x : Z) : bool := (min_int64 <=? x) && (x <=? max_int64).

(** Two's complement reduction of a mathematical integer to [int64]. *)
Definition wrap64 (x : Z) : Z := (x + 2 ^ 63) mod 2 ^ 64 - 2 ^ 63.

(** Reduction to [uint32]. *)
Definition u32 (x : Z) : Z := Z.land x 0xFFFFFFFF.

Definition byte_of_Z (x : Z) : byte :=
  match Byte.of_N (Z.to_N (x mod 256)) with
  | Some b => b
  | None => x00
  end.

Definition Z_of_byte (b : byte) : Z := Z.of_N (Byte.to_N b).

#[global] Instance byte_eq_decision : EqDecision byte := Byte.byte_eq_dec.

End Int.

(** ** crypto/sha256 *)

Module SHA256.
Import Int.

Definition BlockSize : nat := 64.
Definition Size : nat := 32.

Definition rotr (n x : Z) : Z :=
  Z.lor (Z.shiftr x n) (u32 (Z.shiftl x (32 - n))).

Definition add32 (x y : Z) : Z := u32 (x + y).

Definition _K : list Z :=
  [ 0x428A2F98; 0x71374491; 0xB5C0FBCF; 0xE9B5DBA5;
    0x3956C25B; 0x59F111F1; 0x923F82A4; 0xAB1C5ED5;
    0xD807AA98; 0x12835B01; 0x243185BE; 0x550C7DC3;
    0x72BE5D74; 0x80DEB1FE; 0x9BDC06A7; 0xC19BF174;
    0xE49B69C1; 0xEFBE4786; 0x0FC19DC6; 0x240CA1CC;
    0x2DE92C6F; 0x4A7484AA; 0x5CB0A9DC; 0x76F988DA;
    0x983E5152; 0xA831C66D; 0xB00327C8; 0xBF597FC7;
    0xC6E00BF3; 0xD5A79147; 0x06CA6351; 0x14292967;
    0x27B70A85; 0x2E1B2138; 0x4D2C6DFC; 0x53380D13;
    0x650A7354; 0x766A0ABB; 0x81C2C92E; 0x92722C85;
    0xA2BFE8A1; 0xA81A664B; 0xC24B8B70; 0xC76C51A3;
    0xD192E819; 0xD6990624; 0xF40E3585; 0x106AA070;
    0x19A4C116; 0x1E376C08; 0x2748774C; 0x34B0BCB5;
    0x391C0CB3; 0x4ED8AA4A; 0x5B9CCA4F; 0x682E6FF3;
    0x748F82EE; 0x78A5636F; 0x84C87814; 0x8CC70208;
    0x90BEFFFA; 0xA4506CEB; 0xBEF9A3F7; 0xC67178F2 ].

(** The chaining value [h[0..7]] of a digest. *)
Record state := State8 {
  sa : Z; sb : Z; sc : Z; sd : Z; se : Z; sf : Z; sg : Z; sh : Z }.

Definition init : state :=
  State8 0x6A09E667 0xBB67AE85 0x3C6EF372 0xA54FF53A
         0x510E527F 0x9B05688C 0x1F83D9AB 0x5BE0CD19.

(** Big-endian decoding of the sixteen words of a block. *)
Fixpoint be_words (n : nat) (p : list byte) : list Z :=
  match n, p with
  | S n', b0 :: b1 :: b2 :: b3 :: rest =>
      Z.lor (Z.lor (Z.shiftl (Z_of_byte b0) 24) (Z.shiftl (Z_of_byte b1) 16))
            (Z.lor (Z.shiftl (Z_of_byte b2) 8) (Z_of_byte b3))
      :: be_words n' rest
  | _, _ => []
  end.

(** The message schedule, kept newest word first: with the words
    [w[i-1], w[i-2], ...] at hand, the loop body of [blockGeneric]
    computes [w[i]] from [w[i-2]], [w[i-7]], [w[i-15]] and [w[i-16]]. *)
Fixpoint extend (n : nat) (rw : list Z) : list Z :=
  match n with
  | O => rw
  | S n' =>
      let v1 := nth 1 rw 0 in
      let t1 := Z.lxor (Z.lxor (rotr 17 v1) (rotr 19 v1)) (Z.shiftr v1 10) in
      let v2 := nth 14 rw 0 in
      let t2 := Z.lxor (Z.lxor (rotr 7 v2) (rotr 18 v2)) (Z.shiftr v2 3) in
      extend n' (add32 (add32 (add32 t1 (nth 6 rw 0)) t2) (nth 15 rw 0) :: rw)
  end.

Definition schedule (p : list byte) : list Z :=
  rev (extend 48 (rev (be_words 16 p))).

Definition round (s : state) (kw : Z * Z) : state :=
  let '(State8 a b c d e f g h) := s in
  let t1 :=
    add32 (add32 (add32 (add32 h
      (Z.lxor (Z.lxor (rotr 6 e) (rotr 11 e)) (rotr 25 e)))
      (Z.lxor (Z.land e f) (Z.land (Z.lxor e 0xFFFFFFFF) g)))
      (fst kw)) (snd kw) in
  let t2 :=
    add32 (Z.lxor (Z.lxor (rotr 2 a) (rotr 13 a)) (rotr 22 a))
          (Z.lxor (Z.lxor (Z.land a b) (Z.land a c)) (Z.land b c)) in
  State8 (add32 t1 t2) a b c (add32 d t1) e f g.

(** One 64-byte block. *)
Definition block (s : state) (p : list byte) : state :=
  let '(State8 a b c d e f g h) :=
    fold_left round (combine _K (schedule p)) s in
  State8 (add32 (sa s) a) (add32 (sb s) b) (add32 (sc s) c) (add32 (sd s) d)
         (add32 (se s) e) (add32 (sf s) f) (add32 (sg s) g) (add32 (sh s) h).

Fixpoint blocks (fuel : nat) (s : state) (p : list byte) : state :=
  match fuel with
  | O => s
  | S fuel' =>
      match p with
      | [] => s
      | _ => blocks fuel' (block s (firstn 64 p)) (skipn 64 p)
      end
  end.

Fixpoint be_bytes (n : nat) (x : Z) : list byte :=
  match n with
  | O => []
  | S n' => be_bytes n' (Z.shiftr x 8) ++ [byte_of_Z x]
  end.

(** The padding of [checkSum]: a [0x80] byte, zeros up to 56 modulo 64,
    and the length in bits as a big-endian [uint64]. *)
Definition padding (len : nat) : list byte :=
  let r := (len mod 64)%nat in
  let zeros := (if (r <? 56)%nat then 55 - r else 119 - r)%nat in
  x80 :: repeat x00 zeros
      ++ be_bytes 8 (Z.land (Z.of_nat len * 8) 0xFFFFFFFFFFFFFFFF).

Definition Sum256 (data : list byte) : list byte :=
  let p := data ++ padding (length data) in
  let '(State8 a b c d e f g h) := blocks (length p) init p in
  be_bytes 4 a ++ be_bytes 4 b ++ be_bytes 4 c ++ be_bytes 4 d ++
  be_bytes 4 e ++ be_bytes 4 f ++ be_bytes 4 g ++ be_bytes 4 h.

End SHA256.

(** ** crypto/hmac *)

Module HMAC.
Import Int.

Definition xor_with (c : Z) (key : list byte) : list byte :=
  map (fun b => byte_of_Z (Z.lxor (Z_of_byte b) c)) key.

(** [hmac.New(sha256.New, key)]: a key longer than the block size is
    hashed first; the key is then extended with zero bytes to the block
    size. *)
Definition block_key (key : list byte) : list byte :=
  let k := if (SHA256.BlockSize <? length key)%nat
           then SHA256.Sum256 key else key in
  k ++ repeat x00 (SHA256.BlockSize - length k).

(** [mac.Write(msg); mac.Sum(nil)]. *)
Definition Sum (key msg : list byte) : list byte :=
  let k := block_key key in
  SHA256.Sum256 (xor_with 0x5C k ++ SHA256.Sum256 (xor_with 0x36 k ++ msg)).

End HMAC.

(** ** encoding/base64, [StdEncoding] *)

Module Base64.
Import Int.

Definition encodeStd : list ascii :=
  list_ascii_of_string
    "ABCDEFGHIJKLMNOPQRSTUVWXYZabcdefghijklmnopqrstuvwxyz0123456789+/".

Definition padChar : ascii := "="%char.

Definition enc (v : Z) : ascii := nth (Z.to_nat v) encodeStd padChar.

(** [decodeMap]: the 6-bit value of an alphabet character. *)
Definition dec (c : ascii) : option Z :=
  let n := Z.of_nat (nat_of_ascii c) in
  if (65 <=? n) && (n <=? 90) then Some (n - 65)
  else if (97 <=? n) && (n <=? 122) then Some (n - 71)
  else if (48 <=? n) && (n <=? 57) then Some (n + 4)
  else if n =? 43 then Some 62
  else if n =? 47 then Some 63
  else None.

(** [uint(b0)<<16 | uint(b1)<<8 | uint(b2)], the fields being disjoint. *)
Definition pack3 (b0 b1 b2 : byte) : Z :=
  Z_of_byte b0 * 65536 + Z_of_byte b1 * 256 + Z_of_byte b2.

(** [EncodeToString]. *)
Fixpoint EncodeToString (src : list byte) : string :=
  match src with
  | [] => EmptyString
  | [b0] =>
      let val := pack3 b0 x00 x00 in
      String (enc (val / 262144)) (String (enc (val / 4096 mod 64))
        (String padChar (String padChar EmptyString)))
  | [b0; b1] =>
      let val := pack3 b0 b1 x00 in
      String (enc (val / 262144)) (String (enc (val / 4096 mod 64))
        (String (enc (val / 64 mod 64)) (String padChar EmptyString)))
  | b0 :: b1 :: b2 :: rest =>
      let val := pack3 b0 b1 b2 in
      String (enc (val / 262144)) (String (enc (val / 4096 mod 64))
        (String (enc (val / 64 mod 64)) (String (enc (val mod 64))
          (EncodeToString rest))))
  end.

(** [uint(d0)<<18 | uint(d1)<<12 | uint(d2)<<6 | uint(d3)] and the three
    bytes [val>>16], [val>>8], [val>>0] cut out of it. *)
Definition unpack (d0 d1 d2 d3 : Z) : byte * byte * byte :=
  let val := d0 * 262144 + d1 * 4096 + d2 * 64 + d3 in
  (byte_of_Z (val / 65536), byte_of_Z (val / 256), byte_of_Z val).

Definition is_newline (c : ascii) : bool :=
  let n := nat_of_ascii c in ((n =? 10) || (n =? 13))%nat.

(** The quanta of [Decode] on input without line breaks: full quanta of
    four alphabet characters, closed by the end of input or by one padded
    quantum ([xx==] or [xxx=]) with nothing after it.  The encoding is not
    strict: the unused low bits of a padded quantum are dropped. *)
Fixpoint quanta (fuel : nat) (src : list ascii) : option (list byte) :=
  match fuel with
  | O => None
  | S fuel' =>
      match src with
      | [] => Some []
      | c0 :: c1 :: c2 :: c3 :: rest =>
          match dec c0, dec c1 with
          | Some d0, Some d1 =>
              match dec c2, dec c3 with
              | Some d2, Some d3 =>
                  let '(b0, b1, b2) := unpack d0 d1 d2 d3 in
                  match quanta fuel' rest with
                  | Some out => Some (b0 :: b1 :: b2 :: out)
                  | None => None
                  end
              | Some d2, None =>
                  let '(b0, b1, _) := unpack d0 d1 d2 0 in
                  if Ascii.eqb c3 padChar && bool_decide (rest = [])
                  then Some [b0; b1] else None
              | None, _ =>
                  let '(b0, _, _) := unpack d0 d1 0 0 in
                  if Ascii.eqb c2 padChar && Ascii.eqb c3 padChar
                     && bool_decide (rest = [])
                  then Some [b0] else None
              end
          | _, _ => None
          end
      | _ => None
      end
  end.

(** [DecodeString]: [Some] of the bytes when Go returns a nil error.
    Carriage returns and line feeds are skipped wherever they occur. *)
Definition DecodeString (s : string) : option (list byte) :=
  let src := List.filter (fun c => negb (is_newline c))
                         (list_ascii_of_string s) in
  quanta (S (length src)) src.

End Base64.

(** ** strconv *)

Module Strconv.
Import Int.

Definition digit_char (d : Z) : ascii := ascii_of_nat (Z.to_nat (48 + d)).

Definition digit_val (c : ascii) : option Z :=
  let n := Z.of_nat (nat_of_ascii c) in
  if (48 <=? n) && (n <=? 57) then Some (n - 48) else None.

(** The digit loop of [formatBits] in base 10: least significant digit
    first, written backwards into the buffer.  Twenty digits hold every
    [uint64]. *)
Fixpoint format_uint (fuel : nat) (u : Z) (acc : string) : string :=
  match fuel with
  | O => acc
  | S fuel' =>
      let acc' := String (digit_char (u mod 10)) acc in
      if u <? 10 then acc' else format_uint fuel' (u / 10) acc'
  end.

(** [FormatInt(i, 10)]; also what [%d] prints. *)
Definition FormatInt (i : Z) : string :=
  if i <? 0 then String "-"%char (format_uint 20 (- i) EmptyString)
  else format_uint 20 i EmptyString.

Fixpoint parse_digits (s : string) (acc : Z) : option Z :=
  match s with
  | EmptyString => Some acc
  | String c s' =>
      match digit_val c with
      | Some d => parse_digits s' (acc * 10 + d)
      | None => None
      end
  end.

(** [ParseUint(s, 10, 64)]: [None] for a syntax or a range error. *)
Definition ParseUint (s : string) : option Z :=
  match s with
  | EmptyString => None
  | _ =>
      match parse_digits s 0 with
      | Some n => if n <? 2 ^ 64 then Some n else None
      | None => None
      end
  end.

(** [ParseInt(s, 10, 64)]: an optional sign, then [ParseUint], then the
    range check against [1 << 63]. *)
Definition ParseInt (s : string) : option Z :=
  match s with
  | EmptyString => None
  | String c rest =>
      let neg := Ascii.eqb c "-" in
      let body := if Ascii.eqb c "+" || neg then rest else s in
      match ParseUint body with
      | Some un =>
          if negb neg && (2 ^ 63 <=? un) then None
          else if neg && (2 ^ 63 <? un) then None
          else Some (if neg then - un else un)
      | None => None
      end
  end.

(** [Atoi(s)] is [ParseInt(s, 10, 0)] with [int] 64 bits wide. *)
Definition Atoi (s : string) : option Z := ParseInt s.

End Strconv.

(** ** strings *)

Module Strings.

Definition HasPrefix (s prefix : string) : bool := String.prefix prefix s.

(** [s[n:]] *)
Fixpoint drop (n : nat) (s : string) : string :=
  match n, s with
  | S n', String _ s' => drop n' s'
  | _, _ => s
  end.

(** [Split(s, sep)] for a one-character separator. *)
Fixpoint Split (sep : ascii) (s : string) : list string :=
  match s with
  | EmptyString => [EmptyString]
  | String c s' =>
      if Ascii.eqb c sep then EmptyString :: Split sep s'
      else match Split sep s' with
           | piece :: pieces => String c piece :: pieces
           | [] => [String c EmptyString]
           end
  end.

(** [Cut(s, sep)]: the text before and after the first separator. *)
Fixpoint Cut (sep : ascii) (s : string) : option (string * string) :=
  match s with
  | EmptyString => None
  | String c s' =>
      if Ascii.eqb c sep then Some (EmptyString, s')
      else match Cut sep s' with
           | Some (before, after) => Some (String c before, after)
           | None => None
           end
  end.

(** [SplitN(s, sep, 2)] for a one-character separator. *)
Definition SplitN2 (sep : ascii) (s : string) : list string :=
  match Cut sep s with
  | Some (before, after) => [before; after]
  | None => [s]
  end.

Definition is_ascii (c : ascii) : bool := (nat_of_ascii c <? 128)%nat.

Definition lower_ascii (c : ascii) : ascii :=
  let n := nat_of_ascii c in
  if ((65 <=? n) && (n <=? 90))%nat then ascii_of_nat (n + 32) else c.

Fixpoint map_chars (f : ascii -> ascii) (s : string) : string :=
  match s with
  | EmptyString => EmptyString
  | String c s' => String (f c) (map_chars f s')
  end.

Fixpoint all_chars (p : ascii -> bool) (s : string) : bool :=
  match s with
  | EmptyString => true
  | String c s' => p c && all_chars p s'
  end.

Section ToLower.
(** [strings.Map(unicode.ToLower, s)], the path [ToLower] takes for a
    string with a byte outside ASCII; the Unicode tables are not part
    of the repository. *)
Variable unicode_ToLower : string -> string.

Definition ToLower (s : string) : string :=
  if all_chars is_ascii s then map_chars lower_ascii s
  else unicode_ToLower s.
End ToLower.

End Strings.

(** ** float64 *)

Module Float64.
Import Int.

(** The nearest integer with at most 53 significant bits, ties to the
    even significand: the value of [float64(x)] for an integer [x], and,
    significands being scale-free, of every correctly rounded [float64]
    result once it is counted in units of a fixed power of two (far from
    the subnormal and the infinite range, as all values here are).  Each
    operation is rounded on its own, as on amd64, where the compiler does
    not fuse a multiplication with an addition. *)
Definition round53 (x : Z) : Z :=
  let a := Z.abs x in
  if a <? 2 ^ 53 then x
  else
    let e := Z.log2 a - 52 in
    let q := a / 2 ^ e in
    let r := a mod 2 ^ e in
    let half := 2 ^ (e - 1) in
    let q' := if r <? half then q
              else if half <? r then q + 1
              else if Z.even q then q else q + 1 in
    Z.sgn x * (q' * 2 ^ e).

(** [int(f)] / [int64(f)] for an integral [f]: exact inside [int64];
    outside it Go leaves the result to the implementation, and amd64
    yields the "integer indefinite" value [-1 << 63]. *)
Definition to_int64 (f : Z) : Z := if in_int64b f then f else min_int64.

End Float64.

(** ** crypto/subtle *)

Module Subtle.
Import Int.

(** [int((uint32(x^y) - 1) >> 31)] *)
Definition ConstantTimeByteEq (x y : Z) : Z :=
  Z.shiftr (u32 (Z.lxor x y - 1)) 31.

Definition ConstantTimeCompare (x y : list byte) : Z :=
  if negb (length x =? length y)%nat then 0
  else
    let v := fold_left
               (fun v xy => Z.lor v (Z.lxor (Z_of_byte (fst xy))
                                            (Z_of_byte (snd xy))))
               (combine x y) 0 in
    ConstantTimeByteEq v 0.

End Subtle.

(** ** errors.go *)

Module Errors.

Record APIError := mkAPIError {
  Message : string;
  Status : Z;
  Code : string;
  RequestID : string }.

(** The values of Go's [error] interface that the library returns: one
    constructor per error type, [nil] being [None] of [option error]. *)
Inductive error :=
| Error (Message : string)
| GenericAPIError (base : APIError)
| AuthenticationError (base : APIError)
| ForbiddenError (base : APIError)
| NotFoundError (base : APIError)
| ValidationError (base : APIError)
    (ValidationErrors : list (string * list string))
| RateLimitError (base : APIError) (RetryAfter : Z)
| TimeoutError (Message : string)
| NetworkError (Message : string) (Cause : string)
| WebhookVerificationError (Message : string).

End Errors.

(** ** webhook.go *)

Module Webhook.
Import Int Errors.

Definition defaultTolerance : Z := 300.

Record Webhook := mkWebhook { secret : list byte }.

(** [None] stands for the panic. *)
Definition NewWebhook (secret : string) : option Webhook :=
  if bool_decide (secret = EmptyString) then None
  else
    let s := if Strings.HasPrefix secret "whsec_"
             then Strings.drop 6 secret else secret in
    let decoded := match Base64.DecodeString s with
                   | Some d => d
                   | None => list_byte_of_string s
                   end in
    Some (mkWebhook decoded).

Definition sign (w : Webhook) (content : string) : string :=
  Base64.EncodeToString (HMAC.Sum (secret w) (list_byte_of_string content)).

Record parsedSignature := mkSig { version : string; signature : string }.

Definition parseSignatures (header : string) : list parsedSignature :=
  fold_left
    (fun sigs part =>
       match Strings.SplitN2 "," part with
       | [v; s] => sigs ++ [mkSig v s]
       | _ => sigs
       end)
    (Strings.Split " " header) [].

(** [fmt.Sprintf("%s.%s.%s", id, timestamp, string(payload))] *)
Definition signedContent (id timestamp : string) (payload : list byte) : string :=
  id +:+ "." +:+ timestamp +:+ "." +:+ string_of_list_byte payload.

(** The loop over the parsed signatures: [true] when it returns nil. *)
Fixpoint matches (expected : string) (sigs : list parsedSignature) : bool :=
  match sigs with
  | [] => false
  | sig :: rest =>
      if bool_decide (version sig = "v1") then
        match Base64.DecodeString expected,
              Base64.DecodeString (signature sig) with
        | Some expectedBytes, Some actualBytes =>
            if (length expectedBytes =? length actualBytes)%nat
               && (Subtle.ConstantTimeCompare expectedBytes actualBytes =? 1)
            then true else matches expected rest
        | _, _ => matches expected rest
        end
      else matches expected rest
  end.

(** [fmt.Sprintf("timestamp outside tolerance (%ds > %ds)", int(diff), tol)] *)
Definition toleranceMessage (diff toleranceSec : Z) : string :=
  "timestamp outside tolerance (" +:+ Strconv.FormatInt (Float64.to_int64 diff)
    +:+ "s > " +:+ Strconv.FormatInt toleranceSec +:+ "s)".

Section Verify.
Variable unicode_ToLower : string -> string.

(** A Go map argument is given by its entries, keys pairwise distinct,
    in the order in which [range] happens to visit them. *)
Definition normalizeHeaders (headers : list (string * string))
  : gmap string string :=
  fold_left (fun normalized kv =>
               <[Strings.ToLower unicode_ToLower (fst kv) := snd kv]> normalized)
            headers ∅.

(** [m[k]], the empty string when [k] is not a key. *)
Definition get (m : gmap string string) (k : string) : string :=
  default EmptyString (m !! k).

(** [now] is the value of [time.Now().Unix()]. *)
Definition VerifyWithTolerance (now : Z) (w : Webhook) (payload : list byte)
    (headers : list (string * string)) (toleranceSec : Z) : option error :=
  let normalized := normalizeHeaders headers in
  let webhookID := get normalized "webhook-id" in
  let webhookTimestamp := get normalized "webhook-timestamp" in
  let webhookSignature := get normalized "webhook-signature" in
  if bool_decide (webhookID = EmptyString) then
    Some (WebhookVerificationError "missing webhook-id header")
  else if bool_decide (webhookTimestamp = EmptyString) then
    Some (WebhookVerificationError "missing webhook-timestamp header")
  else if bool_decide (webhookSignature = EmptyString) then
    Some (WebhookVerificationError "missing webhook-signature header")
  else
    match Strconv.ParseInt webhookTimestamp with
    | None => Some (WebhookVerificationError "invalid timestamp format")
    | Some ts =>
        let diff := Z.abs (Float64.round53 (wrap64 (now - ts))) in
        if Float64.round53 toleranceSec <? diff then
          Some (WebhookVerificationError (toleranceMessage diff toleranceSec))
        else
          let expected :=
            sign w (signedContent webhookID webhookTimestamp payload) in
          let signatures := parseSignatures webhookSignature in
          if (length signatures =? 0)%nat then
            Some (WebhookVerificationError "no valid signatures found")
          else if matches expected signatures then None
          else Some (WebhookVerificationError "signature verification failed")
    end.

Definition Verify (now : Z) (w : Webhook) (payload : list byte)
    (headers : list (string * string)) : option error :=
  VerifyWithTolerance now w payload headers defaultTolerance.
End Verify.

(** The three entries of the returned map. *)
Definition GenerateTestHeaders (now : Z) (w : Webhook) (payload : list byte)
    (webhookID : string) : list (string * string) :=
  let webhookID := if bool_decide (webhookID = EmptyString)
                   then "msg_test" else webhookID in
  let timestamp := Strconv.FormatInt now in
  let signature := sign w (signedContent webhookID timestamp payload) in
  [ ("webhook-id", webhookID);
    ("webhook-timestamp", timestamp);
    ("webhook-signature", "v1," +:+ signature) ].

End Webhook.

(** ** hookbase.go: the transport *)

Module Transport.
Import Int Errors.

(** [time.Duration] counts nanoseconds in an [int64]. *)
Definition Millisecond : Z := 1000000.
Definition Second : Z := 1000000000.

(** The caller's [context.Context]: the instant, if any, at which it is
    cancelled or its deadline passes, and what [ctx.Err()] says from then
    on. *)
Record Context := mkContext { doneAt : option Z; reason : string }.

Definition ctx_Err (ctx : Context) (clock : Z) : option string :=
  match doneAt ctx with
  | Some t => if t <=? clock then Some (reason ctx) else None
  | None => None
  end.

Inductive BodyRead :=
| BodyOk (respBody : list byte)
| BodyErr (err : string).

(** [*http.Response]; [Header] maps a canonical name to what
    [Header.Get] returns for it. *)
Record Response := mkResponse {
  StatusCode : Z;
  Header : gmap string string;
  Body : BodyRead }.

Definition Header_Get (h : gmap string string) (key : string) : string :=
  default EmptyString (h !! key).

Inductive RoundTrip :=
| Failed (err : string)
| Responded (resp : Response).

(** One call of [httpClient.Do]: how long it took and how it ended. *)
Record Exchange := mkExchange { elapsed : Z; outcome : RoundTrip }.

Record Request := mkRequest {
  Method : string;
  URL : string;
  ReqHeader : list (string * string);
  ReqBody : option (list byte) }.

Inductive Event :=
| Dispatch (attempt : Z) (req : Request)
| Sleep (d : Z).

(** What a call leaves behind: the clock (in nanoseconds) and the calls
    of [httpClient.Do] and [time.Sleep] in the order they were made. *)
Record Run := mkRun { clock : Z; trace : list Event }.

Definition is_dispatch (e : Event) : bool :=
  match e with Dispatch _ _ => true | Sleep _ => false end.

Definition dispatches (tr : list Event) : nat :=
  length (List.filter is_dispatch tr).

(** [time.Sleep(d)] returns at once for [d <= 0]. *)
Definition sleep (d : Z) (r : Run) : Run :=
  mkRun (clock r + Z.max 0 d) (trace r ++ [Sleep d]).

Record transport := mkTransport {
  apiKey : string;
  baseURL : string;
  timeout : Z;
  maxRetries : Z;
  debug : bool }.

Record requestConfig := mkRequestConfig {
  rc_timeout : Z;
  rc_maxRetries : option Z;
  idempotencyKey : string }.

Definition RequestOption : Type := requestConfig -> requestConfig.

Definition WithRequestTimeout (d : Z) : RequestOption :=
  fun c => mkRequestConfig d (rc_maxRetries c) (idempotencyKey c).
Definition WithRequestRetries (n : Z) : RequestOption :=
  fun c => mkRequestConfig (rc_timeout c) (Some n) (idempotencyKey c).
Definition WithIdempotencyKey (key : string) : RequestOption :=
  fun c => mkRequestConfig (rc_timeout c) (rc_maxRetries c) key.

(** The [body] argument after [json.Marshal]. *)
Inductive Payload :=
| NoBody
| Marshalled (bodyBytes : list byte)
| MarshalError (err : string).

(** The fields [mapError] reads from the error envelope. *)
Record errBody := mkErrBody {
  Error_Message : string;
  Error_Code : string;
  Error_ValidationErrors : list (string * list string);
  Top_Message : string;
  Top_Code : string }.

Definition sdkVersion : string := "0.1.0".

(** [int(math.Pow(2, float64(attempt)))]: a negative exponent truncates
    to zero, and from [2^63] on the power is outside [int64]. *)
Definition pow2_int (attempt : Z) : Z := Float64.to_int64 (2 ^ attempt).

(** [math.Min(float64(1000*int(math.Pow(2, float64(attempt)))), 10000)] *)
Definition backoff_base (attempt : Z) : Z :=
  Z.min (Float64.round53 (wrap64 (1000 * pow2_int attempt))) 10000.

(** [rand.Float64() * 1000] in units of [2^-63], [u] being the [Int63]
    that [rand.Float64] divides by [1 << 63]. *)
Definition jitter (u : Z) : Z :=
  Float64.round53 (Float64.round53 u * 1000).

(** The argument [backoff] passes to [time.Sleep]:
    [time.Duration(base+jitter) * time.Millisecond].  The sum is rounded
    in units of [2^-63]; the conversion to [time.Duration] drops its
    fraction. *)
Definition backoff_duration (attempt u : Z) : Z :=
  let sum := Float64.round53 (backoff_base attempt * 2 ^ 63 + jitter u) in
  wrap64 (Float64.to_int64 (Z.quot sum (2 ^ 63)) * Millisecond).

Section Do.
(** [json.Unmarshal(body, &errBody)], errors ignored. *)
Variable decode_errBody : list byte -> errBody.
(** The error, if any, of [http.NewRequestWithContext(ctx, method, u, _)]. *)
Variable newRequest_err : string -> string -> option string.
(** [query.Encode()] *)
Variable query_Encode : list (string * list string) -> string.
(** [httpClient.Do(req)] for the given attempt, entered at the given
    clock reading. *)
Variable httpClient_Do : Z -> Z -> Exchange.
(** The [Int63] behind the [rand.Float64()] of [backoff(attempt)]. *)
Variable rand_Int63 : Z -> Z.

Definition backoff (attempt : Z) (r : Run) : Run :=
  sleep (backoff_duration attempt (rand_Int63 attempt)) r.

Definition mapError (status : Z) (body : list byte) (requestID : string)
    (headers : gmap string string) : error :=
  let eb := decode_errBody body in
  let msg := Error_Message eb in
  let msg := if bool_decide (msg = EmptyString) then Top_Message eb else msg in
  let msg := if bool_decide (msg = EmptyString)
             then "API error: " +:+ Strconv.FormatInt status else msg in
  let code := Error_Code eb in
  let code := if bool_decide (code = EmptyString) then Top_Code eb else code in
  let code := if bool_decide (code = EmptyString)
              then "unknown_error" else code in
  let base := mkAPIError msg status code requestID in
  if status =? 401 then AuthenticationError base
  else if status =? 403 then ForbiddenError base
  else if status =? 404 then NotFoundError base
  else if (status =? 400) || (status =? 422) then
    ValidationError base (Error_ValidationErrors eb)
  else if status =? 429 then
    let ra := Header_Get headers "Retry-After" in
    let retryAfter :=
      if bool_decide (ra = EmptyString) then 60
      else match Strconv.Atoi ra with
           | Some v => v
           | None => 60
           end in
    RateLimitError base retryAfter
  else GenericAPIError base.

Section Call.
Variable t : transport.
Variable ctx : Context.
Variable method u : string.
Variable body : Payload.
(** [out]: [None] for nil, else the error, if any, of
    [json.Unmarshal(respBody, out)]. *)
Variable out : option (list byte -> option string).
Variable rc : requestConfig.
Variable maxRetries' : Z.

Definition buildRequest : Request :=
  mkRequest method u
    ([ ("Authorization", "Bearer " +:+ apiKey t);
       ("User-Agent", "hookbase-go/" +:+ sdkVersion);
       ("Accept", "application/json") ]
     ++ match body with
        | NoBody => []
        | _ => [ ("Content-Type", "application/json") ]
        end
     ++ (if bool_decide (idempotencyKey rc = EmptyString) then []
         else [ ("Idempotency-Key", idempotencyKey rc) ]))
    match body with Marshalled b => Some b | _ => None end.

(** The [for attempt := 0; attempt <= maxRetries; attempt++] loop,
    entered at its condition.  [None]: more iterations than [fuel]. *)
Fixpoint loop (fuel : nat) (attempt : Z) (lastErr : option error)
    (r : Run) : option (option error * Run) :=
  match fuel with
  | O => None
  | S fuel' =>
      if maxRetries' <? attempt then Some (lastErr, r)
      else
        match newRequest_err method u with
        | Some err =>
            Some (Some (NetworkError "failed to create request" err), r)
        | None =>
            let ex := httpClient_Do attempt (clock r) in
            let r := mkRun (clock r + elapsed ex)
                           (trace r ++ [Dispatch attempt buildRequest]) in
            match outcome ex with
            | Failed err =>
                let lastErr := Some (NetworkError err err) in
                match ctx_Err ctx (clock r) with
                | Some cerr => Some (Some (TimeoutError cerr), r)
                | None =>
                    if attempt <? maxRetries' then
                      loop fuel' (wrap64 (attempt + 1)) lastErr
                           (backoff attempt r)
                    else Some (lastErr, r)
                end
            | Responded resp =>
                match Body resp with
                | BodyErr err =>
                    let lastErr :=
                      Some (NetworkError "failed to read response body" err) in
                    if attempt <? maxRetries' then
                      loop fuel' (wrap64 (attempt + 1)) lastErr
                           (backoff attempt r)
                    else Some (lastErr, r)
                | BodyOk respBody =>
                    let requestID := Header_Get (Header resp) "X-Request-Id" in
                    if (200 <=? StatusCode resp) && (StatusCode resp <? 300)
                    then
                      match out with
                      | Some unmarshal =>
                          if StatusCode resp =? 204 then Some (None, r)
                          else
                            match unmarshal respBody with
                            | Some err =>
                                Some (Some (Error
                                  ("failed to unmarshal response: " +:+ err)), r)
                            | None => Some (None, r)
                            end
                      | None => Some (None, r)
                      end
                    else
                      let apiErr := mapError (StatusCode resp) respBody
                                      requestID (Header resp) in
                      match apiErr with
                      | AuthenticationError _ | ForbiddenError _
                      | NotFoundError _ | ValidationError _ _ =>
                          Some (Some apiErr, r)
                      | RateLimitError _ retryAfter =>
                          if attempt <? maxRetries' then
                            loop fuel' (wrap64 (attempt + 1)) lastErr
                                 (sleep (wrap64 (retryAfter * Second)) r)
                          else Some (Some apiErr, r)
                      | _ =>
                          loop fuel' (wrap64 (attempt + 1)) (Some apiErr)
                               (if attempt <? maxRetries'
                                then backoff attempt r else r)
                      end
                end
            end
        end
  end.
End Call.

(** [transport.do], started at clock reading [now] with an empty
    trace.  Debug logging is left out. *)
Definition do (fuel : nat) (now : Z) (t : transport) (ctx : Context)
    (method path : string) (query : list (string * list string))
    (body : Payload) (out : option (list byte -> option string))
    (opts : list RequestOption) : option (option error * Run) :=
  let rc := fold_left (fun rc opt => opt rc) opts
              (mkRequestConfig (timeout t) None EmptyString) in
  let maxRetries' := match rc_maxRetries rc with
                     | Some n => n
                     | None => maxRetries t
                     end in
  let u := baseURL t +:+ path in
  let u := if (0 <? length query)%nat
           then u +:+ "?" +:+ query_Encode query else u in
  match body with
  | MarshalError err =>
      Some (Some (Error ("failed to marshal request body: " +:+ err)),
            mkRun now [])
  | _ => loop t ctx method u body out rc maxRetries' fuel 0 None (mkRun now [])
  end.
End Do.

End Transport.

(** ** webhook.go: [VerifyAndParse] *)

Module WebhookParse.
Import Errors Webhook.

Section VerifyAndParse.
Variable unicode_ToLower : string -> string.
(** [json.Unmarshal(payload, v)]: its error, if any. *)
Variable json_Unmarshal : list byte -> option string.

(** The error [VerifyAndParse] returns: one of [Verify] (left) or the
    one of [json.Unmarshal] (right). *)
Definition VerifyAndParse (now : Z) (w : Webhook) (payload : list byte)
    (headers : list (string * string)) : option (error + string) :=
  match Verify unicode_ToLower now w payload headers with
  | Some err => Some (inl err)
  | None =>
      match json_Unmarshal payload with
      | Some err => Some (inr err)
      | None => None
      end
  end.
End VerifyAndParse.

End WebhookParse.

(** ** options.go: the client options *)

Module Options.
Import Transport.

Definition defaultBaseURL : string := "https://api.hookbase.app".
Definition defaultTimeout : Z := 30 * Second.
Definition defaultMaxRetries : Z := 3.

(** An [*http.Client] is what its [Do] does: the exchange of an attempt
    entered at a clock reading. *)
Definition HTTPClient : Type := Z -> Z -> Exchange.

Record clientConfig := mkClientConfig {
  cfg_baseURL : string;
  cfg_timeout : Z;
  cfg_maxRetries : Z;
  cfg_httpClient : option HTTPClient;
  cfg_debug : bool }.

Definition defaultConfig : clientConfig :=
  mkClientConfig defaultBaseURL defaultTimeout defaultMaxRetries None false.

Definition ClientOption : Type := clientConfig -> clientConfig.

(** [s[len(s)-1]], for a string that is not empty. *)
Definition last_char (s : string) : option ascii :=
  String.get (String.length s - 1) s.

(** [s[:n]] *)
Fixpoint take (n : nat) (s : string) : string :=
  match n, s with
  | S n', String c s' => String c (take n' s')
  | _, _ => EmptyString
  end.

(** The loop of [WithBaseURL]:
    [for len(url) > 0 && url[len(url)-1] == '/' { url = url[:len(url)-1] }];
    it runs at most [len(url)] times. *)
Fixpoint trim_slashes (fuel : nat) (url : string) : string :=
  match fuel with
  | O => url
  | S fuel' =>
      if (0 <? String.length url)%nat
         && bool_decide (last_char url = Some "/"%char)
      then trim_slashes fuel' (take (String.length url - 1) url)
      else url
  end.

Definition WithBaseURL (url : string) : ClientOption :=
  fun c => mkClientConfig (trim_slashes (String.length url) url)
             (cfg_timeout c) (cfg_maxRetries c) (cfg_httpClient c) (cfg_debug c).

Definition WithTimeout (d : Z) : ClientOption :=
  fun c => mkClientConfig (cfg_baseURL c) d (cfg_maxRetries c)
             (cfg_httpClient c) (cfg_debug c).

Definition WithMaxRetries (n : Z) : ClientOption :=
  fun c => mkClientConfig (cfg_baseURL c) (cfg_timeout c) n
             (cfg_httpClient c) (cfg_debug c).

(** [client] is [None] for a nil pointer. *)
Definition WithHTTPClient (client : option HTTPClient) : ClientOption :=
  fun c => mkClientConfig (cfg_baseURL c) (cfg_timeout c) (cfg_maxRetries c)
             client (cfg_debug c).

Definition WithDebug (debug : bool) : ClientOption :=
  fun c => mkClientConfig (cfg_baseURL c) (cfg_timeout c) (cfg_maxRetries c)
             (cfg_httpClient c) debug.

End Options.

(** ** hookbase.go: the client and the query helpers *)

Module Client.
Import Transport Options.

Section New.
(** [&http.Client{Timeout: d}] *)
Variable http_Client : Z -> HTTPClient.

Definition newTransport (apiKey : string) (cfg : clientConfig)
  : transport * HTTPClient :=
  (mkTransport apiKey (cfg_baseURL cfg) (cfg_timeout cfg)
               (cfg_maxRetries cfg) (cfg_debug cfg),
   match cfg_httpClient cfg with
   | Some client => client
   | None => http_Client (cfg_timeout cfg)
   end).

(** [New]: the transport all resources of the client share and the HTTP
    client it sends with; [None] stands for the panic. *)
Definition New (apiKey : string) (opts : list ClientOption)
  : option (transport * HTTPClient) :=
  if bool_decide (apiKey = EmptyString) then None
  else Some (newTransport apiKey
               (fold_left (fun cfg opt => opt cfg) opts defaultConfig)).
End New.

(** [url.Values] *)
Abbreviation Values := (gmap string (list string)).

Definition Values_Set (q : Values) (key value : string) : Values :=
  <[key := [value]]> q.

(** [strconv.FormatBool] *)
Definition FormatBool (b : bool) : string := if b then "true" else "false".

(** A value of the [map[string]interface{}] given to [buildQuery], by its
    dynamic type; a pointer is [None] when nil.  For a type the switch
    does not list, [formatted] is what [fmt.Sprintf("%v", v)] prints. *)
Inductive param :=
| PNil
| PString (val : string)
| PInt (val : Z)
| PInt64 (val : Z)
| PBool (val : bool)
| PStringPtr (val : option string)
| PIntPtr (val : option Z)
| PBoolPtr (val : option bool)
| POther (formatted : string).

(** The body of the loop of [buildQuery]. *)
Definition addParam (q : Values) (kv : string * param) : Values :=
  let k := fst kv in
  match snd kv with
  | PNil => q
  | PString val =>
      if bool_decide (val = EmptyString) then q else Values_Set q k val
  | PInt val =>
      if val =? 0 then q else Values_Set q k (Strconv.FormatInt val)
  | PInt64 val =>
      if val =? 0 then q else Values_Set q k (Strconv.FormatInt val)
  | PBool val => Values_Set q k (FormatBool val)
  | PStringPtr val =>
      match val with
      | Some s => if bool_decide (s = EmptyString) then q else Values_Set q k s
      | None => q
      end
  | PIntPtr val =>
      match val with
      | Some i => Values_Set q k (Strconv.FormatInt i)
      | None => q
      end
  | PBoolPtr val =>
      match val with
      | Some b => Values_Set q k (FormatBool b)
      | None => q
      end
  | POther s =>
      if bool_decide (s = EmptyString) then q else Values_Set q k s
  end.

(** [buildQuery]; the map is given by its entries in the order [range]
    visits them. *)
Definition buildQuery (params : list (string * param)) : Values :=
  fold_left addParam params ∅.

(** [strings.Join(elems, sep)] *)
Fixpoint strings_Join (elems : list string) (sep : string) : string :=
  match elems with
  | [] => EmptyString
  | [e] => e
  | e :: rest => e +:+ sep +:+ strings_Join rest sep
  end.

Definition joinIDs (ids : list string) : string := strings_Join ids ",".

End Client.

(** ** net/url *)

Module URL.

Definition upperhex : list ascii := list_ascii_of_string "0123456789ABCDEF".

Definition is_alnum (c : ascii) : bool :=
  let n := nat_of_ascii c in
  ((97 <=? n) && (n <=? 122) || (65 <=? n) && (n <=? 90)
   || (48 <=? n) && (n <=? 57))%nat.

Definition one_of (set : string) (c : ascii) : bool :=
  existsb (Ascii.eqb c) (list_ascii_of_string set).

(** [shouldEscape(c, encodePathSegment)] *)
Definition shouldEscape (c : ascii) : bool :=
  if is_alnum c then false
  else if one_of "-_.~" c then false
  else if one_of "$&+,/:;=?@" c then one_of "/;,?" c
  else true.

Definition hex (v : nat) : ascii := nth v upperhex "0"%char.

(** [PathEscape(s)], that is [escape(s, encodePathSegment)]. *)
Fixpoint PathEscape (s : string) : string :=
  match s with
  | EmptyString => EmptyString
  | String c s' =>
      if shouldEscape c then
        String "%" (String (hex (nat_of_ascii c / 16))
                      (String (hex (nat_of_ascii c mod 16)) (PathEscape s')))
      else String c (PathEscape s')
  end.

End URL.

(** ** sources.go, events.go, deliveries.go: resources *)

Module Resources.
Import Int Errors Transport Client.

(** [PageResponse], without its [Data]. *)
Record PageResponse := mkPage {
  Total : Z; Page : Z; PageSize : Z; HasMore : bool }.

(** [max] of events.go *)
Definition max (a b : Z) : Z := if b <? a then a else b.

(** The page [EventsResource.List] makes of a decoded response. *)
Definition eventsPage (total limit offset : Z) : PageResponse :=
  mkPage total (wrap64 (Z.quot offset (max limit 1) + 1)) limit
         (wrap64 (offset + limit) <? total).

(** The page [DeliveriesResource.List] makes of a decoded response with
    [len] deliveries. *)
Definition deliveriesPage (len limit offset : Z) : PageResponse :=
  mkPage len (wrap64 (Z.quot offset (max limit 1) + 1)) limit (limit <=? len).

Section Calls.
Variable decode_errBody : list byte -> errBody.
Variable newRequest_err : string -> string -> option string.
Variable query_Encode : list (string * list string) -> string.
Variable httpClient_Do : Z -> Z -> Exchange.
Variable rand_Int63 : Z -> Z.

Local Abbreviation call :=
  (do decode_errBody newRequest_err query_Encode httpClient_Do rand_Int63).

(** [SourcesResource.Delete] *)
Definition Sources_Delete (fuel : nat) (now : Z) (t : transport)
    (ctx : Context) (id : string) (opts : list RequestOption)
  : option (option error * Run) :=
  call fuel now t ctx "DELETE" ("/api/sources/" +:+ URL.PathEscape id) []
       NoBody None opts.

End Calls.

End Resources.

(** * Test vectors

    The embeddings of the library functions, run on published vectors:
    FIPS 180-4 for SHA-256, RFC 4231 for HMAC-SHA256, RFC 4648 for
    base64. *)

Module Vectors.
Import Int.

Example sha256_abc :
  SHA256.Sum256 (list_byte_of_string "abc")
  = [ xba; x78; x16; xbf; x8f; x01; xcf; xea;
      x41; x41; x40; xde; x5d; xae; x22; x23;
      xb0; x03; x61; xa3; x96; x17; x7a; x9c;
      xb4; x10; xff; x61; xf2; x00; x15; xad ].
Proof. vm_compute. reflexivity. Qed.

Example sha256_two_blocks :
  SHA256.Sum256
    (list_byte_of_string
       "abcdbcdecdefdefgefghfghighijhijkijkljklmklmnlmnomnopnopq")
  = [ x24; x8d; x6a; x61; xd2; x06; x38; xb8;
      xe5; xc0; x26; x93; x0c; x3e; x60; x39;
      xa3; x3c; xe4; x59; x64; xff; x21; x67;
      xf6; xec; xed; xd4; x19; xdb; x06; xc1 ].
Proof. vm_compute. reflexivity. Qed.

Example hmac_rfc4231_2 :
  HMAC.Sum (list_byte_of_string "Jefe")
           (list_byte_of_string "what do ya want for nothing?")
  = [ x5b; xdc; xc1; x46; xbf; x60; x75; x4e;
      x6a; x04; x24; x26; x08; x95; x75; xc7;
      x5a; x00; x3f; x08; x9d; x27; x39; x83;
      x9d; xec; x58; xb9; x64; xec; x38; x43 ].
Proof. vm_compute. reflexivity. Qed.

Example hmac_rfc4231_6 :
  HMAC.Sum (repeat xaa 131)
    (list_byte_of_string
       "Test Using Larger Than Block-Size Key - Hash Key First")
  = [ x60; xe4; x31; x59; x1e; xe0; xb6; x7f;
      x0d; x8a; x26; xaa; xcb; xf5; xb7; x7f;
      x8e; x0b; xc6; x21; x37; x28; xc5; x14;
      x05; x46; x04; x0f; x0e; xe3; x7f; x54 ].
Proof. vm_compute. reflexivity. Qed.

Example base64_rfc4648 :
  List.map (fun s => Base64.EncodeToString (list_byte_of_string s))
           ["f"; "fo"; "foo"; "foob"; "fooba"; "foobar"]
  = ["Zg=="; "Zm8="; "Zm9v"; "Zm9vYg=="; "Zm9vYmE="; "Zm9vYmFy"].
Proof. vm_compute. reflexivity. Qed.

Example base64_decode :
  List.map Base64.DecodeString ["Zm9vYg=="; "Zm9v"; "Zm9"; "Zg=x"; "Z==="; "Zh=="]
  = [ Some (list_byte_of_string "foob"); Some (list_byte_of_string "foo");
      None; None; None; Some (list_byte_of_string "f") ].
Proof. vm_compute. reflexivity. Qed.

Example parse_int :
  List.map Strconv.ParseInt
    ["0"; "-12"; "+7"; "9223372036854775807"; "9223372036854775808";
     "-9223372036854775808"; "1_0"; "12a"; "-"]
  = [ Some 0; Some (-12); Some 7; Some max_int64; None;
      Some min_int64; None; None; None ].
Proof. vm_compute. reflexivity. Qed.

Example format_int :
  List.map Strconv.FormatInt [0; -12; 1700000000; min_int64]
  = ["0"; "-12"; "1700000000"; "-9223372036854775808"]%string.
Proof. vm_compute. reflexivity. Qed.

(** [float64] keeps 53 bits: [2^53 + 1] is a tie and goes to the even
    neighbour, [2^53 + 3] goes up. *)
Example round53_ties :
  List.map (fun d => Float64.round53 (2 ^ 53 + d) - 2 ^ 53) [0; 1; 2; 3; 4; 5]
  = [0; 0; 2; 4; 4; 4].
Proof. vm_compute. reflexivity. Qed.

Example split_header :
  Strings.Split " " "v1,abc  v2,d,e"
  = ["v1,abc"; EmptyString; "v2,d,e"]%string /\
  Strings.SplitN2 "," "v2,d,e" = ["v2"; "d,e"]%string /\
  Strings.SplitN2 "," "v1" = ["v1"]%string.
Proof. vm_compute. auto. Qed.

End Vectors.

(** * Properties *)

(** ** Bytes *)

Module IntFacts.
Import Int.

Lemma Z_of_byte_range (b : byte) : 0 <= Z_of_byte b < 256.
Proof.
  unfold Z_of_byte. pose proof (Byte.to_N_bounded b). lia.
Qed.

Lemma byte_of_Z_mod (x : Z) : byte_of_Z (x mod 256) = byte_of_Z x.
Proof.
  unfold byte_of_Z. now rewrite Z.mod_mod by lia.
Qed.

Lemma byte_of_Z_of_byte (b : byte) : byte_of_Z (Z_of_byte b) = b.
Proof.
  pose proof (Z_of_byte_range b) as Hb.
  unfold byte_of_Z. rewrite Z.mod_small by lia.
  unfold Z_of_byte. now rewrite N2Z.id, Byte.of_to_N.
Qed.

Lemma byte_of_Z_low (hi : Z) (b : byte) :
  byte_of_Z (hi * 256 + Z_of_byte b) = b.
Proof.
  rewrite <- byte_of_Z_mod.
  rewrite Z.add_comm, Z.mod_add by lia.
  rewrite byte_of_Z_mod. apply byte_of_Z_of_byte.
Qed.

Lemma wrap64_id (x : Z) : in_int64 x -> wrap64 x = x.
Proof.
  unfold in_int64, min_int64, max_int64, wrap64. intros Hx.
  rewrite Z.mod_small; lia.
Qed.

Lemma in_int64b_true (x : Z) : in_int64 x -> in_int64b x = true.
Proof.
  unfold in_int64, in_int64b. intros Hx.
  apply andb_true_intro; split; apply Z.leb_le; lia.
Qed.

End IntFacts.

(** ** Base64: decoding inverts encoding *)

Module Base64Facts.
Import Int IntFacts Base64.

(** Induction three bytes at a time, the way the encoder consumes its
    input. *)
Lemma list_ind3 {A : Type} (P : list A -> Prop) :
  P [] -> (forall a, P [a]) -> (forall a b, P [a; b]) ->
  (forall a b c l, P l -> P (a :: b :: c :: l)) ->
  forall l, P l.
Proof.
  intros H0 H1 H2 H3 l.
  assert (Hall : P l /\ (forall a, P (a :: l)) /\ (forall a b, P (a :: b :: l))).
  { induction l as [|x l IH].
    - auto.
    - destruct IH as (IH0 & IH1 & IH2). repeat split; auto. }
  apply Hall.
Qed.

Lemma sextet_cases (v : Z) :
  0 <= v < 64 -> exists n : nat, (n < 64)%nat /\ v = Z.of_nat n.
Proof.
  intros Hv. exists (Z.to_nat v). split; lia.
Qed.

Ltac each_sextet v H :=
  let n := fresh "n" in
  let Hn := fresh "Hn" in
  destruct (sextet_cases v H) as (n & Hn & ->);
  do 64 (destruct n as [|n]; [vm_compute; try reflexivity; try discriminate; auto|]);
  exfalso; lia.

Lemma dec_enc (v : Z) : 0 <= v < 64 -> dec (enc v) = Some v.
Proof. intros Hv. each_sextet v Hv. Qed.

Lemma enc_not_newline (v : Z) : 0 <= v < 64 -> is_newline (enc v) = false.
Proof. intros Hv. each_sextet v Hv. Qed.

Lemma enc_not_space (v : Z) : 0 <= v < 64 -> Ascii.eqb (enc v) " " = false.
Proof. intros Hv. each_sextet v Hv. Qed.

(** The characters an encoder emits. *)
Definition emitted (c : ascii) : Prop :=
  is_newline c = false /\ Ascii.eqb c " " = false.

Lemma emitted_enc (v : Z) : 0 <= v < 64 -> emitted (enc v).
Proof. intros Hv. split; [now apply enc_not_newline | now apply enc_not_space]. Qed.

Lemma emitted_pad : emitted padChar.
Proof. split; reflexivity. Qed.

Lemma pack3_range (b0 b1 b2 : byte) : 0 <= pack3 b0 b1 b2 < 16777216.
Proof.
  unfold pack3.
  pose proof (Z_of_byte_range b0). pose proof (Z_of_byte_range b1).
  pose proof (Z_of_byte_range b2). lia.
Qed.

Lemma sextets (val : Z) :
  0 <= val < 16777216 ->
  0 <= val / 262144 < 64 /\ 0 <= val / 4096 mod 64 < 64 /\
  0 <= val / 64 mod 64 < 64 /\ 0 <= val mod 64 < 64 /\
  val / 262144 * 262144 + val / 4096 mod 64 * 4096
    + val / 64 mod 64 * 64 + val mod 64 = val.
Proof.
  intros Hv. Z.div_mod_to_equations. lia.
Qed.

Lemma Forall_emitted_encode (src : list byte) :
  Forall emitted (list_ascii_of_string (EncodeToString src)).
Proof.
  induction src as [| b0 | b0 b1 | b0 b1 b2 rest IH] using list_ind3.
  - constructor.
  - cbn [EncodeToString list_ascii_of_string].
    destruct (sextets _ (pack3_range b0 x00 x00)) as (H0 & H1 & _).
    repeat (apply List.Forall_cons;
            [first [apply emitted_pad | apply emitted_enc; assumption]|]).
    apply List.Forall_nil.
  - cbn [EncodeToString list_ascii_of_string].
    destruct (sextets _ (pack3_range b0 b1 x00)) as (H0 & H1 & H2 & _).
    repeat (apply List.Forall_cons;
            [first [apply emitted_pad | apply emitted_enc; assumption]|]).
    apply List.Forall_nil.
  - cbn [EncodeToString list_ascii_of_string].
    destruct (sextets _ (pack3_range b0 b1 b2)) as (H0 & H1 & H2 & H3 & _).
    repeat (apply List.Forall_cons; [apply emitted_enc; assumption|]).
    exact IH.
Qed.

Lemma filter_all {A : Type} (p : A -> bool) (l : list A) :
  Forall (fun x => p x = true) l -> List.filter p l = l.
Proof.
  induction 1 as [|x l Hx _ IH]; cbn; [reflexivity|].
  now rewrite Hx, IH.
Qed.

Lemma unpack_pack (b0 b1 b2 : byte) (d0 d1 d2 d3 : Z) :
  d0 * 262144 + d1 * 4096 + d2 * 64 + d3 = pack3 b0 b1 b2 ->
  unpack d0 d1 d2 d3 = (b0, b1, b2).
Proof.
  intros E. unfold unpack. rewrite E. unfold pack3.
  pose proof (Z_of_byte_range b0). pose proof (Z_of_byte_range b1).
  pose proof (Z_of_byte_range b2).
  replace ((Z_of_byte b0 * 65536 + Z_of_byte b1 * 256 + Z_of_byte b2) / 65536)
    with (Z_of_byte b0) by (Z.div_mod_to_equations; lia).
  replace ((Z_of_byte b0 * 65536 + Z_of_byte b1 * 256 + Z_of_byte b2) / 256)
    with (Z_of_byte b0 * 256 + Z_of_byte b1) by (Z.div_mod_to_equations; lia).
  replace (Z_of_byte b0 * 65536 + Z_of_byte b1 * 256 + Z_of_byte b2)
    with ((Z_of_byte b0 * 256 + Z_of_byte b1) * 256 + Z_of_byte b2) by lia.
  now rewrite byte_of_Z_of_byte, !byte_of_Z_low.
Qed.

Lemma dec_pad : dec padChar = None.
Proof. reflexivity. Qed.

Lemma quanta_encode (src : list byte) :
  forall fuel,
    (length (list_ascii_of_string (EncodeToString src)) < fuel)%nat ->
    quanta fuel (list_ascii_of_string (EncodeToString src)) = Some src.
Proof.
  induction src as [| b0 | b0 b1 | b0 b1 b2 rest IH] using list_ind3;
    intros [|fuel] Hfuel; try (exfalso; cbn in Hfuel; lia).
  - reflexivity.
  - cbn [EncodeToString list_ascii_of_string quanta].
    destruct (sextets _ (pack3_range b0 x00 x00)) as (H0 & H1 & H2 & H3 & E).
    rewrite !dec_enc, dec_pad by assumption.
    assert (Hz : pack3 b0 x00 x00 / 64 mod 64 = 0 /\ pack3 b0 x00 x00 mod 64 = 0).
    { unfold pack3. change (Z_of_byte x00) with 0.
      pose proof (Z_of_byte_range b0). Z.div_mod_to_equations. lia. }
    destruct Hz as (Hz2 & Hz3).
    rewrite (unpack_pack b0 x00 x00) by lia.
    reflexivity.
  - cbn [EncodeToString list_ascii_of_string quanta].
    destruct (sextets _ (pack3_range b0 b1 x00)) as (H0 & H1 & H2 & H3 & E).
    rewrite !dec_enc, dec_pad by assumption.
    assert (Hz3 : pack3 b0 b1 x00 mod 64 = 0).
    { unfold pack3. change (Z_of_byte x00) with 0.
      pose proof (Z_of_byte_range b0). pose proof (Z_of_byte_range b1).
      Z.div_mod_to_equations. lia. }
    rewrite (unpack_pack b0 b1 x00) by lia.
    reflexivity.
  - cbn [EncodeToString list_ascii_of_string quanta].
    destruct (sextets _ (pack3_range b0 b1 b2)) as (H0 & H1 & H2 & H3 & E).
    rewrite !dec_enc by assumption.
    rewrite (unpack_pack b0 b1 b2) by lia.
    rewrite IH; [reflexivity|].
    cbn [EncodeToString list_ascii_of_string length] in Hfuel. lia.
Qed.

(** [DecodeString(EncodeToString(src))] returns [src] and a nil error. *)
Lemma DecodeString_EncodeToString (src : list byte) :
  DecodeString (EncodeToString src) = Some src.
Proof.
  unfold DecodeString.
  rewrite filter_all.
  - apply quanta_encode. lia.
  - eapply List.Forall_impl; [|apply Forall_emitted_encode].
    intros c (Hc & _). cbn beta. now rewrite Hc.
Qed.

End Base64Facts.

(** ** strconv: parsing inverts formatting *)

Module StrconvFacts.
Import Int IntFacts Strconv.

Lemma digit_cases (d : Z) :
  0 <= d < 10 ->
  d = 0 \/ d = 1 \/ d = 2 \/ d = 3 \/ d = 4 \/
  d = 5 \/ d = 6 \/ d = 7 \/ d = 8 \/ d = 9.
Proof. lia. Qed.

Lemma digit_val_char (d : Z) : 0 <= d < 10 -> digit_val (digit_char d) = Some d.
Proof.
  intros Hd.
  destruct (digit_cases d Hd) as [->|[->|[->|[->|[->|[->|[->|[->|[->| ->]]]]]]]]];
    reflexivity.
Qed.

Lemma digit_char_not_sign (d : Z) :
  0 <= d < 10 ->
  Ascii.eqb (digit_char d) "+" = false /\ Ascii.eqb (digit_char d) "-" = false.
Proof.
  intros Hd.
  destruct (digit_cases d Hd) as [->|[->|[->|[->|[->|[->|[->|[->|[->| ->]]]]]]]]];
    split; reflexivity.
Qed.

(** Reading back what [format_uint] wrote in front of [acc] appends the
    digits of [u] to the number read so far. *)
Lemma parse_format_uint (fuel : nat) :
  forall u acc, 0 <= u < 10 ^ Z.of_nat (S fuel) ->
  exists k, 0 < k /\ u < 10 ^ k /\
    forall a, parse_digits (format_uint (S fuel) u acc) a
              = parse_digits acc (a * 10 ^ k + u).
Proof.
  assert (Hdigit : forall u acc, 0 <= u < 10 ->
            forall a, parse_digits (String (digit_char (u mod 10)) acc) a
                      = parse_digits acc (a * 10 ^ 1 + u)).
  { intros u acc Hu a. cbn [parse_digits].
    rewrite Z.mod_small by lia. rewrite digit_val_char by lia.
    f_equal; lia. }
  induction fuel as [|fuel IH]; intros u acc Hu.
  - change (10 ^ Z.of_nat 1) with 10 in Hu.
    exists 1. split; [lia|]. split; [lia|].
    intros a. cbn [format_uint]. destruct (u <? 10); now apply Hdigit.
  - change (format_uint (S (S fuel)) u acc)
      with (let acc' := String (digit_char (u mod 10)) acc in
            if u <? 10 then acc' else format_uint (S fuel) (u / 10) acc').
    cbn zeta. destruct (Z.ltb_spec u 10) as [Hlt|Hge].
    + exists 1. split; [lia|]. split; [lia|]. intros a. now apply Hdigit.
    + assert (Hq : 0 <= u / 10 < 10 ^ Z.of_nat (S fuel)).
      { rewrite (Nat2Z.inj_succ (S fuel)), Z.pow_succ_r in Hu by lia.
        Z.div_mod_to_equations. lia. }
      destruct (IH (u / 10) (String (digit_char (u mod 10)) acc) Hq)
        as (k & Hk & Hlt & Hparse).
      exists (k + 1). rewrite Z.pow_add_r, Z.pow_1_r by lia.
      split; [lia|]. split; [Z.div_mod_to_equations; lia|].
      intros a. rewrite Hparse. cbn [parse_digits].
      rewrite digit_val_char by (Z.div_mod_to_equations; lia).
      f_equal. Z.div_mod_to_equations. lia.
Qed.

Lemma format_uint_head (fuel : nat) :
  forall u acc, 0 <= u ->
  exists d rest, 0 <= d < 10 /\
    format_uint (S fuel) u acc = String (digit_char d) rest.
Proof.
  induction fuel as [|fuel IH]; intros u acc Hu.
  - cbn [format_uint]. exists (u mod 10).
    destruct (u <? 10); eexists; (split; [|reflexivity]);
      Z.div_mod_to_equations; lia.
  - change (format_uint (S (S fuel)) u acc)
      with (let acc' := String (digit_char (u mod 10)) acc in
            if u <? 10 then acc' else format_uint (S fuel) (u / 10) acc').
    cbn zeta. destruct (u <? 10).
    + exists (u mod 10). eexists. split; [|reflexivity].
      Z.div_mod_to_equations; lia.
    + apply IH. Z.div_mod_to_equations; lia.
Qed.

Lemma ParseUint_format_uint (u : Z) :
  0 <= u < 2 ^ 64 -> ParseUint (format_uint 20 u EmptyString) = Some u.
Proof.
  intros Hu.
  destruct (format_uint_head 19 u EmptyString) as (d & rest & Hd & E); [lia|].
  destruct (parse_format_uint 19 u EmptyString) as (k & _ & _ & Hparse).
  { change (10 ^ Z.of_nat 20) with 100000000000000000000.
    change (2 ^ 64) with 18446744073709551616 in Hu. lia. }
  unfold ParseUint. rewrite Hparse. rewrite E.
  cbn [parse_digits]. rewrite Z.mul_0_l, Z.add_0_l.
  destruct (Z.ltb_spec u (2 ^ 64)); [reflexivity | lia].
Qed.

(** [ParseInt(FormatInt(i, 10), 10, 64)] returns [i] and a nil error. *)
Lemma ParseInt_FormatInt (i : Z) : in_int64 i -> ParseInt (FormatInt i) = Some i.
Proof.
  unfold in_int64, min_int64, max_int64. intros Hi.
  unfold FormatInt. destruct (Z.ltb_spec i 0) as [Hneg|Hpos].
  - cbn [ParseInt]. change (Ascii.eqb "-" "-") with true.
    change (Ascii.eqb "-" "+") with false. cbn [orb negb andb].
    rewrite ParseUint_format_uint by lia.
    destruct (Z.ltb_spec (2 ^ 63) (- i)); [lia|].
    f_equal. lia.
  - destruct (format_uint_head 19 i EmptyString) as (d & rest & Hd & E); [lia|].
    pose proof (ParseUint_format_uint i ltac:(lia)) as HP.
    rewrite E in *. cbn [ParseInt].
    destruct (digit_char_not_sign d Hd) as (-> & ->). cbn [orb negb andb].
    rewrite HP.
    destruct (Z.leb_spec (2 ^ 63) i); [lia | reflexivity].
Qed.

Lemma digit_val_range (c : ascii) (d : Z) : digit_val c = Some d -> 0 <= d < 10.
Proof.
  unfold digit_val.
  destruct (Z.leb_spec 48 (Z.of_nat (nat_of_ascii c)));
    destruct (Z.leb_spec (Z.of_nat (nat_of_ascii c)) 57);
    cbn [andb]; intros E; inversion E; lia.
Qed.

Lemma parse_digits_nonneg (s : string) :
  forall acc n, 0 <= acc -> parse_digits s acc = Some n -> 0 <= n.
Proof.
  induction s as [|c s IH]; intros acc n Hacc; cbn [parse_digits].
  - intros E. inversion E. lia.
  - destruct (digit_val c) as [d|] eqn:Ed; [|discriminate].
    apply digit_val_range in Ed. apply IH. lia.
Qed.

(** What [ParseInt] returns with a nil error fits [int64]. *)
Lemma ParseInt_range (s : string) (t : Z) : ParseInt s = Some t -> in_int64 t.
Proof.
  unfold in_int64, min_int64, max_int64, ParseInt.
  destruct s as [|c rest]; [discriminate|].
  set (body := if Ascii.eqb c "+" || Ascii.eqb c "-" then rest else String c rest).
  destruct (ParseUint body) as [un|] eqn:EU; [|discriminate].
  assert (Hun : 0 <= un).
  { unfold ParseUint in EU. destruct body; [discriminate|].
    destruct (parse_digits _ 0) as [n|] eqn:EP; [|discriminate].
    apply parse_digits_nonneg in EP; [|lia].
    destruct (n <? 2 ^ 64); inversion EU. lia. }
  destruct (Ascii.eqb c "-"); cbn [negb andb].
  - destruct (Z.ltb_spec (2 ^ 63) un); intros E; inversion E. lia.
  - destruct (Z.leb_spec (2 ^ 63) un); intros E; inversion E. lia.
Qed.

Lemma FormatInt_nonempty (i : Z) : FormatInt i <> EmptyString.
Proof.
  unfold FormatInt. destruct (i <? 0) eqn:E; [discriminate|].
  apply Z.ltb_ge in E.
  destruct (format_uint_head 19 i EmptyString) as (d & rest & _ & ->);
    [lia | discriminate].
Qed.

End StrconvFacts.

(** ** strings *)

Module StringsFacts.
Import Strings.

Lemma Split_without_sep (sep : ascii) (s : string) :
  Forall (fun c => Ascii.eqb c sep = false) (list_ascii_of_string s) ->
  Split sep s = [s].
Proof.
  induction s as [|c s IH]; cbn [list_ascii_of_string Split]; intros H.
  - reflexivity.
  - apply List.Forall_cons_iff in H as (Hc & Hs).
    rewrite Hc, IH by assumption. reflexivity.
Qed.

Lemma list_ascii_append (s1 s2 : string) :
  list_ascii_of_string (s1 +:+ s2)
  = list_ascii_of_string s1 ++ list_ascii_of_string s2.
Proof.
  induction s1 as [|c s1 IH]; [reflexivity|].
  change (String c s1 +:+ s2) with (String c (s1 +:+ s2)).
  cbn [list_ascii_of_string]. now rewrite IH.
Qed.

Lemma append_nonempty_l (s1 s2 : string) :
  s1 <> EmptyString -> s1 +:+ s2 <> EmptyString.
Proof. destruct s1; [congruence | discriminate]. Qed.

End StringsFacts.

(** ** crypto/subtle: the comparison decides equality *)

Module SubtleFacts.
Import Int IntFacts Subtle.

Lemma byte_bits (a b : Z) :
  0 <= a < 256 -> 0 <= b < 256 ->
  0 <= Z.lor a b < 256 /\ 0 <= Z.lxor a b < 256.
Proof.
  intros Ha Hb.
  assert (Hlor : 0 <= Z.lor a b) by (apply Z.lor_nonneg; lia).
  assert (Hlxor : 0 <= Z.lxor a b) by (apply Z.lxor_nonneg; lia).
  assert (Hlog : forall x, 0 <= x < 256 -> x = 0 \/ Z.log2 x < 8).
  { intros x Hx. destruct (Z.eq_dec x 0); [now left | right].
    apply Z.log2_lt_pow2; lia. }
  assert (Hback : forall x, 0 <= x -> (x = 0 \/ Z.log2 x < 8) -> x < 256).
  { intros x Hx [->|Hl]; [lia|].
    destruct (Z.eq_dec x 0); [lia|].
    change 256 with (2 ^ 8). apply Z.log2_lt_pow2; lia. }
  pose proof (Z.log2_lor a b ltac:(lia) ltac:(lia)) as Hl1.
  pose proof (Z.log2_lxor a b ltac:(lia) ltac:(lia)) as Hl2.
  assert (La : Z.log2 a < 8).
  { destruct (Hlog a Ha) as [->|]; [cbn; lia | assumption]. }
  assert (Lb : Z.log2 b < 8).
  { destruct (Hlog b Hb) as [->|]; [cbn; lia | assumption]. }
  split; (split; [assumption|]); apply Hback; try assumption; right; lia.
Qed.

Lemma ConstantTimeByteEq_zero (v : Z) :
  0 <= v < 256 -> (ConstantTimeByteEq v 0 = 1 <-> v = 0).
Proof.
  intros Hv. unfold ConstantTimeByteEq, u32.
  rewrite Z.lxor_0_r.
  change 0xFFFFFFFF with (Z.ones 32).
  rewrite Z.land_ones, Z.shiftr_div_pow2 by lia.
  destruct (Z.eq_dec v 0) as [->|Hnz].
  - split; [reflexivity|]. intros _. reflexivity.
  - split; [|lia]. intros E. exfalso.
    rewrite Z.mod_small in E by lia.
    rewrite Z.div_small in E by lia. discriminate.
Qed.

Definition mix (v : Z) (xy : byte * byte) : Z :=
  Z.lor v (Z.lxor (Z_of_byte (fst xy)) (Z_of_byte (snd xy))).

Lemma Z_of_byte_inj (a b : byte) : Z_of_byte a = Z_of_byte b -> a = b.
Proof.
  intros E. rewrite <- (byte_of_Z_of_byte a), <- (byte_of_Z_of_byte b).
  now rewrite E.
Qed.

Lemma fold_mix (l : list (byte * byte)) :
  forall v, 0 <= v < 256 ->
  0 <= fold_left mix l v < 256 /\
  (fold_left mix l v = 0 <-> v = 0 /\ List.map fst l = List.map snd l).
Proof.
  induction l as [|[a b] l IH]; intros v Hv; cbn [fold_left List.map].
  - split; [assumption|]. tauto.
  - pose proof (Z_of_byte_range a) as Ha. pose proof (Z_of_byte_range b) as Hb.
    destruct (byte_bits _ _ Ha Hb) as (_ & Hx).
    destruct (byte_bits _ _ Hv Hx) as (Hm & _).
    destruct (IH (mix v (a, b)) Hm) as (Hr & Hiff).
    split; [assumption|].
    rewrite Hiff. unfold mix at 1. cbn [fst snd].
    rewrite Z.lor_eq_0_iff, Z.lxor_eq_0_iff.
    split.
    + intros ((Hv0 & E) & Hl). apply Z_of_byte_inj in E. subst.
      split; [reflexivity | now f_equal].
    + intros (Hv0 & Hl). injection Hl as -> Hl. tauto.
Qed.

Lemma map_fst_snd_combine {A : Type} (x y : list A) :
  length x = length y ->
  (List.map fst (combine x y) = List.map snd (combine x y) <-> x = y).
Proof.
  revert y. induction x as [|a x IH]; intros [|b y] Hlen;
    cbn in *; try discriminate.
  - tauto.
  - injection Hlen as Hlen. specialize (IH y Hlen). split.
    + intros E. injection E as -> E. f_equal. tauto.
    + intros E. injection E as -> ->. f_equal. tauto.
Qed.

(** [ConstantTimeCompare(x, y) == 1] exactly when the slices are equal. *)
Lemma ConstantTimeCompare_eq (x y : list byte) :
  ConstantTimeCompare x y = 1 <-> x = y.
Proof.
  unfold ConstantTimeCompare.
  destruct (Nat.eqb_spec (length x) (length y)) as [Hlen|Hlen]; cbn [negb].
  - fold mix.
    destruct (fold_mix (combine x y) 0 ltac:(lia)) as (Hr & Hiff).
    rewrite (ConstantTimeByteEq_zero _ Hr), Hiff.
    rewrite (map_fst_snd_combine x y Hlen). tauto.
  - split; [discriminate|]. intros ->. contradiction.
Qed.

End SubtleFacts.

(** ** float64: conversions of integers *)

Module Float64Facts.
Import Int IntFacts Float64.

(** Integers of magnitude up to [2^53] convert exactly. *)
Lemma round53_exact (x : Z) : Z.abs x <= 2 ^ 53 -> round53 x = x.
Proof.
  intros Hx. unfold round53.
  destruct (Z.ltb_spec (Z.abs x) (2 ^ 53)) as [|Hge]; [reflexivity|].
  assert (Ha : Z.abs x = 2 ^ 53) by lia.
  rewrite Ha. change (Z.log2 (2 ^ 53) - 52) with 1.
  change (2 ^ 53 / 2 ^ 1) with (2 ^ 52).
  change (2 ^ 53 mod 2 ^ 1) with 0.
  change (2 ^ (1 - 1)) with 1. cbn [Z.ltb Z.compare].
  change (2 ^ 52 * 2 ^ 1) with (2 ^ 53).
  rewrite <- Ha. rewrite Z.mul_comm. apply Z.abs_sgn.
Qed.

(** Larger ones stay at least that large. *)
Lemma round53_large (x : Z) :
  2 ^ 53 <= Z.abs x ->
  2 ^ 53 <= Z.abs (round53 x) /\ Z.sgn (round53 x) = Z.sgn x.
Proof.
  intros Hx. unfold round53.
  destruct (Z.ltb_spec (Z.abs x) (2 ^ 53)) as [|_]; [lia|].
  set (a := Z.abs x) in *.
  set (e := Z.log2 a - 52).
  assert (Hlog : 53 <= Z.log2 a).
  { apply Z.log2_le_pow2; lia. }
  assert (He : 1 <= e) by (unfold e; lia).
  assert (Hpe : 2 <= 2 ^ e).
  { change 2 with (2 ^ 1) at 1. apply Z.pow_le_mono_r; lia. }
  assert (Hq : 2 ^ 52 <= a / 2 ^ e).
  { apply Z.div_le_lower_bound; [lia|].
    rewrite Z.mul_comm, <- Z.pow_add_r by lia.
    replace (52 + e) with (Z.log2 a) by (unfold e; lia).
    apply Z.log2_spec. lia. }
  set (q := a / 2 ^ e) in *.
  set (q' := if a mod 2 ^ e <? 2 ^ (e - 1) then q
             else if 2 ^ (e - 1) <? a mod 2 ^ e then q + 1
             else if Z.even q then q else q + 1).
  assert (Hq' : 2 ^ 52 <= q').
  { unfold q'. repeat match goal with |- context [if ?c then _ else _] =>
      destruct c end; lia. }
  assert (Hprod : 2 ^ 53 <= q' * 2 ^ e).
  { change (2 ^ 53) with (2 ^ 52 * 2). apply Z.mul_le_mono_nonneg; lia. }
  assert (Hsx : x <> 0) by (unfold a in Hx; lia).
  rewrite Z.abs_mul, Z.sgn_mul.
  rewrite (Z.abs_eq (q' * 2 ^ e)) by lia.
  rewrite (Z.sgn_pos (q' * 2 ^ e)) by lia.
  split.
  - destruct (Z.sgn_spec x) as [(_ & ->)|[(? & _)|(_ & ->)]]; cbn; lia.
  - destruct (Z.sgn_spec x) as [(_ & ->)|[(? & _)|(_ & ->)]]; cbn; lia.
Qed.

(** The shape of [round53] on a large positive integer: the significand
    [q] has 53 bits and is rounded to [q] or [q + 1]. *)
Definition expo (x : Z) : Z := Z.log2 x - 52.

Definition nearest (q r half : Z) : Z :=
  if r <? half then q
  else if half <? r then q + 1
  else if Z.even q then q else q + 1.

Lemma round53_pos (x : Z) :
  2 ^ 53 <= x ->
  round53 x = nearest (x / 2 ^ expo x) (x mod 2 ^ expo x) (2 ^ (expo x - 1))
              * 2 ^ expo x.
Proof.
  intros Hx. unfold round53.
  rewrite (Z.abs_eq x) by lia.
  destruct (Z.ltb_spec x (2 ^ 53)); [lia|].
  rewrite (Z.sgn_pos x) by lia. rewrite Z.mul_1_l. reflexivity.
Qed.

Lemma expo_facts (x : Z) :
  2 ^ 53 <= x ->
  1 <= expo x /\ 2 ^ 52 <= x / 2 ^ expo x < 2 ^ 53 /\ 0 < 2 ^ expo x.
Proof.
  intros Hx. unfold expo.
  assert (Hlog : 53 <= Z.log2 x) by (apply Z.log2_le_pow2; lia).
  destruct (Z.log2_spec x ltac:(lia)) as (Hlo & Hhi).
  set (e := Z.log2 x - 52) in *.
  assert (Hpe : 0 < 2 ^ e) by (apply Z.pow_pos_nonneg; lia).
  assert (E1 : 2 ^ Z.log2 x = 2 ^ 52 * 2 ^ e).
  { rewrite <- Z.pow_add_r by lia. f_equal. unfold e. lia. }
  assert (E2 : 2 ^ Z.succ (Z.log2 x) = 2 ^ 53 * 2 ^ e).
  { rewrite <- Z.pow_add_r by lia. f_equal. unfold e. lia. }
  split; [lia|]. split; [|exact Hpe]. split.
  - apply Z.div_le_lower_bound; lia.
  - apply Z.div_lt_upper_bound; lia.
Qed.

Lemma nearest_bounds (q r half : Z) : q <= nearest q r half <= q + 1.
Proof.
  unfold nearest.
  repeat match goal with |- context [if ?c then _ else _] => destruct c end;
    lia.
Qed.

Lemma nearest_zero (q half : Z) : 0 < half -> nearest q 0 half = q.
Proof.
  intros H. unfold nearest. destruct (Z.ltb_spec 0 half); [reflexivity | lia].
Qed.

Lemma nearest_mono (q r1 r2 half : Z) :
  r1 <= r2 -> nearest q r1 half <= nearest q r2 half.
Proof.
  intros H. unfold nearest.
  destruct (Z.ltb_spec r1 half), (Z.ltb_spec r2 half),
           (Z.ltb_spec half r1), (Z.ltb_spec half r2),
           (Z.even q); lia.
Qed.

(** Rounding keeps the order of non-negative integers. *)
Lemma round53_mono (x y : Z) : 0 <= x <= y -> round53 x <= round53 y.
Proof.
  intros (Hx & Hxy).
  destruct (Z.lt_ge_cases y (2 ^ 53)) as [Hy|Hy].
  { rewrite !round53_exact by lia. exact Hxy. }
  destruct (round53_large y ltac:(lia)) as (Hbig & Hsgn).
  rewrite (Z.sgn_pos y) in Hsgn by lia. apply Z.sgn_pos_iff in Hsgn.
  destruct (Z.lt_ge_cases x (2 ^ 53)) as [Hx'|Hx'].
  { rewrite (round53_exact x) by lia. lia. }
  rewrite (round53_pos x Hx'), (round53_pos y Hy).
  destruct (expo_facts x Hx') as (Hex & (Hqx & Hqx') & Hpx).
  destruct (expo_facts y Hy) as (Hey & (Hqy & Hqy') & Hpy).
  pose proof (nearest_bounds (x / 2 ^ expo x) (x mod 2 ^ expo x)
                (2 ^ (expo x - 1))) as Hnx.
  pose proof (nearest_bounds (y / 2 ^ expo y) (y mod 2 ^ expo y)
                (2 ^ (expo y - 1))) as Hny.
  assert (Hle : expo x <= expo y).
  { unfold expo. pose proof (Z.log2_le_mono x y Hxy). lia. }
  destruct (Z.eq_dec (expo x) (expo y)) as [Ee|Ne].
  - rewrite Ee in *. set (p := 2 ^ expo y) in *.
    assert (Hq : x / p <= y / p) by (apply Z.div_le_mono; lia).
    destruct (Z.eq_dec (x / p) (y / p)) as [Eq|Nq].
    + rewrite Eq. apply Z.mul_le_mono_nonneg_r; [lia|].
      apply nearest_mono.
      pose proof (Z.div_mod x p ltac:(lia)).
      pose proof (Z.div_mod y p ltac:(lia)). nia.
    + apply Z.mul_le_mono_nonneg_r; lia.
  - assert (Hstep : 2 ^ expo x * 2 <= 2 ^ expo y).
    { replace (expo y) with (expo x + 1 + (expo y - expo x - 1)) by lia.
      rewrite !Z.pow_add_r by lia. rewrite Z.pow_1_r.
      assert (0 < 2 ^ (expo y - expo x - 1)) by (apply Z.pow_pos_nonneg; lia).
      nia. }
    apply Z.le_trans with (2 ^ 53 * 2 ^ expo x).
    + apply Z.mul_le_mono_nonneg_r; lia.
    + apply Z.le_trans with (2 ^ 52 * 2 ^ expo y).
      * change (2 ^ 53) with (2 ^ 52 * 2). nia.
      * apply Z.mul_le_mono_nonneg_r; lia.
Qed.

(** Between two representable bounds the rounded value stays. *)
Lemma round53_between (lo x hi : Z) :
  0 <= lo -> round53 lo = lo -> round53 hi = hi -> lo <= x <= hi ->
  lo <= round53 x <= hi.
Proof.
  intros Hlo Elo Ehi (H1 & H2). split.
  - rewrite <- Elo. apply round53_mono. lia.
  - rewrite <- Ehi. apply round53_mono. lia.
Qed.

(** The largest value of [float64(u)] below [2^63], for [u] an [Int63]. *)
Lemma round53_below_pow63 (u : Z) :
  0 <= u < 2 ^ 63 -> round53 u < 2 ^ 63 -> round53 u <= 2 ^ 63 - 1024.
Proof.
  intros Hu Hlt.
  destruct (Z.lt_ge_cases u (2 ^ 53)) as [Hs|Hl].
  { rewrite round53_exact by lia.
    change (2 ^ 53) with 9007199254740992 in Hs.
    change (2 ^ 63) with 9223372036854775808. lia. }
  rewrite (round53_pos u Hl) in *.
  destruct (expo_facts u Hl) as (He & (Hq & Hq') & Hp).
  pose proof (nearest_bounds (u / 2 ^ expo u) (u mod 2 ^ expo u)
                (2 ^ (expo u - 1))) as Hn.
  set (q' := nearest _ _ _) in *.
  assert (He' : expo u <= 10).
  { unfold expo. assert (Z.log2 u < 63) by (apply Z.log2_lt_pow2; lia). lia. }
  assert (HP : 2 ^ expo u <= 2 ^ 10) by (apply Z.pow_le_mono_r; lia).
  set (P := 2 ^ expo u) in *.
  change (2 ^ 10) with 1024 in HP.
  change (2 ^ 53) with 9007199254740992 in *.
  change (2 ^ 52) with 4503599627370496 in *.
  change (2 ^ 63) with 9223372036854775808 in *.
  nia.
Qed.

Lemma to_int64_id (f : Z) : in_int64 f -> to_int64 f = f.
Proof. intros H. unfold to_int64. now rewrite in_int64b_true. Qed.

End Float64Facts.

(** ** webhook.go *)

Module WebhookProps.
Import Int IntFacts Errors Webhook.

(** The observed drift [math.Abs(float64(now - ts))]. *)
Definition drift (now ts : Z) : Z :=
  Z.abs (Float64.round53 (wrap64 (now - ts))).

(** [diff > float64(toleranceSec)] *)
Definition outside (now ts toleranceSec : Z) : bool :=
  Float64.round53 toleranceSec <? drift now ts.

(** [VerifyWithTolerance] from the point where the three headers have
    been looked up. *)
Definition verifyFields (now : Z) (w : Webhook) (payload : list byte)
    (webhookID webhookTimestamp webhookSignature : string)
    (toleranceSec : Z) : option error :=
  if bool_decide (webhookID = EmptyString) then
    Some (WebhookVerificationError "missing webhook-id header")
  else if bool_decide (webhookTimestamp = EmptyString) then
    Some (WebhookVerificationError "missing webhook-timestamp header")
  else if bool_decide (webhookSignature = EmptyString) then
    Some (WebhookVerificationError "missing webhook-signature header")
  else
    match Strconv.ParseInt webhookTimestamp with
    | None => Some (WebhookVerificationError "invalid timestamp format")
    | Some ts =>
        if outside now ts toleranceSec then
          Some (WebhookVerificationError
                  (toleranceMessage (drift now ts) toleranceSec))
        else if (length (parseSignatures webhookSignature) =? 0)%nat then
          Some (WebhookVerificationError "no valid signatures found")
        else if matches
                  (sign w (signedContent webhookID webhookTimestamp payload))
                  (parseSignatures webhookSignature)
        then None
        else Some (WebhookVerificationError "signature verification failed")
    end.

(** The bytes the MAC is computed over. *)
Definition signedBytes (id timestamp : string) (payload : list byte) : list byte :=
  list_byte_of_string (signedContent id timestamp payload).

Definition mac (w : Webhook) (id timestamp : string) (payload : list byte)
  : list byte :=
  HMAC.Sum (secret w) (signedBytes id timestamp payload).

Section Lookup.
Variable lower : string -> string.

Let low (k : string) : string := Strings.ToLower lower k.

Definition lowered (headers : list (string * string)) : list string :=
  List.map (fun kv => low (fst kv)) headers.

Definition ins (m : gmap string string) (kv : string * string)
  : gmap string string :=
  <[low (fst kv) := snd kv]> m.

Lemma fold_ins_other (headers : list (string * string)) :
  forall (m : gmap string string) (key : string),
    ~ In key (lowered headers) ->
    fold_left ins headers m !! key = m !! key.
Proof.
  induction headers as [|[k v] hs IH]; intros m key Hnot;
    cbn [fold_left]; [reflexivity|].
  cbn [lowered List.map In fst] in Hnot.
  rewrite IH by tauto.
  unfold ins. cbn [fst snd]. apply lookup_insert_ne. tauto.
Qed.

Lemma fold_ins_entry (headers : list (string * string)) :
  forall (m : gmap string string) (k v : string),
    List.NoDup (lowered headers) -> In (k, v) headers ->
    fold_left ins headers m !! low k = Some v.
Proof.
  induction headers as [|[k0 v0] hs IH]; intros m k v Hnd Hin;
    [destruct Hin|].
  cbn [lowered List.map fst] in Hnd.
  apply List.NoDup_cons_iff in Hnd as (Hfresh & Hnd).
  cbn [fold_left]. destruct Hin as [E|Hin].
  - injection E as -> ->.
    rewrite fold_ins_other by assumption.
    unfold ins. cbn [fst snd]. apply lookup_insert_eq.
  - now apply IH.
Qed.

(** A header whose name, lower-cased, collides with no other one is
    found under the lower-cased name. *)
Lemma get_entry (headers : list (string * string)) (k v : string) :
  List.NoDup (lowered headers) -> In (k, v) headers ->
  get (normalizeHeaders lower headers) (low k) = v.
Proof.
  intros Hnd Hin. unfold get, normalizeHeaders.
  change (fold_left ins headers ∅ !! low k) with
    (fold_left ins headers (∅ : gmap string string) !! low k).
  rewrite (fold_ins_entry headers ∅ k v Hnd Hin). reflexivity.
Qed.

(** A name no header lower-cases to reads as the empty string. *)
Lemma get_absent (headers : list (string * string)) (key : string) :
  ~ In key (lowered headers) ->
  get (normalizeHeaders lower headers) key = EmptyString.
Proof.
  intros Hnot. unfold get, normalizeHeaders.
  change (fold_left _ headers ∅ !! key) with
    (fold_left ins headers (∅ : gmap string string) !! key).
  rewrite (fold_ins_other headers ∅ key Hnot), lookup_empty. reflexivity.
Qed.

(** Only the lower-cased names reach the normalized map. *)
Lemma normalizeHeaders_casing (h1 h2 : list (string * string)) :
  List.map (fun kv => (low (fst kv), snd kv)) h1
  = List.map (fun kv => (low (fst kv), snd kv)) h2 ->
  normalizeHeaders lower h1 = normalizeHeaders lower h2.
Proof.
  intros E.
  change (fold_left ins h1 (∅ : gmap string string) = fold_left ins h2 ∅).
  revert E. generalize (∅ : gmap string string).
  revert h2. induction h1 as [|kv1 h1 IH]; intros [|kv2 h2] m E;
    cbn [List.map] in E; try discriminate; [reflexivity|].
  injection E as Ek Ev E. cbn [fold_left].
  replace (ins m kv2) with (ins m kv1)
    by (unfold ins; now rewrite Ek, Ev).
  now apply IH.
Qed.

Lemma VerifyWithTolerance_fields (now : Z) (w : Webhook)
    (payload : list byte) (headers : list (string * string))
    (toleranceSec : Z) :
  VerifyWithTolerance lower now w payload headers toleranceSec
  = verifyFields now w payload
      (get (normalizeHeaders lower headers) "webhook-id")
      (get (normalizeHeaders lower headers) "webhook-timestamp")
      (get (normalizeHeaders lower headers) "webhook-signature")
      toleranceSec.
Proof. reflexivity. Qed.
End Lookup.

(** *** Parsing and matching signatures *)

Definition addSignature (sigs : list parsedSignature) (part : string)
  : list parsedSignature :=
  match Strings.SplitN2 "," part with
  | [v; s] => sigs ++ [mkSig v s]
  | _ => sigs
  end.

Lemma In_addSignature (parts : list string) :
  forall (acc : list parsedSignature) (sig : parsedSignature),
    In sig (fold_left addSignature parts acc) <->
    In sig acc \/
    exists part, In part parts /\
      Strings.SplitN2 "," part = [version sig; signature sig].
Proof.
  induction parts as [|p ps IH]; intros acc sig; cbn [fold_left].
  - split; [tauto|]. intros [H|(part & [] & _)]. exact H.
  - rewrite IH. unfold addSignature at 1, Strings.SplitN2 at 1.
    destruct (Strings.Cut "," p) as [[v s]|] eqn:EC.
    + rewrite List.in_app_iff. cbn [In]. split.
      * intros [[H|[<-|[]]]|(part & Hin & E)].
        -- now left.
        -- right. exists p. split; [now left|].
           unfold Strings.SplitN2. now rewrite EC.
        -- right. exists part. split; [now right | exact E].
      * intros [H|(part & [<-|Hin] & E)].
        -- left. now left.
        -- left. right. left. unfold Strings.SplitN2 in E. rewrite EC in E.
           injection E as -> ->. now destruct sig.
        -- right. exists part. tauto.
    + split.
      * intros [H|(part & Hin & E)]; [now left|].
        right. exists part. split; [now right | exact E].
      * intros [H|(part & [<-|Hin] & E)]; [now left | |].
        -- unfold Strings.SplitN2 in E. rewrite EC in E. discriminate.
        -- right. exists part. tauto.
Qed.

(** The entries of the signature header: the space-separated parts that
    contain a comma, cut at their first comma. *)
Lemma In_parseSignatures (header : string) (sig : parsedSignature) :
  In sig (parseSignatures header) <->
  exists part, In part (Strings.Split " " header) /\
    Strings.SplitN2 "," part = [version sig; signature sig].
Proof.
  change (parseSignatures header)
    with (fold_left addSignature (Strings.Split " " header) []).
  rewrite In_addSignature. cbn [In]. tauto.
Qed.

(** The loop accepts exactly when some [v1] entry decodes to the MAC. *)
Lemma matches_encoded (m : list byte) (sigs : list parsedSignature) :
  matches (Base64.EncodeToString m) sigs = true <->
  exists sig, In sig sigs /\ version sig = "v1" /\
    Base64.DecodeString (signature sig) = Some m.
Proof.
  induction sigs as [|sig rest IH]; cbn [matches In].
  - split; [discriminate | intros (sig & [] & _)].
  - rewrite Base64Facts.DecodeString_EncodeToString.
    assert (Hrest : matches (Base64.EncodeToString m) rest = true ->
              exists s, (sig = s \/ In s rest) /\ version s = "v1" /\
                Base64.DecodeString (signature s) = Some m).
    { intros H. apply IH in H as (s & Hin & Hs). exists s. tauto. }
    assert (Hhead : forall P : Prop,
              (version sig = "v1" ->
               Base64.DecodeString (signature sig) = Some m -> P) ->
              (matches (Base64.EncodeToString m) rest = true -> P) ->
              (exists s, (sig = s \/ In s rest) /\ version s = "v1" /\
                 Base64.DecodeString (signature s) = Some m) -> P).
    { intros P H1 H2 (s & [<-|Hin] & Hv & Hd); [now apply H1|].
      apply H2, IH. exists s. tauto. }
    case_bool_decide as Hv.
    + destruct (Base64.DecodeString (signature sig)) as [a|] eqn:Ed.
      * destruct (Nat.eqb_spec (length m) (length a)) as [Hl|Hl];
          cbn [andb].
        -- destruct (Z.eqb_spec (Subtle.ConstantTimeCompare m a) 1) as [Hc|Hc].
           ++ apply SubtleFacts.ConstantTimeCompare_eq in Hc as <-.
              split; [|reflexivity]. intros _. exists sig. tauto.
           ++ split; [exact Hrest|]. apply Hhead; [|tauto].
              intros _ E. injection E as ->. exfalso. apply Hc.
              now apply SubtleFacts.ConstantTimeCompare_eq.
        -- split; [exact Hrest|]. apply Hhead; [|tauto].
           intros _ E. injection E as ->. contradiction.
      * split; [exact Hrest|]. apply Hhead; [|tauto]. discriminate.
    + split; [exact Hrest|]. apply Hhead; [|tauto]. intros E. contradiction.
Qed.

Lemma no_space_encoded (src : list byte) :
  Forall (fun c => Ascii.eqb c " " = false)
         (list_ascii_of_string (Base64.EncodeToString src)).
Proof.
  eapply List.Forall_impl; [|apply Base64Facts.Forall_emitted_encode].
  intros c (_ & Hc). exact Hc.
Qed.

(** A header made of one entry [<tag>,<base64>] with a two-letter tag. *)
Definition tagged (c1 c2 : ascii) (encoded : string) : string :=
  String c1 (String c2 (String "," encoded)).

Definition plain (c : ascii) : Prop :=
  Ascii.eqb c " " = false /\ Ascii.eqb c "," = false.

Lemma parseSignatures_tagged (c1 c2 : ascii) (src : list byte) :
  plain c1 -> plain c2 ->
  parseSignatures (tagged c1 c2 (Base64.EncodeToString src))
  = [mkSig (String c1 (String c2 EmptyString)) (Base64.EncodeToString src)].
Proof.
  intros (S1 & C1) (S2 & C2). unfold parseSignatures.
  rewrite StringsFacts.Split_without_sep.
  - cbn [fold_left]. unfold Strings.SplitN2, tagged. cbn [Strings.Cut].
    rewrite C1, C2. reflexivity.
  - unfold tagged. cbn [list_ascii_of_string].
    repeat (apply List.Forall_cons; [first [assumption | reflexivity]|]).
    apply no_space_encoded.
Qed.

Lemma ParseInt_nonempty (s : string) (t : Z) :
  Strconv.ParseInt s = Some t -> s <> EmptyString.
Proof. intros H ->. discriminate. Qed.

(** Verifying, under [w'], one tagged signature made under [w]. *)
Lemma verifyFields_tagged (now toleranceSec : Z) (w w' : Webhook)
    (payload : list byte) (id ts : string) (t : Z) (c1 c2 : ascii) :
  id <> EmptyString -> Strconv.ParseInt ts = Some t ->
  outside now t toleranceSec = false ->
  plain c1 -> plain c2 ->
  verifyFields now w' payload id ts
    (tagged c1 c2 (sign w (signedContent id ts payload))) toleranceSec
  = if bool_decide (String c1 (String c2 EmptyString) = "v1"
                    /\ mac w' id ts payload = mac w id ts payload)
    then None
    else Some (WebhookVerificationError "signature verification failed").
Proof.
  intros Hid Hts Hout P1 P2. unfold verifyFields.
  rewrite (bool_decide_eq_false_2 _ Hid).
  rewrite (bool_decide_eq_false_2 _ (ParseInt_nonempty ts t Hts)).
  rewrite bool_decide_eq_false_2 by discriminate.
  rewrite Hts, Hout. unfold sign.
  rewrite parseSignatures_tagged by assumption.
  cbn [length Nat.eqb].
  match goal with |- (if ?b then _ else _) = _ => destruct b eqn:Em end.
  - apply matches_encoded in Em as (sig & [<-|[]] & Hv & Hd).
    cbn [version signature] in *.
    rewrite Base64Facts.DecodeString_EncodeToString in Hd.
    injection Hd as Hd.
    rewrite bool_decide_eq_true_2; [reflexivity|].
    split; [exact Hv | unfold mac, signedBytes; now rewrite Hd].
  - rewrite bool_decide_eq_false_2; [reflexivity|].
    intros (Hv & Hm). apply not_true_iff_false in Em. apply Em.
    apply matches_encoded. eexists. split; [now left|].
    cbn [version signature]. split; [exact Hv|].
    rewrite Base64Facts.DecodeString_EncodeToString.
    f_equal. symmetry. exact Hm.
Qed.

Section Generated.
Variable lower : string -> string.

(** The three lookups on a map with exactly the three headers, in
    whatever order its entries are visited. *)
Lemma get_three (headers : list (string * string)) (id ts sg : string) :
  Permutation headers
    [ ("webhook-id", id); ("webhook-timestamp", ts);
      ("webhook-signature", sg) ] ->
  get (normalizeHeaders lower headers) "webhook-id" = id /\
  get (normalizeHeaders lower headers) "webhook-timestamp" = ts /\
  get (normalizeHeaders lower headers) "webhook-signature" = sg.
Proof.
  intros Hperm.
  assert (Hnd : List.NoDup (lowered lower headers)).
  { eapply Permutation_NoDup.
    - apply Permutation_sym, Permutation_map, Hperm.
    - cbn. repeat constructor; cbn; intuition discriminate. }
  assert (Hin : forall kv,
            In kv [ ("webhook-id", id); ("webhook-timestamp", ts);
                    ("webhook-signature", sg) ] -> In kv headers).
  { intros kv. apply Permutation_in. now apply Permutation_sym. }
  repeat split.
  - apply (get_entry lower headers "webhook-id" id Hnd).
    apply Hin. cbn. tauto.
  - apply (get_entry lower headers "webhook-timestamp" ts Hnd).
    apply Hin. cbn. tauto.
  - apply (get_entry lower headers "webhook-signature" sg Hnd).
    apply Hin. cbn. tauto.
Qed.
End Generated.

Lemma plain_v : plain "v".
Proof. split; reflexivity. Qed.
Lemma plain_1 : plain "1".
Proof. split; reflexivity. Qed.
Lemma plain_2 : plain "2".
Proof. split; reflexivity. Qed.

Lemma outside_same_instant (now : Z) : outside now now defaultTolerance = false.
Proof.
  unfold outside, drift. rewrite Z.sub_diag. reflexivity.
Qed.

Lemma GenerateTestHeaders_shape (now : Z) (w : Webhook) (payload : list byte)
    (webhookID : string) :
  let id := if bool_decide (webhookID = EmptyString)
            then "msg_test" else webhookID in
  id <> EmptyString /\
  GenerateTestHeaders now w payload webhookID
  = [ ("webhook-id", id); ("webhook-timestamp", Strconv.FormatInt now);
      ("webhook-signature",
       tagged "v" "1" (sign w (signedContent id (Strconv.FormatInt now) payload))) ].
Proof.
  cbn zeta. split; [|reflexivity].
  case_bool_decide; [discriminate | assumption].
Qed.

(** *** The timestamp check *)

Lemma round53_below (x : Z) : x < 2 ^ 53 -> Float64.round53 x < 2 ^ 53.
Proof.
  intros Hx. destruct (Z.le_gt_cases (Z.abs x) (2 ^ 53)) as [Hs|Hl].
  - rewrite Float64Facts.round53_exact; lia.
  - destruct (Float64Facts.round53_large x ltac:(lia)) as (_ & Hsgn).
    assert (Hneg : x < 0) by lia.
    rewrite (Z.sgn_neg x Hneg) in Hsgn.
    apply Z.sgn_neg_iff in Hsgn. lia.
Qed.

(** For a clock reading at least [2^53] inside the range of [int64] and
    a tolerance below [2^53] the comparison in [float64] is the comparison
    of the integers. *)
Lemma outside_iff (now t toleranceSec : Z) :
  - (2 ^ 63 - 2 ^ 53) <= now <= 2 ^ 63 - 2 ^ 53 -> in_int64 t ->
  toleranceSec < 2 ^ 53 ->
  (outside now t toleranceSec = true <-> toleranceSec < Z.abs (now - t)) /\
  (Z.abs (now - t) <= 2 ^ 53 -> drift now t = Z.abs (now - t)).
Proof.
  unfold in_int64, min_int64, max_int64. intros Hnow Ht Htol.
  pose proof (round53_below toleranceSec Htol) as Hrt.
  unfold outside. rewrite Z.ltb_lt.
  destruct (Z.le_gt_cases (Z.abs (now - t)) (2 ^ 53)) as [Hs|Hl].
  - assert (Hd : drift now t = Z.abs (now - t)).
    { unfold drift. rewrite wrap64_id by (unfold in_int64, min_int64, max_int64; lia).
      now rewrite Float64Facts.round53_exact. }
    split; [|intros _; exact Hd]. rewrite Hd.
    destruct (Z.le_gt_cases (Z.abs toleranceSec) (2 ^ 53)) as [Hts|Htl].
    + rewrite Float64Facts.round53_exact by assumption. tauto.
    + destruct (Float64Facts.round53_large toleranceSec ltac:(lia)) as (_ & Hsgn).
      rewrite (Z.sgn_neg toleranceSec) in Hsgn by lia.
      apply Z.sgn_neg_iff in Hsgn. lia.
  - split; [|lia].
    assert (Hw : 2 ^ 53 <= Z.abs (wrap64 (now - t))).
    { unfold wrap64. Z.div_mod_to_equations. lia. }
    destruct (Float64Facts.round53_large _ Hw) as (Hbig & _).
    unfold drift. lia.
Qed.

(** *** Claims about verification *)

(** The payload [{"event":"test"}] of the example scenario. *)
Definition event_test : list byte :=
  list_byte_of_string "{" ++ [x22] ++ list_byte_of_string "event" ++ [x22]
  ++ list_byte_of_string ":" ++ [x22] ++ list_byte_of_string "test" ++ [x22]
  ++ list_byte_of_string "}".

(** The verifier [NewWebhook("dGVzdC1zZWNyZXQ=")] builds. *)
Definition test_secret : Webhook := mkWebhook (list_byte_of_string "test-secret").

Lemma in_int64_1700000000 : in_int64 1700000000.
Proof. unfold in_int64, min_int64, max_int64. lia. Qed.

(** Two keys of which the second is the first followed by zero bytes,
    the longer one no longer than the block of HMAC-SHA256. *)
Definition zero_extended (k k' : list byte) : Prop :=
  exists n : nat,
    k' = k ++ repeat x00 n /\ (length k' <= SHA256.BlockSize)%nat.

(** [hmac.New] extends both keys to the same block. *)
Lemma block_key_zero_extended (k k' : list byte) :
  zero_extended k k' -> HMAC.block_key k' = HMAC.block_key k.
Proof.
  intros (n & -> & Hlen). unfold HMAC.block_key.
  rewrite List.length_app, List.repeat_length in *.
  rewrite (proj2 (Nat.ltb_ge SHA256.BlockSize (length k + n))) by lia.
  rewrite (proj2 (Nat.ltb_ge SHA256.BlockSize (length k))) by lia.
  rewrite List.length_app, List.repeat_length, <- List.app_assoc.
  rewrite <- List.repeat_app. do 2 f_equal. lia.
Qed.

Lemma mac_zero_extended (w w' : Webhook) (id ts : string)
    (payload : list byte) :
  zero_extended (secret w) (secret w') \/ zero_extended (secret w') (secret w) ->
  mac w' id ts payload = mac w id ts payload.
Proof.
  intros H. unfold mac, HMAC.Sum.
  destruct H as [H|H]; apply block_key_zero_extended in H; now rewrite H.
Qed.

(** C1 (amended).  Headers produced by [GenerateTestHeaders(payload, id)]
    at clock reading [now] are accepted by [Verify(payload, headers)] at the
    same clock reading, for every payload, id and secret and in whatever
    order the map is ranged over.  More generally a [v1] signature made by
    [sign] over an id, a timestamp that is a decimal [int64] within
    tolerance and a payload verifies under the same secret when the id is
    not empty; with an empty id the result is "missing webhook-id header".
    A verifier built on another secret accepts the signature exactly when
    HMAC-SHA256 under the two keys agrees on the signed content, and
    rejects it with "signature verification failed" otherwise.  The two
    MACs agree whenever one key is the other followed by zero bytes and
    neither is longer than the 64-byte block. *)
Theorem C1_generated_headers_verify (lower : string -> string) (now : Z)
    (w w' : Webhook) (payload : list byte) (webhookID : string)
    (headers : list (string * string)) :
  in_int64 now ->
  Permutation headers (GenerateTestHeaders now w payload webhookID) ->
  let id := if bool_decide (webhookID = EmptyString)
            then "msg_test" else webhookID in
  let ts := Strconv.FormatInt now in
  let verdict (id ts : string) :=
    if bool_decide (mac w' id ts payload = mac w id ts payload) then None
    else Some (WebhookVerificationError "signature verification failed") in
  let missing := Some (WebhookVerificationError "missing webhook-id header") in
  Verify lower now w payload headers = None /\
  Verify lower now w' payload headers = verdict id ts /\
  (forall (now' toleranceSec : Z) (id' ts' : string) (t' : Z)
          (headers' : list (string * string)),
     Strconv.ParseInt ts' = Some t' ->
     outside now' t' toleranceSec = false ->
     Permutation headers'
       [ ("webhook-id", id'); ("webhook-timestamp", ts');
         ("webhook-signature",
          "v1," +:+ sign w (signedContent id' ts' payload)) ] ->
     VerifyWithTolerance lower now' w payload headers' toleranceSec
     = (if bool_decide (id' = EmptyString) then missing else None) /\
     VerifyWithTolerance lower now' w' payload headers' toleranceSec
     = (if bool_decide (id' = EmptyString) then missing
        else verdict id' ts')) /\
  (zero_extended (secret w) (secret w') \/
   zero_extended (secret w') (secret w) ->
   forall id' ts' : string,
     mac w' id' ts' payload = mac w id' ts' payload /\
     verdict id' ts' = None).
Proof.
  intros Hnow Hperm id ts verdict missing.
  assert (Hsigned :
    forall (v : Webhook) (now' toleranceSec : Z) (id' ts' : string) (t' : Z)
           (headers' : list (string * string)),
      id' <> EmptyString -> Strconv.ParseInt ts' = Some t' ->
      outside now' t' toleranceSec = false ->
      Permutation headers'
        [ ("webhook-id", id'); ("webhook-timestamp", ts');
          ("webhook-signature",
           tagged "v" "1" (sign w (signedContent id' ts' payload))) ] ->
      VerifyWithTolerance lower now' v payload headers' toleranceSec
      = if bool_decide (mac v id' ts' payload = mac w id' ts' payload)
        then None
        else Some (WebhookVerificationError "signature verification failed")).
  { intros v now' tol id' ts' t' headers' Hid' Hts' Hout' Hperm'.
    destruct (get_three lower headers' _ _ _ Hperm') as (G1 & G2 & G3).
    rewrite VerifyWithTolerance_fields, G1, G2, G3.
    rewrite (verifyFields_tagged now' tol w v payload id' ts' t')
      by auto using plain_v, plain_1.
    destruct (decide (mac v id' ts' payload = mac w id' ts' payload)) as [E|E].
    - rewrite !bool_decide_eq_true_2; tauto.
    - rewrite !bool_decide_eq_false_2; tauto. }
  assert (Hempty :
    forall (v : Webhook) (now' toleranceSec : Z) (ts' sg : string)
           (headers' : list (string * string)),
      Permutation headers'
        [ ("webhook-id", EmptyString); ("webhook-timestamp", ts');
          ("webhook-signature", sg) ] ->
      VerifyWithTolerance lower now' v payload headers' toleranceSec
      = missing).
  { intros v now' tol ts' sg headers' Hperm'.
    destruct (get_three lower headers' _ _ _ Hperm') as (G1 & _).
    rewrite VerifyWithTolerance_fields, G1. reflexivity. }
  assert (Hself : forall id' ts',
            bool_decide (mac w id' ts' payload = mac w id' ts' payload) = true).
  { intros id' ts'. now apply bool_decide_eq_true_2. }
  destruct (GenerateTestHeaders_shape now w payload webhookID) as (Hid & Hshape).
  fold id ts in Hid, Hshape. rewrite Hshape in Hperm.
  pose proof (StrconvFacts.ParseInt_FormatInt now Hnow) as Hparse.
  fold ts in Hparse.
  split; [|split; [|split]].
  - unfold Verify.
    rewrite (Hsigned w now defaultTolerance id ts now headers)
      by auto using outside_same_instant.
    now rewrite Hself.
  - unfold Verify.
    now rewrite (Hsigned w' now defaultTolerance id ts now headers)
      by auto using outside_same_instant.
  - intros now' tol id' ts' t' headers' Hts' Hout' Hperm'.
    case_bool_decide as Hid'.
    + subst id'. split; eapply Hempty; exact Hperm'.
    + split.
      * rewrite (Hsigned w now' tol id' ts' t' headers') by assumption.
        now rewrite Hself.
      * now rewrite (Hsigned w' now' tol id' ts' t' headers') by assumption.
  - intros Hkeys id' ts'.
    pose proof (mac_zero_extended w w' id' ts' payload Hkeys) as E.
    split; [exact E|]. unfold verdict. now rewrite bool_decide_eq_true_2.
Qed.

Lemma C1_generated_headers_verify_witness :
  Verify (fun s => s) 1700000000 test_secret event_test
    (GenerateTestHeaders 1700000000 test_secret event_test "msg_1") = None /\
  Verify (fun s => s) 1700000000 (mkWebhook (list_byte_of_string "other")) event_test
    (GenerateTestHeaders 1700000000 test_secret event_test "msg_1")
  = Some (WebhookVerificationError "signature verification failed") /\
  mac (mkWebhook [x61; x00]) "msg_1" "1700000000" event_test
  = mac (mkWebhook [x61]) "msg_1" "1700000000" event_test.
Proof.
  destruct (C1_generated_headers_verify (fun s => s) 1700000000 test_secret
              (mkWebhook (list_byte_of_string "other")) event_test "msg_1"
              _ in_int64_1700000000 (Permutation_refl _)) as (H1 & H2 & _).
  split; [exact H1|]. split; [rewrite H2; vm_compute; reflexivity|].
  assert (Hkeys : zero_extended [x61] [x61; x00]).
  { exists 1%nat. split; [reflexivity|]. cbn. unfold SHA256.BlockSize. lia. }
  destruct (C1_generated_headers_verify (fun s => s) 1700000000
              (mkWebhook [x61]) (mkWebhook [x61; x00]) event_test "msg_1"
              _ in_int64_1700000000 (Permutation_refl _)) as (_ & _ & _ & H4).
  exact (proj1 (H4 (or_introl Hkeys) "msg_1" "1700000000")).
Defined.

(** C1 (as stated) fails: the secrets [YQ==] and [YQA=] decode to the keys
    [a] and [a\0], which HMAC pads to the same block, so headers signed
    under the second verify under the first. *)
Lemma C1_changed_secret_still_verifies :
  NewWebhook "YQ==" = Some (mkWebhook [x61]) /\
  NewWebhook "YQA=" = Some (mkWebhook [x61; x00]) /\
  mkWebhook [x61] <> mkWebhook [x61; x00] /\
  Verify (fun s => s) 1700000000 (mkWebhook [x61]) event_test
    (GenerateTestHeaders 1700000000 (mkWebhook [x61; x00]) event_test "msg_1")
  = None.
Proof.
  split; [vm_compute; reflexivity|].
  split; [vm_compute; reflexivity|].
  split; [discriminate|].
  vm_compute. reflexivity.
Qed.

(** C2.  Once the three headers are present, the timestamp parses and
    lies within tolerance, [VerifyWithTolerance] signs the literal
    string [id.timestamp.payload] (the timestamp header verbatim) as
    [base64(HMAC-SHA256(secret, content))] and returns nil if and only if
    some space-separated part of the signature header, cut at its first
    comma, has version [v1] and a signature that base64-decodes to that
    MAC; any such part will do, wherever it stands.  The comparison is
    [subtle.ConstantTimeCompare]. *)
Theorem C2_signature_acceptance (lower : string -> string) (now : Z)
    (w : Webhook) (payload : list byte) (headers : list (string * string))
    (toleranceSec : Z) (id ts sg : string) (t : Z) :
  get (normalizeHeaders lower headers) "webhook-id" = id ->
  get (normalizeHeaders lower headers) "webhook-timestamp" = ts ->
  get (normalizeHeaders lower headers) "webhook-signature" = sg ->
  id <> EmptyString -> sg <> EmptyString ->
  Strconv.ParseInt ts = Some t ->
  outside now t toleranceSec = false ->
  let content := id +:+ "." +:+ ts +:+ "." +:+ string_of_list_byte payload in
  let expected := HMAC.Sum (secret w) (list_byte_of_string content) in
  sign w content = Base64.EncodeToString expected /\
  (VerifyWithTolerance lower now w payload headers toleranceSec = None <->
   exists part signature,
     In part (Strings.Split " " sg) /\
     Strings.SplitN2 "," part = ["v1"; signature] /\
     exists actual,
       Base64.DecodeString signature = Some actual /\
       Subtle.ConstantTimeCompare expected actual = 1 /\
       actual = expected).
Proof.
  intros G1 G2 G3 Hid Hsg Hts Hout content expected.
  split; [reflexivity|].
  rewrite VerifyWithTolerance_fields, G1, G2, G3. unfold verifyFields.
  rewrite (bool_decide_eq_false_2 _ Hid).
  rewrite (bool_decide_eq_false_2 _ (ParseInt_nonempty ts t Hts)).
  rewrite (bool_decide_eq_false_2 _ Hsg).
  rewrite Hts, Hout.
  change (sign w (signedContent id ts payload))
    with (Base64.EncodeToString expected).
  assert (Hiff : matches (Base64.EncodeToString expected) (parseSignatures sg) = true
                 <-> exists part signature,
                       In part (Strings.Split " " sg) /\
                       Strings.SplitN2 "," part = ["v1"; signature] /\
                       exists actual,
                         Base64.DecodeString signature = Some actual /\
                         Subtle.ConstantTimeCompare expected actual = 1 /\
                         actual = expected).
  { rewrite matches_encoded. split.
    - intros (sig & Hin & Hv & Hd).
      apply In_parseSignatures in Hin as (part & Hpart & Hcut).
      exists part, (signature sig). rewrite Hv in Hcut.
      repeat split; try assumption.
      exists expected. repeat split; [assumption|].
      now apply SubtleFacts.ConstantTimeCompare_eq.
    - intros (part & sgn & Hpart & Hcut & actual & Hd & _ & ->).
      exists (mkSig "v1" sgn). cbn [version signature].
      repeat split; try assumption.
      apply In_parseSignatures. exists part. tauto. }
  destruct (parseSignatures sg) as [|sig sigs] eqn:Eparse.
  - cbn [length Nat.eqb]. split; [discriminate|].
    intros H. apply Hiff in H. discriminate.
  - cbn [length Nat.eqb].
    destruct (matches (Base64.EncodeToString expected) (sig :: sigs)).
    + split; [intros _; now apply Hiff | reflexivity].
    + split; [discriminate|]. intros H. apply Hiff in H. discriminate.
Qed.

(** A header whose second entry is the valid one. *)
Definition two_entries : list (string * string) :=
  [ ("webhook-id", "msg_1"); ("webhook-timestamp", "1700000000");
    ("webhook-signature",
     "v1,AAAA v1,T2HuAfQRj+Nqk2rvM7aXwt+7Dy5ClYJcv3ho3mpa1Bs=") ].

Lemma C2_signature_acceptance_witness :
  VerifyWithTolerance (fun s => s) 1700000010 test_secret event_test
    two_entries 300 = None /\
  exists part signature,
    In part (Strings.Split " "
               "v1,AAAA v1,T2HuAfQRj+Nqk2rvM7aXwt+7Dy5ClYJcv3ho3mpa1Bs=") /\
    Strings.SplitN2 "," part = ["v1"; signature] /\
    Base64.DecodeString signature
    = Some (mac test_secret "msg_1" "1700000000" event_test).
Proof.
  assert (G1 : get (normalizeHeaders (fun s => s) two_entries) "webhook-id"
               = "msg_1") by (vm_compute; reflexivity).
  assert (G2 : get (normalizeHeaders (fun s => s) two_entries)
                 "webhook-timestamp" = "1700000000")
    by (vm_compute; reflexivity).
  assert (G3 : get (normalizeHeaders (fun s => s) two_entries)
                 "webhook-signature"
               = "v1,AAAA v1,T2HuAfQRj+Nqk2rvM7aXwt+7Dy5ClYJcv3ho3mpa1Bs=")
    by (vm_compute; reflexivity).
  assert (Hid : "msg_1" <> EmptyString) by discriminate.
  assert (Hsg : "v1,AAAA v1,T2HuAfQRj+Nqk2rvM7aXwt+7Dy5ClYJcv3ho3mpa1Bs="
                <> EmptyString) by discriminate.
  assert (Hts : Strconv.ParseInt "1700000000" = Some 1700000000)
    by (vm_compute; reflexivity).
  assert (Hout : outside 1700000010 1700000000 300 = false)
    by (vm_compute; reflexivity).
  pose proof (C2_signature_acceptance (fun s => s) 1700000010 test_secret
                event_test two_entries 300 "msg_1" "1700000000"
                "v1,AAAA v1,T2HuAfQRj+Nqk2rvM7aXwt+7Dy5ClYJcv3ho3mpa1Bs="
                1700000000 G1 G2 G3 Hid Hsg Hts Hout) as H.
  cbv zeta in H. destruct H as (_ & Hiff).
  assert (Hok : VerifyWithTolerance (fun s => s) 1700000010 test_secret
                  event_test two_entries 300 = None)
    by (vm_compute; reflexivity).
  split; [exact Hok|].
  destruct (proj1 Hiff Hok)
    as (part & signature & Hin & Hcut & actual & Hd & _ & ->).
  exists part, signature. auto.
Defined.

(** What acceptance at one instant says about the headers. *)
Lemma verifyFields_accept (now toleranceSec : Z) (w : Webhook)
    (payload : list byte) (id ts sg : string) :
  verifyFields now w payload id ts sg toleranceSec = None ->
  exists t, Strconv.ParseInt ts = Some t /\
    forall now' tol',
      verifyFields now' w payload id ts sg tol'
      = if outside now' t tol'
        then Some (WebhookVerificationError
                     (toleranceMessage (drift now' t) tol'))
        else None.
Proof.
  unfold verifyFields.
  destruct (bool_decide (id = EmptyString)); [discriminate|].
  destruct (bool_decide (ts = EmptyString)); [discriminate|].
  destruct (bool_decide (sg = EmptyString)); [discriminate|].
  destruct (Strconv.ParseInt ts) as [t|]; [|discriminate].
  destruct (outside now t toleranceSec); [discriminate|].
  destruct (length (parseSignatures sg) =? 0)%nat; [discriminate|].
  destruct (matches _ _); [|discriminate].
  intros _. exists t. split; [reflexivity|]. intros now' tol'.
  reflexivity.
Qed.

(** C3 (amended).  Take a payload and headers that verify at some
    instant.  At a clock reading [now] at least [2^53] seconds inside the
    range of [int64] and for a tolerance below [2^53],
    [VerifyWithTolerance] returns nil when
    [|now - timestamp| <= toleranceSec] and otherwise, whether the
    timestamp lies in the past or in the future, the error
    "timestamp outside tolerance (<drift>s > <toleranceSec>s)", whose
    drift is [|now - timestamp|] itself up to [2^53]. *)
Theorem C3_timestamp_tolerance (lower : string -> string)
    (now0 tol0 now toleranceSec : Z) (w : Webhook) (payload : list byte)
    (headers : list (string * string)) :
  VerifyWithTolerance lower now0 w payload headers tol0 = None ->
  - (2 ^ 63 - 2 ^ 53) <= now <= 2 ^ 63 - 2 ^ 53 ->
  toleranceSec < 2 ^ 53 ->
  exists t,
    Strconv.ParseInt
      (get (normalizeHeaders lower headers) "webhook-timestamp") = Some t /\
    (Z.abs (now - t) <= toleranceSec ->
     VerifyWithTolerance lower now w payload headers toleranceSec = None) /\
    (toleranceSec < Z.abs (now - t) ->
     VerifyWithTolerance lower now w payload headers toleranceSec
     = Some (WebhookVerificationError
               (toleranceMessage (drift now t) toleranceSec)) /\
     (Z.abs (now - t) <= 2 ^ 53 ->
      toleranceMessage (drift now t) toleranceSec
      = "timestamp outside tolerance ("
          +:+ Strconv.FormatInt (Z.abs (now - t)) +:+ "s > "
          +:+ Strconv.FormatInt toleranceSec +:+ "s)")).
Proof.
  intros Hok Hnow Htol. rewrite VerifyWithTolerance_fields in Hok.
  apply verifyFields_accept in Hok as (t & Hts & Hany).
  exists t. split; [exact Hts|].
  pose proof (StrconvFacts.ParseInt_range _ _ Hts) as Ht.
  destruct (outside_iff now t toleranceSec Hnow Ht Htol) as (Hiff & Hexact).
  rewrite !VerifyWithTolerance_fields, Hany.
  split.
  - intros Hin. destruct (outside now t toleranceSec); [|reflexivity].
    exfalso. destruct Hiff as (Hgt & _). specialize (Hgt eq_refl). lia.
  - intros Hout. rewrite (proj2 Hiff Hout). split; [reflexivity|].
    intros Hsmall. unfold toleranceMessage.
    rewrite (Hexact Hsmall).
    rewrite Float64Facts.to_int64_id; [reflexivity|].
    unfold in_int64, min_int64, max_int64. lia.
Qed.

Lemma C3_timestamp_tolerance_witness :
  VerifyWithTolerance (fun s => s) 1700000300 test_secret event_test
    two_entries 300 = None /\
  VerifyWithTolerance (fun s => s) 1700000301 test_secret event_test
    two_entries 300
  = Some (WebhookVerificationError "timestamp outside tolerance (301s > 300s)") /\
  VerifyWithTolerance (fun s => s) 1699999699 test_secret event_test
    two_entries 300
  = Some (WebhookVerificationError "timestamp outside tolerance (301s > 300s)").
Proof.
  assert (Hok : VerifyWithTolerance (fun s => s) 1700000010 test_secret
                  event_test two_entries 300 = None)
    by (vm_compute; reflexivity).
  assert (Htol : 300 < 2 ^ 53) by lia.
  destruct (C3_timestamp_tolerance (fun s => s) 1700000010 300 1700000300 300
              test_secret event_test two_entries Hok ltac:(lia) Htol)
    as (t1 & Ht1 & Hin1 & _).
  destruct (C3_timestamp_tolerance (fun s => s) 1700000010 300 1700000301 300
              test_secret event_test two_entries Hok ltac:(lia) Htol)
    as (t2 & Ht2 & _ & Hout2).
  destruct (C3_timestamp_tolerance (fun s => s) 1700000010 300 1699999699 300
              test_secret event_test two_entries Hok ltac:(lia) Htol)
    as (t3 & Ht3 & _ & Hout3).
  vm_compute in Ht1, Ht2, Ht3.
  injection Ht1 as <-. injection Ht2 as <-. injection Ht3 as <-.
  split; [apply Hin1; lia|].
  split.
  - destruct (Hout2 ltac:(lia)) as (-> & _). vm_compute. reflexivity.
  - destruct (Hout3 ltac:(lia)) as (-> & _). vm_compute. reflexivity.
Defined.

(** C3 (as stated) fails at the far ends of the integer types.  For a
    tolerance of [2^53] seconds a drift of [2^53 + 1] becomes [2^53] in
    [float64] and is not rejected; and at the last clock reading of
    [int64] the difference to the first one wraps around to [-1], within
    any tolerance. *)
Lemma C3_drift_beyond_tolerance_accepted :
  let signed (timestamp : string) :=
    [ ("webhook-id", "msg_1"); ("webhook-timestamp", timestamp);
      ("webhook-signature",
       "v1," +:+ sign test_secret
                  (signedContent "msg_1" timestamp event_test)) ] in
  (Strconv.ParseInt "-9007197554740993" = Some (-9007197554740993) /\
   9007199254740992 < Z.abs (1700000000 - -9007197554740993) /\
   VerifyWithTolerance (fun s => s) 1700000000 test_secret event_test
     (signed "-9007197554740993") 9007199254740992 = None) /\
  (Strconv.ParseInt "-9223372036854775808" = Some min_int64 /\
   300 < Z.abs (max_int64 - min_int64) /\
   VerifyWithTolerance (fun s => s) max_int64 test_secret event_test
     (signed "-9223372036854775808") 300 = None).
Proof.
  cbv zeta. repeat split; try (vm_compute; reflexivity).
Qed.

(** C4.  With no two header names equal up to case: when no header is
    named [webhook-id], [Verify] fails with "missing webhook-id header";
    when that one carries a value and none is named [webhook-timestamp],
    with "missing webhook-timestamp header"; when both carry a value and
    none is named [webhook-signature], with "missing webhook-signature
    header".  Names are compared after lower-casing: a header is found
    under its lower-cased name, and re-casing the names of a header map
    leaves the result of verification unchanged. *)
Theorem C4_missing_headers (lower : string -> string) (now : Z) (w : Webhook)
    (payload : list byte) (headers : list (string * string)) :
  List.NoDup (lowered lower headers) ->
  let named (name : string) := In name (lowered lower headers) in
  let carried (name : string) :=
    exists k v, In (k, v) headers /\ Strings.ToLower lower k = name
                /\ v <> EmptyString in
  (~ named "webhook-id" ->
   Verify lower now w payload headers
   = Some (WebhookVerificationError "missing webhook-id header")) /\
  (carried "webhook-id" -> ~ named "webhook-timestamp" ->
   Verify lower now w payload headers
   = Some (WebhookVerificationError "missing webhook-timestamp header")) /\
  (carried "webhook-id" -> carried "webhook-timestamp" ->
   ~ named "webhook-signature" ->
   Verify lower now w payload headers
   = Some (WebhookVerificationError "missing webhook-signature header")) /\
  (forall k v, In (k, v) headers ->
     get (normalizeHeaders lower headers) (Strings.ToLower lower k) = v) /\
  (forall headers',
     List.map (fun kv => (Strings.ToLower lower (fst kv), snd kv)) headers'
     = List.map (fun kv => (Strings.ToLower lower (fst kv), snd kv)) headers ->
     Verify lower now w payload headers' = Verify lower now w payload headers).
Proof.
  intros Hnd named carried.
  assert (Hget : forall name, carried name ->
            get (normalizeHeaders lower headers) name <> EmptyString).
  { intros name (k & v & Hin & <- & Hv).
    now rewrite (get_entry lower headers k v Hnd Hin). }
  unfold Verify. rewrite VerifyWithTolerance_fields. unfold verifyFields.
  split; [|split; [|split; [|split]]].
  - intros Hid. now rewrite (get_absent lower headers _ Hid).
  - intros Hid Hts.
    rewrite (bool_decide_eq_false_2 _ (Hget _ Hid)).
    now rewrite (get_absent lower headers _ Hts).
  - intros Hid Hts Hsg.
    rewrite (bool_decide_eq_false_2 _ (Hget _ Hid)).
    rewrite (bool_decide_eq_false_2 _ (Hget _ Hts)).
    now rewrite (get_absent lower headers _ Hsg).
  - intros k v Hin. now apply get_entry.
  - intros headers' E. rewrite VerifyWithTolerance_fields.
    now rewrite (normalizeHeaders_casing lower headers' headers E).
Qed.

Lemma C4_missing_headers_witness :
  Verify (fun s => s) 1700000000 test_secret event_test
    [ ("Webhook-Id", "msg_1"); ("WEBHOOK-TIMESTAMP", "1700000000") ]
  = Some (WebhookVerificationError "missing webhook-signature header").
Proof.
  assert (Hnd : List.NoDup (lowered (fun s => s)
            [ ("Webhook-Id", "msg_1"); ("WEBHOOK-TIMESTAMP", "1700000000") ])).
  { vm_compute. repeat constructor; cbn; intuition discriminate. }
  destruct (C4_missing_headers (fun s => s) 1700000000 test_secret event_test
              [ ("Webhook-Id", "msg_1"); ("WEBHOOK-TIMESTAMP", "1700000000") ]
              Hnd) as (_ & _ & Hsig & _).
  apply Hsig.
  - exists "Webhook-Id", "msg_1". vm_compute. intuition discriminate.
  - exists "WEBHOOK-TIMESTAMP", "1700000000". vm_compute. intuition discriminate.
  - vm_compute. intuition discriminate.
Defined.

(** C9.  For the secret [dGVzdC1zZWNyZXQ=], the payload
    [{"event":"test"}] and the id [msg_1], generated headers verify; with
    the version token [v1] of the signature header replaced by [v2] and
    the HMAC kept, [Verify] rejects although the MAC is the right one: no
    entry of the header carries a known version, and the failure is the
    [WebhookVerificationError] "signature verification failed" with which
    the loop over the entries ends when none of them is accepted. *)
Theorem C9_version_token (lower : string -> string) (now : Z)
    (headers headers2 : list (string * string)) :
  in_int64 now ->
  Permutation headers (GenerateTestHeaders now test_secret event_test "msg_1") ->
  Permutation headers2
    [ ("webhook-id", "msg_1"); ("webhook-timestamp", Strconv.FormatInt now);
      ("webhook-signature",
       "v2," +:+ sign test_secret
                  (signedContent "msg_1" (Strconv.FormatInt now) event_test)) ] ->
  NewWebhook "dGVzdC1zZWNyZXQ=" = Some test_secret /\
  Verify lower now test_secret event_test headers = None /\
  Verify lower now test_secret event_test headers2
  = Some (WebhookVerificationError "signature verification failed").
Proof.
  intros Hnow Hperm Hperm2.
  split; [vm_compute; reflexivity|]. split.
  - destruct (GenerateTestHeaders_shape now test_secret event_test "msg_1")
      as (Hid & Hshape).
    rewrite Hshape in Hperm.
    destruct (get_three lower headers _ _ _ Hperm) as (G1 & G2 & G3).
    unfold Verify. rewrite VerifyWithTolerance_fields, G1, G2, G3.
    rewrite (verifyFields_tagged now defaultTolerance test_secret test_secret
               event_test _ _ now)
      by auto using outside_same_instant, plain_v, plain_1,
                    StrconvFacts.ParseInt_FormatInt.
    rewrite bool_decide_eq_true_2; [reflexivity|]. split; reflexivity.
  - destruct (get_three lower headers2 _ _ _ Hperm2) as (G1 & G2 & G3).
    unfold Verify. rewrite VerifyWithTolerance_fields, G1, G2, G3.
    change ("v2," +:+ ?x) with (tagged "v" "2" x).
    rewrite (verifyFields_tagged now defaultTolerance test_secret test_secret
               event_test "msg_1" _ now)
      by (auto using outside_same_instant, plain_v, plain_2,
                     StrconvFacts.ParseInt_FormatInt; discriminate).
    rewrite bool_decide_eq_false_2; [reflexivity|].
    intros (E & _). discriminate.
Qed.

Lemma C9_version_token_witness :
  Verify (fun s => s) 1700000000 test_secret event_test
    [ ("webhook-id", "msg_1"); ("webhook-timestamp", "1700000000");
      ("webhook-signature", "v1,T2HuAfQRj+Nqk2rvM7aXwt+7Dy5ClYJcv3ho3mpa1Bs=") ]
  = None /\
  Verify (fun s => s) 1700000000 test_secret event_test
    [ ("webhook-id", "msg_1"); ("webhook-timestamp", "1700000000");
      ("webhook-signature", "v2,T2HuAfQRj+Nqk2rvM7aXwt+7Dy5ClYJcv3ho3mpa1Bs=") ]
  = Some (WebhookVerificationError "signature verification failed").
Proof.
  refine (proj2 (C9_version_token (fun s => s) 1700000000 _ _
                   in_int64_1700000000 _ _)).
  - vm_compute. apply Permutation_refl.
  - vm_compute. apply Permutation_refl.
Defined.

(** C10.  [NewWebhook] panics exactly on the empty string.
    [NewWebhook("whsec_")] does not: the prefix is stripped after the
    check, the empty remainder decodes to no bytes, and the verifier signs
    with the empty HMAC key. *)
Theorem C10_empty_secret_panics :
  (forall secret : string, NewWebhook secret = None <-> secret = EmptyString) /\
  NewWebhook "whsec_" = Some (mkWebhook []) /\
  (forall content : string,
     sign (mkWebhook []) content
     = Base64.EncodeToString (HMAC.Sum [] (list_byte_of_string content))).
Proof.
  split; [|split; [vm_compute; reflexivity | reflexivity]].
  intros s. unfold NewWebhook. case_bool_decide as E.
  - tauto.
  - split; [discriminate | contradiction].
Qed.

End WebhookProps.

(** ** hookbase.go: the retry loop *)

Module TransportProps.
Import Int IntFacts Errors Transport.

(** The [base] value of [mapError]. *)
Definition errorBase (decode_errBody : list byte -> errBody) (status : Z)
    (body : list byte) (requestID : string) : APIError :=
  let eb := decode_errBody body in
  let msg := Error_Message eb in
  let msg := if bool_decide (msg = EmptyString) then Top_Message eb else msg in
  let msg := if bool_decide (msg = EmptyString)
             then "API error: " +:+ Strconv.FormatInt status else msg in
  let code := Error_Code eb in
  let code := if bool_decide (code = EmptyString) then Top_Code eb else code in
  let code := if bool_decide (code = EmptyString)
              then "unknown_error" else code in
  mkAPIError msg status code requestID.

(** [RetryAfter] as [mapError] reads it from the response headers. *)
Definition retryAfterOf (headers : gmap string string) : Z :=
  match Strconv.Atoi (Header_Get headers "Retry-After") with
  | Some v => v
  | None => 60
  end.

Section Loop.
Variable decode_errBody : list byte -> errBody.
Variable newRequest_err : string -> string -> option string.
Variable httpClient_Do : Z -> Z -> Exchange.
Variable rand_Int63 : Z -> Z.
Variable t : transport.
Variable ctx : Context.
Variable method u : string.
Variable body : Payload.
Variable out : option (list byte -> option string).
Variable rc : requestConfig.
Variable m : Z.

Local Abbreviation run_loop :=
  (loop decode_errBody newRequest_err httpClient_Do rand_Int63
        t ctx method u body out rc m).
Local Abbreviation req := (buildRequest t method u body rc).
Local Abbreviation classify := (mapError decode_errBody).

(** The run once [httpClient.Do] has returned for this attempt. *)
Definition exchanged (attempt : Z) (r : Run) : Run :=
  mkRun (clock r + elapsed (httpClient_Do attempt (clock r)))
        (trace r ++ [Dispatch attempt req]).

Lemma mapError_kind (status : Z) (b : list byte) (rid : string)
    (h : gmap string string) :
  classify status b rid h
  = let base := errorBase decode_errBody status b rid in
    if status =? 401 then AuthenticationError base
    else if status =? 403 then ForbiddenError base
    else if status =? 404 then NotFoundError base
    else if (status =? 400) || (status =? 422) then
      ValidationError base (Error_ValidationErrors (decode_errBody b))
    else if status =? 429 then RateLimitError base (retryAfterOf h)
    else GenericAPIError base.
Proof.
  unfold mapError, retryAfterOf, errorBase. cbv zeta.
  repeat match goal with |- (if ?c then _ else _) = (if ?c then _ else _) =>
    destruct c; [reflexivity|] end.
  destruct (status =? 429); [|reflexivity].
  f_equal. case_bool_decide as E; [|reflexivity].
  rewrite E. reflexivity.
Qed.

Hypothesis request_built : newRequest_err method u = None.


(** A status [mapError] leaves to the default case. *)
Definition generic (status : Z) : Prop :=
  ~ 200 <= status < 300 /\ ~ In status [401; 403; 404; 400; 422; 429].

Lemma mapError_generic (status : Z) (b : list byte) (rid : string)
    (h : gmap string string) :
  generic status ->
  (200 <=? status) && (status <? 300) = false /\
  classify status b rid h
  = GenericAPIError (errorBase decode_errBody status b rid).
Proof.
  intros (H2xx & Hnot). cbn [In] in Hnot. split.
  - destruct (Z.leb_spec 200 status), (Z.ltb_spec status 300);
      cbn [andb]; try reflexivity. lia.
  - rewrite mapError_kind. cbv zeta.
    repeat match goal with |- context [?a =? ?b] =>
      destruct (Z.eqb_spec a b); [exfalso; lia|] end.
    reflexivity.
Qed.

(** What [out] makes of a 2xx response: nothing to decode, or a body that
    unmarshals. *)
Definition decodes (status : Z) (respBody : list byte) : Prop :=
  match out with
  | None => True
  | Some unmarshal => status = 204 \/ unmarshal respBody = None
  end.

Lemma loop_exhausted (fuel : nat) (attempt : Z) (lastErr : option error)
    (r : Run) :
  m < attempt -> run_loop (S fuel) attempt lastErr r = Some (lastErr, r).
Proof.
  intros H. cbn [loop]. now rewrite (proj2 (Z.ltb_lt m attempt)).
Qed.

Lemma loop_client_error (fuel : nat) (attempt : Z) (lastErr : option error)
    (r : Run) (resp : Response) (respBody : list byte) :
  attempt <= m ->
  outcome (httpClient_Do attempt (clock r)) = Responded resp ->
  Body resp = BodyOk respBody ->
  In (StatusCode resp) [401; 403; 404; 400; 422] ->
  run_loop (S fuel) attempt lastErr r
  = Some (Some (classify (StatusCode resp) respBody
                  (Header_Get (Header resp) "X-Request-Id") (Header resp)),
          exchanged attempt r).
Proof.
  intros Hle Hout Hbody Hstatus. cbn [loop].
  rewrite (proj2 (Z.ltb_ge m attempt)) by lia.
  rewrite request_built, Hout, Hbody.
  destruct Hstatus as [E|[E|[E|[E|[E|[]]]]]]; rewrite <- E;
    rewrite mapError_kind; reflexivity.
Qed.

Lemma loop_success (fuel : nat) (attempt : Z) (lastErr : option error)
    (r : Run) (resp : Response) (respBody : list byte) :
  attempt <= m ->
  outcome (httpClient_Do attempt (clock r)) = Responded resp ->
  Body resp = BodyOk respBody ->
  200 <= StatusCode resp < 300 ->
  decodes (StatusCode resp) respBody ->
  run_loop (S fuel) attempt lastErr r = Some (None, exchanged attempt r).
Proof.
  intros Hle Hout Hbody Hstatus Hdec. cbn [loop].
  rewrite (proj2 (Z.ltb_ge m attempt)) by lia.
  rewrite request_built, Hout, Hbody.
  rewrite (proj2 (Z.leb_le 200 _)), (proj2 (Z.ltb_lt _ 300)) by lia.
  cbn [andb]. unfold decodes in Hdec.
  destruct out as [unmarshal|]; [|reflexivity].
  destruct Hdec as [-> | ->]; [reflexivity|].
  destruct (StatusCode resp =? 204); reflexivity.
Qed.

Hypothesis retries_fit : in_int64 m.

Lemma next_attempt (attempt : Z) :
  0 <= attempt < m -> wrap64 (attempt + 1) = attempt + 1.
Proof.
  intros H. apply wrap64_id.
  unfold in_int64, min_int64, max_int64 in *. lia.
Qed.

Lemma loop_generic_retry (fuel : nat) (attempt : Z) (lastErr : option error)
    (r : Run) (resp : Response) (respBody : list byte) :
  0 <= attempt < m ->
  outcome (httpClient_Do attempt (clock r)) = Responded resp ->
  Body resp = BodyOk respBody ->
  generic (StatusCode resp) ->
  run_loop (S fuel) attempt lastErr r
  = run_loop fuel (attempt + 1)
      (Some (GenericAPIError
               (errorBase decode_errBody (StatusCode resp) respBody
                  (Header_Get (Header resp) "X-Request-Id"))))
      (backoff rand_Int63 attempt (exchanged attempt r)).
Proof.
  intros Hat Hout Hbody Hstatus. cbn [loop].
  rewrite (proj2 (Z.ltb_ge m attempt)) by lia.
  rewrite request_built, Hout, Hbody.
  destruct (mapError_generic (StatusCode resp) respBody
              (Header_Get (Header resp) "X-Request-Id") (Header resp) Hstatus)
    as (-> & ->).
  rewrite (proj2 (Z.ltb_lt attempt m)) by lia.
  now rewrite next_attempt.
Qed.

Lemma loop_rate_limited (fuel : nat) (attempt : Z) (lastErr : option error)
    (r : Run) (resp : Response) (respBody : list byte) :
  0 <= attempt < m ->
  outcome (httpClient_Do attempt (clock r)) = Responded resp ->
  Body resp = BodyOk respBody ->
  StatusCode resp = 429 ->
  run_loop (S fuel) attempt lastErr r
  = run_loop fuel (attempt + 1) lastErr
      (sleep (wrap64 (retryAfterOf (Header resp) * Second))
             (exchanged attempt r)).
Proof.
  intros Hat Hout Hbody Hstatus. cbn [loop].
  rewrite (proj2 (Z.ltb_ge m attempt)) by lia.
  rewrite request_built, Hout, Hbody, Hstatus.
  rewrite mapError_kind.
  change ((200 <=? 429) && (429 <? 300)) with false. cbv iota zeta.
  change (429 =? 401) with false. change (429 =? 403) with false.
  change (429 =? 404) with false. change ((429 =? 400) || (429 =? 422)) with false.
  change (429 =? 429) with true. cbv iota.
  rewrite (proj2 (Z.ltb_lt attempt m)) by lia.
  now rewrite next_attempt.
Qed.

Lemma loop_cancelled (fuel : nat) (attempt : Z) (lastErr : option error)
    (r : Run) (err cerr : string) :
  attempt <= m ->
  outcome (httpClient_Do attempt (clock r)) = Failed err ->
  ctx_Err ctx (clock (exchanged attempt r)) = Some cerr ->
  run_loop (S fuel) attempt lastErr r
  = Some (Some (TimeoutError cerr), exchanged attempt r).
Proof.
  intros Hle Hout Hctx. cbn [loop].
  rewrite (proj2 (Z.ltb_ge m attempt)) by lia.
  rewrite request_built, Hout.
  cbn [clock exchanged] in Hctx. cbn [clock]. now rewrite Hctx.
Qed.

Lemma loop_failed_retry (fuel : nat) (attempt : Z) (lastErr : option error)
    (r : Run) (err : string) :
  0 <= attempt < m ->
  outcome (httpClient_Do attempt (clock r)) = Failed err ->
  ctx_Err ctx (clock (exchanged attempt r)) = None ->
  run_loop (S fuel) attempt lastErr r
  = run_loop fuel (attempt + 1) (Some (NetworkError err err))
      (backoff rand_Int63 attempt (exchanged attempt r)).
Proof.
  intros Hat Hout Hctx. cbn [loop].
  rewrite (proj2 (Z.ltb_ge m attempt)) by lia.
  rewrite request_built, Hout.
  cbn [clock exchanged] in Hctx. cbn [clock]. rewrite Hctx.
  rewrite (proj2 (Z.ltb_lt attempt m)) by lia.
  now rewrite next_attempt.
Qed.

Lemma loop_unreadable_retry (fuel : nat) (attempt : Z)
    (lastErr : option error) (r : Run) (resp : Response) (err : string) :
  0 <= attempt < m ->
  outcome (httpClient_Do attempt (clock r)) = Responded resp ->
  Body resp = BodyErr err ->
  run_loop (S fuel) attempt lastErr r
  = run_loop fuel (attempt + 1)
      (Some (NetworkError "failed to read response body" err))
      (backoff rand_Int63 attempt (exchanged attempt r)).
Proof.
  intros Hat Hout Hbody. cbn [loop].
  rewrite (proj2 (Z.ltb_ge m attempt)) by lia.
  rewrite request_built, Hout, Hbody.
  rewrite (proj2 (Z.ltb_lt attempt m)) by lia.
  now rewrite next_attempt.
Qed.

(** The ways an attempt can end that the loop answers with a
    [time.Sleep] and a further attempt when attempts remain, each with the
    argument of that [time.Sleep]: [backoff(attempt)] after a failed
    [httpClient.Do], after a response whose body cannot be read and after
    a status of the default kind, and the [Retry-After] wait after a
    429. *)
Inductive retry_sleep (attempt : Z) : RoundTrip -> Z -> Prop :=
| sleep_after_failure (err : string) :
    retry_sleep attempt (Failed err)
      (backoff_duration attempt (rand_Int63 attempt))
| sleep_after_unreadable (resp : Response) (err : string) :
    Body resp = BodyErr err ->
    retry_sleep attempt (Responded resp)
      (backoff_duration attempt (rand_Int63 attempt))
| sleep_after_status (resp : Response) (respBody : list byte) :
    Body resp = BodyOk respBody -> generic (StatusCode resp) ->
    retry_sleep attempt (Responded resp)
      (backoff_duration attempt (rand_Int63 attempt))
| sleep_after_429 (resp : Response) (respBody : list byte) :
    Body resp = BodyOk respBody -> StatusCode resp = 429 ->
    retry_sleep attempt (Responded resp)
      (wrap64 (retryAfterOf (Header resp) * Second)).

(** With attempts remaining and the context not done, each of them is
    followed by its sleep and the next attempt. *)
Lemma loop_retry_sleep (fuel : nat) (attempt : Z) (lastErr : option error)
    (r : Run) (d : Z) :
  0 <= attempt < m ->
  retry_sleep attempt (outcome (httpClient_Do attempt (clock r))) d ->
  ctx_Err ctx (clock (exchanged attempt r)) = None ->
  exists lastErr',
    run_loop (S fuel) attempt lastErr r
    = run_loop fuel (attempt + 1) lastErr' (sleep d (exchanged attempt r)).
Proof.
  intros Hat Hretry Hctx.
  remember (outcome (httpClient_Do attempt (clock r))) as o eqn:Eo.
  symmetry in Eo.
  destruct Hretry as [err|resp err Hbody|resp respBody Hbody Hst
                     |resp respBody Hbody Hst].
  - eexists. now apply loop_failed_retry with (err := err).
  - eexists. now apply loop_unreadable_retry with (resp := resp) (err := err).
  - eexists.
    now apply loop_generic_retry with (resp := resp) (respBody := respBody).
  - eexists.
    now apply loop_rate_limited with (resp := resp) (respBody := respBody).
Qed.

(** Any other end of an attempt is the end of the call: the loop returns
    as soon as [httpClient.Do] has, without a sleep. *)
Lemma loop_returns (fuel : nat) (attempt : Z) (lastErr : option error)
    (r : Run) :
  attempt <= m ->
  (forall d, ~ retry_sleep attempt (outcome (httpClient_Do attempt (clock r))) d) ->
  exists res,
    run_loop (S fuel) attempt lastErr r = Some (res, exchanged attempt r).
Proof.
  intros Hle Hnot. cbn [loop].
  rewrite (proj2 (Z.ltb_ge m attempt)) by lia.
  rewrite request_built.
  destruct (outcome (httpClient_Do attempt (clock r))) as [err|resp] eqn:Eout.
  { exfalso. eapply Hnot. apply sleep_after_failure. }
  destruct (Body resp) as [respBody|err] eqn:Ebody.
  2:{ exfalso. eapply Hnot. eapply sleep_after_unreadable. exact Ebody. }
  destruct ((200 <=? StatusCode resp) && (StatusCode resp <? 300)) eqn:E2xx.
  { destruct out as [unmarshal|]; [|eexists; reflexivity].
    destruct (StatusCode resp =? 204); [eexists; reflexivity|].
    destruct (unmarshal respBody); eexists; reflexivity. }
  destruct (decide (In (StatusCode resp) [401; 403; 404; 400; 422]))
    as [Hclient|Hother].
  { rewrite mapError_kind. cbv zeta. cbn [In] in Hclient.
    repeat match goal with
      | |- context [if ?c then _ else _] =>
          lazymatch c with
          | context [StatusCode] => destruct c eqn:?
          end
      end; try (eexists; reflexivity); exfalso; lia. }
  exfalso. destruct (Z.eq_dec (StatusCode resp) 429) as [H429|Hnot429].
  - eapply Hnot. eapply sleep_after_429; eassumption.
  - eapply Hnot. eapply sleep_after_status; [exact Ebody|].
    apply andb_false_iff in E2xx. cbn [In] in Hother. split.
    + destruct E2xx as [E|E]; [apply Z.leb_gt in E | apply Z.ltb_ge in E]; lia.
    + cbn [In]. lia.
Qed.

Lemma dispatches_exchanged (attempt : Z) (r : Run) :
  dispatches (trace (exchanged attempt r)) = S (dispatches (trace r)).
Proof.
  unfold dispatches, exchanged. cbn [trace].
  rewrite List.filter_app, List.length_app. cbn. lia.
Qed.

Lemma dispatches_sleep (d : Z) (r : Run) :
  dispatches (trace (sleep d r)) = dispatches (trace r).
Proof.
  unfold dispatches, sleep. cbn [trace].
  rewrite List.filter_app, List.length_app. cbn. lia.
Qed.

(** An exchange that ends in a readable response with the given status. *)
Definition responds (status : Z) (ex : Exchange) : Prop :=
  exists resp respBody,
    outcome ex = Responded resp /\ Body resp = BodyOk respBody /\
    StatusCode resp = status.

(** An exchange that ends in a 2xx response [out] can take. *)
Definition succeeds (ex : Exchange) : Prop :=
  exists resp respBody,
    outcome ex = Responded resp /\ Body resp = BodyOk respBody /\
    200 <= StatusCode resp < 300 /\ decodes (StatusCode resp) respBody.

Lemma generic_500 : generic 500.
Proof. split; [lia|]. cbn [In]. lia. Qed.

(** [n] responses with status 500 in a row, attempts remaining: the loop
    moves on by [n] attempts, each dispatched once. *)
Lemma loop_500s (n : nat) :
  forall (fuel : nat) (attempt : Z) (lastErr : option error) (r : Run),
    0 <= attempt -> attempt + Z.of_nat n <= m ->
    (forall i clk, attempt <= i < attempt + Z.of_nat n ->
                   responds 500 (httpClient_Do i clk)) ->
    exists lastErr' r',
      run_loop (n + fuel) attempt lastErr r
      = run_loop fuel (attempt + Z.of_nat n) lastErr' r' /\
      dispatches (trace r') = (dispatches (trace r) + n)%nat.
Proof.
  induction n as [|n IH]; intros fuel attempt lastErr r Hat Hm H500.
  - exists lastErr, r. rewrite Z.add_0_r, Nat.add_0_r. split; reflexivity.
  - destruct (H500 attempt (clock r) ltac:(lia))
      as (resp & respBody & Hout & Hbody & Hstatus).
    cbn [Nat.add].
    rewrite (loop_generic_retry _ _ _ _ resp respBody)
      by (try rewrite Hstatus; auto using generic_500; lia).
    destruct (IH fuel (attempt + 1)
                (Some (GenericAPIError
                   (errorBase decode_errBody (StatusCode resp) respBody
                      (Header_Get (Header resp) "X-Request-Id"))))
                (backoff rand_Int63 attempt (exchanged attempt r)))
      as (lastErr' & r' & Hrun & Hcount); try lia.
    { intros i clk Hi. apply H500. lia. }
    exists lastErr', r'. split.
    + rewrite Hrun. f_equal. lia.
    + rewrite Hcount. unfold backoff.
      rewrite dispatches_sleep, dispatches_exchanged. lia.
Qed.

End Loop.

(** [transport.do] is the loop, entered with the configuration the
    options leave. *)
Definition requestConfigOf (t : transport) (opts : list RequestOption)
  : requestConfig :=
  fold_left (fun rc opt => opt rc) opts
    (mkRequestConfig (timeout t) None EmptyString).

Definition retryLimit (t : transport) (opts : list RequestOption) : Z :=
  match rc_maxRetries (requestConfigOf t opts) with
  | Some n => n
  | None => maxRetries t
  end.

Definition requestURL
    (query_Encode : list (string * list string) -> string)
    (t : transport) (path : string) (query : list (string * list string))
  : string :=
  if (0 <? length query)%nat
  then (baseURL t +:+ path) +:+ "?" +:+ query_Encode query
  else baseURL t +:+ path.

Definition marshals (body : Payload) : Prop :=
  match body with MarshalError _ => False | _ => True end.

Section Calls.
Variable decode_errBody : list byte -> errBody.
Variable newRequest_err : string -> string -> option string.
Variable query_Encode : list (string * list string) -> string.
Variable httpClient_Do : Z -> Z -> Exchange.
Variable rand_Int63 : Z -> Z.

Lemma do_loop (fuel : nat) (now : Z) (t : transport) (ctx : Context)
    (method path : string) (query : list (string * list string))
    (body : Payload) (out : option (list byte -> option string))
    (opts : list RequestOption) :
  marshals body ->
  do decode_errBody newRequest_err query_Encode httpClient_Do rand_Int63
     fuel now t ctx method path query body out opts
  = loop decode_errBody newRequest_err httpClient_Do rand_Int63
      t ctx method (requestURL query_Encode t path query) body out
      (requestConfigOf t opts) (retryLimit t opts) fuel 0 None (mkRun now []).
Proof.
  intros Hbody. unfold do. destruct body; [reflexivity | reflexivity | destruct Hbody].
Qed.

(** C5.  For every non-negative retry count: when the first response is
    a 401, 403, 404, 400 or 422, [do] returns the error [mapError] makes of
    it (an [AuthenticationError], [ForbiddenError], [NotFoundError] or
    [ValidationError]) after exactly one dispatch and no sleep; and when
    [n] responses with status 500 are followed by a 2xx, with [n] within
    the retry count, [do] returns nil after exactly [n + 1] dispatches. *)
Theorem C5_client_errors_and_server_retries (fuel : nat) (now : Z)
    (t : transport) (ctx : Context) (method path : string)
    (query : list (string * list string)) (body : Payload)
    (out : option (list byte -> option string)) (opts : list RequestOption) :
  marshals body ->
  newRequest_err method (requestURL query_Encode t path query) = None ->
  0 <= retryLimit t opts -> in_int64 (retryLimit t opts) ->
  let call fuel :=
    do decode_errBody newRequest_err query_Encode httpClient_Do rand_Int63
       fuel now t ctx method path query body out opts in
  let sent :=
    Dispatch 0 (buildRequest t method (requestURL query_Encode t path query)
                  body (requestConfigOf t opts)) in
  (forall resp respBody,
     outcome (httpClient_Do 0 now) = Responded resp ->
     Body resp = BodyOk respBody ->
     In (StatusCode resp) [401; 403; 404; 400; 422] ->
     let base := errorBase decode_errBody (StatusCode resp) respBody
                   (Header_Get (Header resp) "X-Request-Id") in
     exists err run,
       call (S fuel) = Some (Some err, run) /\
       trace run = [sent] /\ dispatches (trace run) = 1%nat /\
       (StatusCode resp = 401 -> err = AuthenticationError base) /\
       (StatusCode resp = 403 -> err = ForbiddenError base) /\
       (StatusCode resp = 404 -> err = NotFoundError base) /\
       (StatusCode resp = 400 \/ StatusCode resp = 422 ->
        err = ValidationError base
                (Error_ValidationErrors (decode_errBody respBody)))) /\
  (forall n : nat,
     Z.of_nat n <= retryLimit t opts ->
     (forall i clk, 0 <= i < Z.of_nat n -> responds 500 (httpClient_Do i clk)) ->
     (forall clk, succeeds out (httpClient_Do (Z.of_nat n) clk)) ->
     exists run,
       call (S n + fuel)%nat = Some (None, run) /\
       dispatches (trace run) = S n).
Proof.
  intros Hbody Hreq Hm0 Hm call sent. split.
  - intros resp respBody Hout Hrb Hstatus base.
    unfold call. rewrite do_loop by assumption.
    rewrite (loop_client_error _ _ _ _ _ _ _ _ _ _ _ _ Hreq fuel 0 None
               (mkRun now []) resp respBody) by (cbn [clock]; auto).
    eexists. eexists. split; [reflexivity|].
    split; [reflexivity|]. split; [reflexivity|].
    rewrite mapError_kind. fold base. cbv zeta.
    repeat split; intros E; try destruct E as [E|E]; rewrite E; reflexivity.
  - intros n Hn H500 Hok.
    unfold call. rewrite do_loop by assumption.
    replace (S n + fuel)%nat with (n + S fuel)%nat by lia.
    destruct (loop_500s decode_errBody newRequest_err httpClient_Do rand_Int63
                t ctx method (requestURL query_Encode t path query) body out
                (requestConfigOf t opts) (retryLimit t opts) Hreq Hm
                n (S fuel) 0 None (mkRun now []))
      as (lastErr' & r' & Hrun & Hcount); try lia.
    { intros i clk Hi. apply H500. lia. }
    rewrite Hrun, Z.add_0_l.
    destruct (Hok (clock r')) as (resp & respBody & Hout & Hrb & H2xx & Hdec).
    rewrite (loop_success _ _ _ _ _ _ _ _ _ _ _ _ Hreq fuel (Z.of_nat n)
               lastErr' r' resp respBody) by auto.
    eexists. split; [reflexivity|].
    rewrite dispatches_exchanged, Hcount. reflexivity.
Qed.

(** C6 (amended).  [mapError] turns a 429 into a [RateLimitError] whose
    [RetryAfter] is the integer [strconv.Atoi] reads from the
    [Retry-After] header, and 60 when the header is absent, empty or not
    such an integer.  With attempts remaining, the loop then calls
    [time.Sleep(time.Duration(RetryAfter) * time.Second)], not [backoff],
    and goes to the next attempt; for [0 <= RetryAfter <= 9223372036]
    that sleep lasts exactly [RetryAfter] seconds. *)
Theorem C6_rate_limit_sleep (fuel : nat) (t : transport) (ctx : Context)
    (method u : string) (body : Payload)
    (out : option (list byte -> option string)) (rc : requestConfig)
    (m attempt : Z) (lastErr : option error) (r : Run)
    (resp : Response) (respBody : list byte) :
  newRequest_err method u = None ->
  in_int64 m -> 0 <= attempt < m ->
  outcome (httpClient_Do attempt (clock r)) = Responded resp ->
  Body resp = BodyOk respBody ->
  StatusCode resp = 429 ->
  let requestID := Header_Get (Header resp) "X-Request-Id" in
  let header := Header_Get (Header resp) "Retry-After" in
  let retryAfter := match Strconv.Atoi header with
                    | Some v => v
                    | None => 60
                    end in
  let run_loop :=
    loop decode_errBody newRequest_err httpClient_Do rand_Int63
         t ctx method u body out rc m in
  let answered := exchanged httpClient_Do t method u body rc attempt r in
  mapError decode_errBody (StatusCode resp) respBody requestID (Header resp)
  = RateLimitError (errorBase decode_errBody 429 respBody requestID)
      retryAfter /\
  (Header resp !! "Retry-After" = None -> retryAfter = 60) /\
  run_loop (S fuel) attempt lastErr r
  = run_loop fuel (attempt + 1) lastErr
      (sleep (wrap64 (retryAfter * Second)) answered) /\
  (0 <= retryAfter <= 9223372036 ->
   sleep (wrap64 (retryAfter * Second)) answered
   = mkRun (clock answered + retryAfter * Second)
       (trace r ++ [Dispatch attempt (buildRequest t method u body rc);
                    Sleep (retryAfter * Second)])).
Proof.
  intros Hreq Hm Hat Hout Hbody Hstatus requestID header retryAfter
         run_loop answered.
  split; [|split; [|split]].
  - rewrite Hstatus, mapError_kind. reflexivity.
  - intros Habsent. unfold retryAfter, header, Header_Get.
    rewrite Habsent. reflexivity.
  - unfold run_loop.
    now rewrite (loop_rate_limited _ _ _ _ _ _ _ _ _ _ _ _ Hreq Hm fuel
                   attempt lastErr r resp respBody).
  - intros Hra. rewrite wrap64_id.
    + unfold sleep, answered, exchanged. cbn [clock trace].
      rewrite Z.max_r by (unfold Second; lia).
      now rewrite <- List.app_assoc.
    + unfold in_int64, min_int64, max_int64, Second. lia.
Qed.

(** C8 (amended).  [time.Sleep] does not watch the context.  Take an
    attempt with attempts remaining.  If it ends in one of the ways the
    loop answers with a sleep (a failed [httpClient.Do], an unreadable
    body, a 429, or a status of the default kind) and the context is done
    at an instant [c] inside that sleep, the sleep runs its whole length,
    [httpClient.Do] is called for the next attempt, and when that call
    fails, as it does for a context that is done, [do] returns a
    [TimeoutError] without sleeping or dispatching again.  An attempt that
    ends in any other way is not followed by a sleep: the loop returns. *)
Theorem C8_cancellation_during_sleep (fuel : nat) (t : transport)
    (ctx : Context) (method u : string) (body : Payload)
    (out : option (list byte -> option string)) (rc : requestConfig)
    (m attempt : Z) (lastErr : option error) (r : Run) :
  newRequest_err method u = None ->
  in_int64 m -> 0 <= attempt < m ->
  let ended := outcome (httpClient_Do attempt (clock r)) in
  let answered := exchanged httpClient_Do t method u body rc attempt r in
  let run_loop :=
    loop decode_errBody newRequest_err httpClient_Do rand_Int63
         t ctx method u body out rc m (S (S fuel)) attempt lastErr r in
  (forall d c : Z,
     retry_sleep rand_Int63 attempt ended d ->
     let woken := clock answered + Z.max 0 d in
     doneAt ctx = Some c ->
     clock answered < c <= woken ->
     (forall clk, c <= clk ->
        0 <= elapsed (httpClient_Do (attempt + 1) clk) /\
        exists err, outcome (httpClient_Do (attempt + 1) clk) = Failed err) ->
     run_loop
     = Some (Some (TimeoutError (reason ctx)),
             mkRun (woken + elapsed (httpClient_Do (attempt + 1) woken))
               (trace r ++ [Dispatch attempt (buildRequest t method u body rc);
                            Sleep d;
                            Dispatch (attempt + 1)
                              (buildRequest t method u body rc)]))) /\
  ((forall d : Z, ~ retry_sleep rand_Int63 attempt ended d) ->
   exists res, run_loop = Some (res, answered)).
Proof.
  intros Hreq Hm Hat ended answered run_loop. split.
  - intros d c Hretry woken Hdone Hfires Hexec.
    destruct (Hexec woken ltac:(lia)) as (Hel & err & Hfail).
    assert (Hlive : ctx_Err ctx (clock answered) = None).
    { unfold ctx_Err. rewrite Hdone.
      destruct (Z.leb_spec c (clock answered)); [lia | reflexivity]. }
    destruct (loop_retry_sleep decode_errBody newRequest_err httpClient_Do
                rand_Int63 t ctx method u body out rc m Hreq Hm (S fuel)
                attempt lastErr r d Hat Hretry Hlive) as (lastErr' & Hstep).
    unfold run_loop. rewrite Hstep. fold answered.
    rewrite (loop_cancelled decode_errBody newRequest_err httpClient_Do
               rand_Int63 t ctx method u body out rc m Hreq fuel (attempt + 1)
               lastErr' (sleep d answered) err (reason ctx)).
    + unfold exchanged, sleep, answered, exchanged. cbn [clock trace].
      fold answered. f_equal. f_equal. now rewrite <- !List.app_assoc.
    + lia.
    + exact Hfail.
    + unfold ctx_Err. rewrite Hdone. cbn [clock exchanged sleep].
      fold woken. destruct (Z.leb_spec c (woken + elapsed
        (httpClient_Do (attempt + 1) woken))); [reflexivity | lia].
  - intros Hnot.
    apply (loop_returns decode_errBody newRequest_err httpClient_Do
             rand_Int63 t ctx method u body out rc m Hreq (S fuel) attempt
             lastErr r); [lia | exact Hnot].
Qed.

End Calls.

(** A server that answers 500 twice and then 200, and one that always
    answers 404; no Unicode, no request errors, no jitter. *)
Definition no_envelope (_ : list byte) : errBody :=
  mkErrBody EmptyString EmptyString [] EmptyString EmptyString.
Definition builds (_ _ : string) : option string := None.
Definition no_query (_ : list (string * list string)) : string := EmptyString.
Definition answer (status : Z) : Exchange :=
  mkExchange 0 (Responded (mkResponse status ∅ (BodyOk []))).
Definition flaky_server (attempt _ : Z) : Exchange :=
  answer (if attempt <? 2 then 500 else 200).
Definition missing_server (_ _ : Z) : Exchange := answer 404.
Definition no_jitter (_ : Z) : Z := 0.
Definition client : transport :=
  mkTransport "test_key" "https://api.hookbase.app" (30 * Second) 3 false.
Definition background : Context := mkContext None EmptyString.
Definition any_json (_ : list byte) : option string := None.

Lemma C5_client_errors_and_server_retries_witness :
  (exists run,
     do no_envelope builds no_query flaky_server no_jitter 4 0 client
        background "GET" "/api/sources/src_1" [] NoBody (Some any_json) []
     = Some (None, run) /\ dispatches (trace run) = 3%nat) /\
  (exists err run,
     do no_envelope builds no_query missing_server no_jitter 1 0 client
        background "GET" "/api/sources/nonexistent" [] NoBody (Some any_json) []
     = Some (Some err, run) /\ dispatches (trace run) = 1%nat /\
     err = NotFoundError
             (mkAPIError "API error: 404" 404 "unknown_error" EmptyString)).
Proof.
  assert (Hfit : in_int64 (retryLimit client [])).
  { vm_compute. split; discriminate. }
  assert (Hpos : 0 <= retryLimit client []) by (vm_compute; discriminate).
  split.
  - destruct (C5_client_errors_and_server_retries no_envelope builds no_query
                flaky_server no_jitter 1 0 client background "GET"
                "/api/sources/src_1" [] NoBody (Some any_json) []
                I eq_refl Hpos Hfit) as (_ & Hretry).
    apply (Hretry 2%nat).
    + vm_compute. discriminate.
    + intros i clk Hi. exists (mkResponse 500 ∅ (BodyOk [])), [].
      unfold flaky_server. destruct (Z.ltb_spec i 2); [|lia].
      repeat split.
    + intros clk. exists (mkResponse 200 ∅ (BodyOk [])), [].
      repeat split; try (vm_compute; discriminate). now right.
  - destruct (C5_client_errors_and_server_retries no_envelope builds no_query
                missing_server no_jitter 0 0 client background "GET"
                "/api/sources/nonexistent" [] NoBody (Some any_json) []
                I eq_refl Hpos Hfit) as (Hclient & _).
    destruct (Hclient (mkResponse 404 ∅ (BodyOk [])) [] eq_refl eq_refl)
      as (err & run & Hcall & _ & Hcount & _ & _ & H404 & _).
    { cbn. tauto. }
    exists err, run. repeat split; try assumption.
    rewrite (H404 eq_refl). vm_compute. reflexivity.
Defined.

(** A server that answers 429 once, naming the seconds to wait, and then
    200. *)
Definition limited_server (retryAfter : string) (attempt _ : Z) : Exchange :=
  if attempt =? 0
  then mkExchange 0 (Responded (mkResponse 429
                       {[ "Retry-After" := retryAfter ]} (BodyOk [])))
  else answer 200.

Definition get_source : Request :=
  mkRequest "GET" "https://api.hookbase.app/api/sources/src_1"
    [ ("Authorization", "Bearer test_key");
      ("User-Agent", "hookbase-go/0.1.0");
      ("Accept", "application/json") ] None.

Lemma C6_rate_limit_sleep_witness :
  do no_envelope builds no_query (limited_server "30") no_jitter 2 0 client
     background "GET" "/api/sources/src_1" [] NoBody (Some any_json) []
  = Some (None,
          mkRun (30 * Second)
            [Dispatch 0 get_source; Sleep (30 * Second); Dispatch 1 get_source]).
Proof.
  assert (Hfit : in_int64 3) by (vm_compute; split; discriminate).
  destruct (C6_rate_limit_sleep no_envelope builds (limited_server "30")
              no_jitter 1 client background "GET"
              "https://api.hookbase.app/api/sources/src_1" NoBody
              (Some any_json) (requestConfigOf client []) 3 0 None
              (mkRun 0 [])
              (mkResponse 429 {[ "Retry-After" := "30" ]} (BodyOk [])) []
              eq_refl Hfit ltac:(lia) eq_refl eq_refl eq_refl)
    as (_ & _ & Hloop & Hsleep).
  rewrite do_loop by exact I.
  change (retryLimit client []) with 3.
  change (requestURL no_query client "/api/sources/src_1" [])
    with "https://api.hookbase.app/api/sources/src_1".
  rewrite Hloop, Hsleep by (vm_compute; split; discriminate).
  vm_compute. reflexivity.
Defined.

(** C6 (as stated) fails for [Retry-After: 9223372037]: the duration
    [9223372037 * time.Second] wraps to a negative [int64], so
    [time.Sleep] returns at once and the clock has not moved when the next
    attempt is dispatched. *)
Lemma C6_huge_retry_after_does_not_sleep :
  Strconv.Atoi "9223372037" = Some 9223372037 /\
  do no_envelope builds no_query (limited_server "9223372037") no_jitter 2 0
     client background "GET" "/api/sources/src_1" [] NoBody (Some any_json) []
  = Some (None,
          mkRun 0 [Dispatch 0 get_source; Sleep (-9223372036709551616);
                   Dispatch 1 get_source]).
Proof. split; vm_compute; reflexivity. Qed.

(** A server that answers 500 until the context is done at [c] and
    refuses the request from then on, as [http.Client] does. *)
Definition server_until (c : Z) (_ clk : Z) : Exchange :=
  if c <=? clk then mkExchange 0 (Failed "context canceled") else answer 500.

Definition cancelled_at (c : Z) : Context :=
  mkContext (Some c) "context canceled".

(** A server that cannot be reached; from [c] on it is the done context
    that fails the request. *)
Definition unreachable_until (c : Z) (_ clk : Z) : Exchange :=
  mkExchange 0
    (Failed (if c <=? clk then "context canceled" else "connection refused")).

Lemma C8_cancellation_during_sleep_witness :
  loop no_envelope builds (server_until 500000000) no_jitter client
       (cancelled_at 500000000) "GET"
       "https://api.hookbase.app/api/sources/src_1" NoBody (Some any_json)
       (requestConfigOf client []) 3 2 0 None (mkRun 0 [])
  = Some (Some (TimeoutError "context canceled"),
          mkRun 1000000000
            [Dispatch 0 get_source; Sleep 1000000000; Dispatch 1 get_source]) /\
  loop no_envelope builds (unreachable_until 500000000) no_jitter client
       (cancelled_at 500000000) "GET"
       "https://api.hookbase.app/api/sources/src_1" NoBody (Some any_json)
       (requestConfigOf client []) 3 2 0 None (mkRun 0 [])
  = Some (Some (TimeoutError "context canceled"),
          mkRun 1000000000
            [Dispatch 0 get_source; Sleep 1000000000; Dispatch 1 get_source]).
Proof.
  assert (Hfit : in_int64 3) by (vm_compute; split; discriminate).
  assert (Hat : 0 <= 0 < 3) by lia.
  assert (Hfires : 0 < 500000000 <= 1000000000) by lia.
  split.
  - refine (proj1 (C8_cancellation_during_sleep no_envelope builds
                     (server_until 500000000) no_jitter 0 client
                     (cancelled_at 500000000) "GET"
                     "https://api.hookbase.app/api/sources/src_1" NoBody
                     (Some any_json) (requestConfigOf client []) 3 0 None
                     (mkRun 0 []) eq_refl Hfit Hat)
                  1000000000 500000000 _ eq_refl Hfires _).
    + apply (sleep_after_status no_jitter 0 (mkResponse 500 ∅ (BodyOk [])) []);
        [reflexivity | exact generic_500].
    + intros clk Hclk. unfold server_until.
      destruct (Z.leb_spec 500000000 clk); [|lia].
      split; [vm_compute; discriminate | now exists "context canceled"].
  - refine (proj1 (C8_cancellation_during_sleep no_envelope builds
                     (unreachable_until 500000000) no_jitter 0 client
                     (cancelled_at 500000000) "GET"
                     "https://api.hookbase.app/api/sources/src_1" NoBody
                     (Some any_json) (requestConfigOf client []) 3 0 None
                     (mkRun 0 []) eq_refl Hfit Hat)
                  1000000000 500000000 _ eq_refl Hfires _).
    + apply (sleep_after_failure no_jitter 0 "connection refused").
    + intros clk Hclk. split; [vm_compute; discriminate|].
      now eexists.
Defined.

(** C8 (as stated) fails: the context is done half a second into a
    one-second backoff, yet the call returns only when the clock reads one
    second, and after a second call of [httpClient.Do]. *)
Lemma C8_sleep_outlasts_cancellation :
  do no_envelope builds no_query (server_until 500000000) no_jitter 2 0 client
     (cancelled_at 500000000) "GET" "/api/sources/src_1" [] NoBody
     (Some any_json) []
  = Some (Some (TimeoutError "context canceled"),
          mkRun 1000000000
            [Dispatch 0 get_source; Sleep 1000000000; Dispatch 1 get_source]).
Proof. vm_compute. reflexivity. Qed.

(** *** The backoff curve *)

Lemma pow2_53 (attempt : Z) : 0 <= attempt <= 53 -> 1 <= 2 ^ attempt <= 2 ^ 53.
Proof.
  intros H. split.
  - change 1 with (2 ^ 0). apply Z.pow_le_mono_r; lia.
  - apply Z.pow_le_mono_r; lia.
Qed.

Lemma backoff_base_curve (attempt : Z) :
  0 <= attempt <= 53 ->
  backoff_base attempt = Z.min (1000 * 2 ^ attempt) 10000.
Proof.
  intros H. pose proof (pow2_53 attempt H) as Hp.
  change (2 ^ 53) with 9007199254740992 in Hp.
  unfold backoff_base, pow2_int.
  rewrite Float64Facts.to_int64_id
    by (unfold in_int64, min_int64, max_int64; lia).
  rewrite wrap64_id by (unfold in_int64, min_int64, max_int64; lia).
  destruct (Z.le_gt_cases (1000 * 2 ^ attempt) (2 ^ 53)) as [Hs|Hl].
  - rewrite Float64Facts.round53_exact; [reflexivity | lia].
  - destruct (Float64Facts.round53_large (1000 * 2 ^ attempt) ltac:(lia))
      as (Hbig & Hsgn).
    rewrite (Z.sgn_pos (1000 * 2 ^ attempt)) in Hsgn by lia.
    apply Z.sgn_pos_iff in Hsgn.
    change (2 ^ 53) with 9007199254740992 in *. lia.
Qed.

Lemma backoff_base_values (attempt : Z) :
  0 <= attempt ->
  In (Z.min (1000 * 2 ^ attempt) 10000) [1000; 2000; 4000; 8000; 10000].
Proof.
  intros H. cbn [In].
  destruct (Z.le_gt_cases 4 attempt) as [Hge|Hlt].
  - assert (2 ^ 4 <= 2 ^ attempt) by (apply Z.pow_le_mono_r; lia).
    change (2 ^ 4) with 16 in *. lia.
  - assert (E : attempt = 0 \/ attempt = 1 \/ attempt = 2 \/ attempt = 3) by lia.
    destruct E as [-> | [-> | [-> | ->]]]; vm_compute; tauto.
Qed.

Lemma jitter_range (u : Z) :
  0 <= u < 2 ^ 63 -> 0 <= jitter u <= 1000 * 2 ^ 63.
Proof.
  intros Hu. unfold jitter.
  assert (Hr : 0 <= Float64.round53 u <= 2 ^ 63).
  { apply Float64Facts.round53_between; try lia; vm_compute; reflexivity. }
  apply Float64Facts.round53_between; try lia; vm_compute; reflexivity.
Qed.

(** A draw [rand.Float64] returns is below 1, and its jitter below 1000. *)
Lemma jitter_below_1000 (u : Z) :
  0 <= u < 2 ^ 63 -> Float64.round53 u < 2 ^ 63 -> jitter u < 1000 * 2 ^ 63.
Proof.
  intros Hu Hdraw. unfold jitter.
  pose proof (Float64Facts.round53_below_pow63 u Hu Hdraw) as Hmax.
  assert (Hr : 0 <= Float64.round53 u).
  { apply (Float64Facts.round53_between 0 u (2 ^ 63));
      try lia; vm_compute; reflexivity. }
  pose proof (Float64Facts.round53_mono (Float64.round53 u * 1000)
                ((2 ^ 63 - 1024) * 1000) ltac:(lia)) as Hle.
  replace (Float64.round53 ((2 ^ 63 - 1024) * 1000))
    with (1000 * 2 ^ 63 - 2 ^ 20) in Hle by (vm_compute; reflexivity).
  change (2 ^ 20) with 1048576 in Hle. lia.
Qed.

(** C7 (amended).  For the attempts [0 <= k <= 53] the base wait is
    [min(1000 * 2^k, 10000)] milliseconds, and for every draw [u / 2^63]
    of the random source [backoff] sleeps the [float64] sum of the base
    and of a jitter in [[0, 1000)] milliseconds, cut to whole
    milliseconds: at least the base and at most the base plus 1000, hence
    at most 11 seconds. *)
Theorem C7_backoff_curve (attempt u : Z) :
  0 <= attempt <= 53 -> 0 <= u < 2 ^ 63 -> Float64.round53 u < 2 ^ 63 ->
  let base := Z.min (1000 * 2 ^ attempt) 10000 in
  backoff_base attempt = base /\
  0 <= jitter u < 1000 * 2 ^ 63 /\
  exists ms,
    ms = Z.quot (Float64.round53 (base * 2 ^ 63 + jitter u)) (2 ^ 63) /\
    backoff_duration attempt u = ms * Millisecond /\
    base <= ms <= base + 1000 /\
    ms * Millisecond <= 11 * Second /\
    forall (rand_Int63 : Z -> Z) (r : Run),
      rand_Int63 attempt = u ->
      backoff rand_Int63 attempt r
      = mkRun (clock r + ms * Millisecond)
              (trace r ++ [Sleep (ms * Millisecond)]).
Proof.
  intros Hk Hu Hdraw base.
  pose proof (backoff_base_curve attempt Hk) as Hbase. fold base in Hbase.
  pose proof (jitter_range u Hu) as Hj.
  pose proof (jitter_below_1000 u Hu Hdraw) as Hj'.
  split; [exact Hbase|]. split; [lia|].
  eexists. split; [reflexivity|].
  set (sum := Float64.round53 (base * 2 ^ 63 + jitter u)).
  assert (Hsum : base * 2 ^ 63 <= sum <= (base + 1000) * 2 ^ 63).
  { pose proof (backoff_base_values attempt ltac:(lia)) as Hv.
    fold base in Hv. cbn [In] in Hv. unfold sum.
    destruct Hv as [E|[E|[E|[E|[E|[]]]]]]; rewrite <- E;
      (apply Float64Facts.round53_between;
       [lia | vm_compute; reflexivity | vm_compute; reflexivity | lia]). }
  assert (Hb : 1000 <= base <= 10000).
  { pose proof (backoff_base_values attempt ltac:(lia)) as Hv.
    fold base in Hv. cbn [In] in Hv. lia. }
  assert (Hms : base <= Z.quot sum (2 ^ 63) <= base + 1000).
  { rewrite Z.quot_div_nonneg by lia.
    change (2 ^ 63) with 9223372036854775808 in *.
    Z.div_mod_to_equations. lia. }
  assert (Hdur : backoff_duration attempt u = Z.quot sum (2 ^ 63) * Millisecond).
  { unfold backoff_duration. rewrite Hbase. fold sum.
    rewrite Float64Facts.to_int64_id
      by (unfold in_int64, min_int64, max_int64; lia).
    apply wrap64_id. unfold in_int64, min_int64, max_int64, Millisecond. lia. }
  split; [exact Hdur|]. split; [exact Hms|].
  split; [unfold Millisecond, Second; lia|].
  intros rand_Int63 r Hrand. unfold backoff, sleep.
  rewrite Hrand, Hdur. f_equal.
  rewrite Z.max_r; [reflexivity | unfold Millisecond; lia].
Qed.

Lemma C7_backoff_curve_witness :
  backoff_base 2 = 4000 /\
  backoff_duration 2 (2 ^ 62) = 4500 * Millisecond.
Proof.
  destruct (C7_backoff_curve 2 (2 ^ 62) ltac:(lia) ltac:(lia)
              ltac:(vm_compute; reflexivity))
    as (Hbase & _ & ms & Hms & Hdur & _).
  split; [exact Hbase|].
  rewrite Hdur, Hms. vm_compute. reflexivity.
Defined.

(** C7 (as stated) fails twice.  With the largest draw, [1 - 2^-53], the
    sum [10000 + 999.99...] rounds to [11000] in [float64] and the wait is
    11 seconds, not less.  And at attempt 54 the product [1000 * 2^54]
    overflows [int]: the base is negative and [time.Sleep] is given the
    most negative duration, so there is no wait at all. *)
Lemma C7_eleven_seconds_and_overflow :
  Float64.round53 (2 ^ 63 - 1024) = (2 ^ 53 - 1) * 2 ^ 10 /\
  jitter (2 ^ 63 - 1024) = 1000 * 2 ^ 63 - 2 ^ 20 /\
  backoff_duration 4 (2 ^ 63 - 1024) = 11 * Second /\
  wrap64 (1000 * pow2_int 54) = - 3 * 2 ^ 57 /\
  backoff_duration 54 0 = min_int64 /\
  sleep (backoff_duration 54 0) (mkRun 0 []) = mkRun 0 [Sleep min_int64].
Proof. repeat split; vm_compute; reflexivity. Qed.

End TransportProps.

(** * Further properties of the transport *)

Module TransportMore.
Import Int IntFacts Errors Transport TransportProps.

(** The trace of attempts numbered from [attempt] on, each sending [req],
    with the sleeps [ds] between them. *)
Fixpoint attempts_from (attempt : Z) (req : Request) (ds : list Z)
  : list Event :=
  Dispatch attempt req ::
  match ds with
  | [] => []
  | d :: ds' => Sleep d :: attempts_from (attempt + 1) req ds'
  end.

Definition sleeps (tr : list Event) : nat :=
  length (List.filter (fun e => negb (is_dispatch e)) tr).

(** The time a trace spends in [time.Sleep]. *)
Fixpoint total_sleep (tr : list Event) : Z :=
  match tr with
  | [] => 0
  | Dispatch _ _ :: tr' => total_sleep tr'
  | Sleep d :: tr' => Z.max 0 d + total_sleep tr'
  end.

(** The [APIError] embedded in an error value, if there is one. *)
Definition baseOf (e : error) : option APIError :=
  match e with
  | GenericAPIError b | AuthenticationError b | ForbiddenError b
  | NotFoundError b | ValidationError b _ | RateLimitError b _ => Some b
  | _ => None
  end.

(** The request options the package provides. *)
Definition builtin (opt : RequestOption) : Prop :=
  (exists d, opt = WithRequestTimeout d) \/
  (exists n, opt = WithRequestRetries n) \/
  (exists key, opt = WithIdempotencyKey key).

(** Two request configurations that [do] cannot tell apart. *)
Definition agree (rc rc' : requestConfig) : Prop :=
  rc_maxRetries rc = rc_maxRetries rc' /\
  idempotencyKey rc = idempotencyKey rc'.

Lemma counts_attempts_from (req : Request) (ds : list Z) :
  forall attempt,
    dispatches (attempts_from attempt req ds) = S (length ds) /\
    sleeps (attempts_from attempt req ds) = length ds.
Proof.
  induction ds as [|d ds IH]; intros attempt; cbn; [split; reflexivity|].
  destruct (IH (attempt + 1)) as (Hd & Hs).
  unfold dispatches, sleeps in *. rewrite Hd, Hs. split; reflexivity.
Qed.

Section Shape.
Variable decode_errBody : list byte -> errBody.
Variable newRequest_err : string -> string -> option string.
Variable httpClient_Do : Z -> Z -> Exchange.
Variable rand_Int63 : Z -> Z.
Variable t : transport.
Variable ctx : Context.
Variable method u : string.
Variable body : Payload.
Variable out : option (list byte -> option string).
Variable rc : requestConfig.
Variable m : Z.

Local Abbreviation run_loop :=
  (loop decode_errBody newRequest_err httpClient_Do rand_Int63
        t ctx method u body out rc m).
Local Abbreviation req := (buildRequest t method u body rc).
Local Abbreviation exchanged_at :=
  (exchanged httpClient_Do t method u body rc).

(** Why the loop sleeps after an attempt: [backoff(attempt)], or the
    [Retry-After] of a 429 response to that attempt. *)
Definition sleep_cause (attempt d : Z) : Prop :=
  d = backoff_duration attempt (rand_Int63 attempt) \/
  exists clk resp,
    outcome (httpClient_Do attempt clk) = Responded resp /\
    StatusCode resp = 429 /\
    d = wrap64 (retryAfterOf (Header resp) * Second).

Fixpoint explained (attempt : Z) (ds : list Z) : Prop :=
  match ds with
  | [] => True
  | d :: ds' => sleep_cause attempt d /\ explained (attempt + 1) ds'
  end.

Hypothesis request_built : newRequest_err method u = None.

(** [n] attempts in a row that each end in a sleep and a further
    attempt. *)
Lemma loop_iter (sl : Z -> Z) (n : nat) :
  forall (fuel : nat) (attempt : Z) (lastErr : option error) (r : Run),
    0 <= attempt -> attempt + Z.of_nat n <= m ->
    (forall fuel i lastErr r,
       attempt <= i < attempt + Z.of_nat n ->
       exists lastErr',
         run_loop (S fuel) i lastErr r
         = run_loop fuel (i + 1) lastErr' (sleep (sl i) (exchanged_at i r))) ->
    exists lastErr' r',
      run_loop (n + fuel) attempt lastErr r
      = run_loop fuel (attempt + Z.of_nat n) lastErr' r' /\
      trace r' = trace r ++ flat_map (fun i => [Dispatch i req; Sleep (sl i)])
                              (seqZ attempt (Z.of_nat n)).
Proof.
  induction n as [|n IH]; intros fuel attempt lastErr r Hat Hm Hstep.
  - exists lastErr, r. rewrite Z.add_0_r, List.app_nil_r. split; reflexivity.
  - cbn [Nat.add].
    destruct (Hstep (n + fuel)%nat attempt lastErr r ltac:(lia)) as (le1 & ->).
    destruct (IH fuel (attempt + 1) le1 (sleep (sl attempt) (exchanged_at attempt r)))
      as (le2 & r' & -> & Htr); [lia | lia | |].
    { intros fuel' i lastErr' r0 Hi. apply Hstep. lia. }
    exists le2, r'. split; [f_equal; lia|].
    rewrite Htr. rewrite (seqZ_cons attempt (Z.of_nat (S n))) by lia.
    replace (Z.pred (Z.of_nat (S n))) with (Z.of_nat n) by lia.
    cbn [flat_map sleep exchanged trace app]. unfold Z.succ.
    rewrite <- !List.app_assoc. reflexivity.
Qed.

Lemma attempts_from_seq (sl : Z -> Z) (n : nat) :
  forall attempt,
    flat_map (fun i => [Dispatch i req; Sleep (sl i)])
             (seqZ attempt (Z.of_nat n))
    ++ [Dispatch (attempt + Z.of_nat n) req]
    = attempts_from attempt req (List.map sl (seqZ attempt (Z.of_nat n))).
Proof.
  induction n as [|n IH]; intros attempt.
  - cbn. now rewrite Z.add_0_r.
  - rewrite (seqZ_cons attempt (Z.of_nat (S n))) by lia.
    replace (Z.pred (Z.of_nat (S n))) with (Z.of_nat n) by lia.
    cbn [flat_map List.map attempts_from app]. unfold Z.succ.
    rewrite <- IH.
    replace (attempt + 1 + Z.of_nat n) with (attempt + Z.of_nat (S n)) by lia.
    reflexivity.
Qed.

Lemma loop_undecodable (fuel : nat) (attempt : Z) (lastErr : option error)
    (r : Run) (resp : Response) (respBody : list byte)
    (unmarshal : list byte -> option string) (err : string) :
  attempt <= m ->
  outcome (httpClient_Do attempt (clock r)) = Responded resp ->
  Body resp = BodyOk respBody ->
  200 <= StatusCode resp < 300 -> StatusCode resp <> 204 ->
  out = Some unmarshal -> unmarshal respBody = Some err ->
  run_loop (S fuel) attempt lastErr r
  = Some (Some (Error ("failed to unmarshal response: " +:+ err)),
          exchanged_at attempt r).
Proof.
  intros Hle Hout Hbody Hstatus H204 Eout Eun. cbn [loop].
  rewrite (proj2 (Z.ltb_ge m attempt)) by lia.
  rewrite request_built, Hout, Hbody.
  rewrite (proj2 (Z.leb_le 200 _)), (proj2 (Z.ltb_lt _ 300)) by lia.
  cbn [andb]. rewrite Eout, (proj2 (Z.eqb_neq _ 204) H204), Eun. reflexivity.
Qed.

Lemma loop_failed_last (fuel : nat) (lastErr : option error)
    (r : Run) (err : string) :
  0 <= m ->
  outcome (httpClient_Do m (clock r)) = Failed err ->
  doneAt ctx = None ->
  run_loop (S fuel) m lastErr r
  = Some (Some (NetworkError err err), exchanged_at m r).
Proof.
  intros Hm Hout Hctx. cbn [loop].
  rewrite Z.ltb_irrefl, request_built, Hout.
  unfold ctx_Err. rewrite Hctx. reflexivity.
Qed.

Lemma loop_rate_limited_last (fuel : nat) (lastErr : option error)
    (r : Run) (resp : Response) (respBody : list byte) :
  outcome (httpClient_Do m (clock r)) = Responded resp ->
  Body resp = BodyOk respBody ->
  StatusCode resp = 429 ->
  run_loop (S fuel) m lastErr r
  = Some (Some (RateLimitError
                  (errorBase decode_errBody 429 respBody
                     (Header_Get (Header resp) "X-Request-Id"))
                  (retryAfterOf (Header resp))),
          exchanged_at m r).
Proof.
  intros Hout Hbody Hstatus. cbn [loop].
  rewrite Z.ltb_irrefl, request_built, Hout, Hbody, Hstatus.
  rewrite mapError_kind. reflexivity.
Qed.

Hypothesis retries_end : m < max_int64.

(** The shape of every run of the loop: attempts that all send [req],
    one sleep between two of them, each sleep with its cause. *)
Lemma loop_shape (fuel : nat) :
  forall (attempt : Z) (lastErr : option error) (r : Run),
    0 <= attempt -> (Z.to_nat (m + 1 - attempt) < fuel)%nat ->
    exists res r' ds,
      run_loop fuel attempt lastErr r = Some (res, r') /\
      trace r' = trace r ++ (if m <? attempt then []
                             else attempts_from attempt req ds) /\
      (attempt <= m -> attempt + Z.of_nat (length ds) <= m) /\
      explained attempt ds.
Proof.
  induction fuel as [|fuel IH]; intros attempt lastErr r Hat Hfuel; [lia|].
  cbn [loop]. destruct (Z.ltb_spec m attempt) as [Hgt|Hle].
  { exists lastErr, r, []. rewrite List.app_nil_r. repeat split. lia. }
  rewrite request_built.
  set (ex := httpClient_Do attempt (clock r)).
  set (r1 := mkRun _ _).
  assert (Hstop : forall res : option error,
            exists res' r' ds,
              Some (res, r1) = Some (res', r') /\
              trace r' = trace r ++ attempts_from attempt req ds /\
              (attempt <= m -> attempt + Z.of_nat (length ds) <= m) /\
              explained attempt ds).
  { intros res. exists res, r1, []. repeat split. cbn. lia. }
  assert (Hwrap : wrap64 (attempt + 1) = attempt + 1).
  { apply wrap64_id. unfold in_int64, min_int64, max_int64 in *. lia. }
  assert (Hnext : forall lastErr' d,
            attempt < m -> sleep_cause attempt d ->
            exists res' r' ds,
              run_loop fuel (wrap64 (attempt + 1)) lastErr' (sleep d r1)
              = Some (res', r') /\
              trace r' = trace r ++ attempts_from attempt req ds /\
              (attempt <= m -> attempt + Z.of_nat (length ds) <= m) /\
              explained attempt ds).
  { intros lastErr' d Hlt Hd. rewrite Hwrap.
    destruct (IH (attempt + 1) lastErr' (sleep d r1))
      as (res' & r' & ds & E & Htr & Hlen & Hex); [lia | lia |].
    exists res', r', (d :: ds). split; [exact E|]. split; [|split].
    - rewrite Htr. rewrite (proj2 (Z.ltb_ge m (attempt + 1))) by lia.
      cbn [sleep trace r1 attempts_from]. rewrite <- !List.app_assoc. reflexivity.
    - intros _. cbn [length]. lia.
    - split; assumption. }
  assert (Hlast : forall lastErr',
            ~ attempt < m ->
            exists res' r' ds,
              run_loop fuel (wrap64 (attempt + 1)) lastErr' r1 = Some (res', r') /\
              trace r' = trace r ++ attempts_from attempt req ds /\
              (attempt <= m -> attempt + Z.of_nat (length ds) <= m) /\
              explained attempt ds).
  { intros lastErr' Hnlt. rewrite Hwrap.
    destruct (IH (attempt + 1) lastErr' r1) as (res' & r' & ds & E & Htr & _);
      [lia | lia |].
    rewrite (proj2 (Z.ltb_lt m (attempt + 1))) in Htr by lia.
    rewrite List.app_nil_r in Htr.
    exists res', r', []. repeat split; [exact E | exact Htr | cbn; lia]. }
  assert (Hbackoff : sleep_cause attempt
                       (backoff_duration attempt (rand_Int63 attempt)))
    by now left.
  destruct (outcome ex) as [err|resp] eqn:Eout.
  - destruct (ctx_Err ctx (clock r1)); [apply Hstop|].
    destruct (Z.ltb_spec attempt m); [now apply Hnext | apply Hstop].
  - destruct (Body resp) as [respBody|err].
    + destruct ((200 <=? StatusCode resp) && (StatusCode resp <? 300)).
      * destruct out as [unmarshal|]; [|apply Hstop].
        destruct (StatusCode resp =? 204); [apply Hstop|].
        destruct (unmarshal respBody); apply Hstop.
      * rewrite mapError_kind. cbv zeta.
        repeat match goal with
          | |- context [if ?c then _ else _] =>
              lazymatch c with
              | context [StatusCode] => destruct c eqn:?
              end
          end; try apply Hstop.
        -- destruct (Z.ltb_spec attempt m); [|apply Hstop].
           apply Hnext; [assumption|]. right. exists (clock r), resp.
           split; [exact Eout|]. split; [lia | reflexivity].
        -- destruct (Z.ltb_spec attempt m); unfold backoff.
           ++ apply Hnext; assumption.
           ++ apply Hlast. lia.
    + destruct (Z.ltb_spec attempt m); [now apply Hnext | apply Hstop].
Qed.
End Shape.

Section Bounds.
Variable decode_errBody : list byte -> errBody.
Variable newRequest_err : string -> string -> option string.
Variable query_Encode : list (string * list string) -> string.
Variable httpClient_Do : Z -> Z -> Exchange.
Variable rand_Int63 : Z -> Z.

Local Abbreviation call :=
  (do decode_errBody newRequest_err query_Encode httpClient_Do rand_Int63).

Lemma loop_request_error (t : transport) (ctx : Context) (method u : string)
    (body : Payload) (out : option (list byte -> option string))
    (rc : requestConfig) (m : Z) (fuel : nat) (attempt : Z)
    (lastErr : option error) (r : Run) (err : string) :
  newRequest_err method u = Some err ->
  exists res,
    loop decode_errBody newRequest_err httpClient_Do rand_Int63
         t ctx method u body out rc m (S fuel) attempt lastErr r
    = Some (res, r).
Proof.
  intros E. cbn [loop]. rewrite E.
  destruct (m <? attempt); eexists; reflexivity.
Qed.

(** X1.  Whatever the server and the network do, [do] returns: with a
    retry limit [m] below the largest [int] it makes at most [m + 1] calls
    of [httpClient.Do] and at most [m] calls of [time.Sleep], fewer
    sleeps than dispatches. *)
Theorem do_attempts_bounded (fuel : nat) (now : Z) (t : transport)
    (ctx : Context) (method path : string)
    (query : list (string * list string)) (body : Payload)
    (out : option (list byte -> option string)) (opts : list RequestOption) :
  retryLimit t opts < max_int64 ->
  (Z.to_nat (retryLimit t opts + 1) < fuel)%nat ->
  exists res run,
    call fuel now t ctx method path query body out opts = Some (res, run) /\
    Z.of_nat (dispatches (trace run)) <= Z.max 0 (retryLimit t opts + 1) /\
    Z.of_nat (sleeps (trace run)) <= Z.max 0 (retryLimit t opts) /\
    (trace run = [] \/ (sleeps (trace run) < dispatches (trace run))%nat).
Proof.
  intros Hend Hfuel.
  assert (Hnone : forall res : option error,
            exists res' run,
              Some (res, mkRun now []) = Some (res', run) /\
              Z.of_nat (dispatches (trace run))
              <= Z.max 0 (retryLimit t opts + 1) /\
              Z.of_nat (sleeps (trace run)) <= Z.max 0 (retryLimit t opts) /\
              (trace run = [] \/
               (sleeps (trace run) < dispatches (trace run))%nat)).
  { intros res. exists res, (mkRun now []). cbn. repeat split; try lia. now left. }
  destruct body as [|bodyBytes|err] eqn:Eb; [| |apply Hnone];
    rewrite <- Eb; (rewrite do_loop by (rewrite Eb; exact I));
    (destruct (newRequest_err method (requestURL query_Encode t path query))
       as [err|] eqn:Ereq;
     [ destruct fuel as [|fuel]; [lia|];
       destruct (loop_request_error t ctx method _ body out
                   (requestConfigOf t opts) (retryLimit t opts) fuel 0 None
                   (mkRun now []) err Ereq) as (res & ->); apply Hnone
     | destruct (loop_shape decode_errBody newRequest_err httpClient_Do
                   rand_Int63 t ctx method _ body out (requestConfigOf t opts)
                   (retryLimit t opts) Ereq Hend fuel 0 None (mkRun now []))
         as (res & run & ds & -> & Htr & Hlen & _); [lia | lia |];
       exists res, run; split; [reflexivity|];
       cbn [trace app] in Htr; rewrite Htr;
       destruct (Z.ltb_spec (retryLimit t opts) 0);
       [ cbn; repeat split; try lia; now left
       | destruct (counts_attempts_from
                     (buildRequest t method (requestURL query_Encode t path query)
                        body (requestConfigOf t opts)) ds 0) as (-> & ->);
         specialize (Hlen ltac:(lia)); repeat split; try lia; right; lia ] ]).
Qed.

(** X2.  Every attempt of a call sends the same request (method, URL,
    headers, idempotency key and body), the attempts are numbered 0, 1, 2,
    ..., exactly one sleep separates two consecutive attempts, and each
    sleep is either the backoff of the attempt before it or the
    [Retry-After] wait of a 429 response to that attempt. *)
Theorem do_resends_same_request (fuel : nat) (now : Z) (t : transport)
    (ctx : Context) (method path : string)
    (query : list (string * list string)) (body : Payload)
    (out : option (list byte -> option string)) (opts : list RequestOption) :
  marshals body ->
  newRequest_err method (requestURL query_Encode t path query) = None ->
  0 <= retryLimit t opts < max_int64 ->
  (Z.to_nat (retryLimit t opts + 1) < fuel)%nat ->
  exists res run ds,
    call fuel now t ctx method path query body out opts = Some (res, run) /\
    trace run
    = attempts_from 0
        (buildRequest t method (requestURL query_Encode t path query) body
           (requestConfigOf t opts)) ds /\
    Z.of_nat (length ds) <= retryLimit t opts /\
    explained httpClient_Do rand_Int63 0 ds.
Proof.
  intros Hbody Hreq Hm Hfuel. rewrite do_loop by assumption.
  destruct (loop_shape decode_errBody newRequest_err httpClient_Do
              rand_Int63 t ctx method _ body out (requestConfigOf t opts)
              (retryLimit t opts) Hreq) with (fuel := fuel) (attempt := 0)
              (lastErr := @None error) (r := mkRun now [])
    as (res & run & ds & -> & Htr & Hlen & Hex); try lia.
  exists res, run, ds. split; [reflexivity|].
  rewrite (proj2 (Z.ltb_ge (retryLimit t opts) 0)) in Htr by lia.
  split; [exact Htr|]. split; [lia | exact Hex].
Qed.

(** X3.  With a negative retry limit ([WithMaxRetries(-1)] or
    [WithRequestRetries(-1)]) the loop body never runs: [do] returns nil
    without building or sending a request. *)
Theorem do_negative_retries_sends_nothing (fuel : nat) (now : Z)
    (t : transport) (ctx : Context) (method path : string)
    (query : list (string * list string)) (body : Payload)
    (out : option (list byte -> option string)) (opts : list RequestOption) :
  marshals body -> retryLimit t opts < 0 ->
  call (S fuel) now t ctx method path query body out opts
  = Some (None, mkRun now []).
Proof.
  intros Hbody Hneg. rewrite do_loop by assumption.
  cbn [loop]. now rewrite (proj2 (Z.ltb_lt (retryLimit t opts) 0)).
Qed.

(** X4.  A 2xx response whose body does not unmarshal into [out] ends the
    call with an [Error], also when retries remain: after [n] retried 500
    responses the call has made exactly [n + 1] dispatches. *)
Theorem do_undecodable_response_is_final (fuel : nat) (now : Z)
    (t : transport) (ctx : Context) (method path : string)
    (query : list (string * list string)) (body : Payload)
    (unmarshal : list byte -> option string) (opts : list RequestOption)
    (n : nat) (err : string) :
  marshals body ->
  newRequest_err method (requestURL query_Encode t path query) = None ->
  in_int64 (retryLimit t opts) -> Z.of_nat n <= retryLimit t opts ->
  (forall i clk, 0 <= i < Z.of_nat n -> responds 500 (httpClient_Do i clk)) ->
  (forall clk, exists resp respBody,
     outcome (httpClient_Do (Z.of_nat n) clk) = Responded resp /\
     Body resp = BodyOk respBody /\
     200 <= StatusCode resp < 300 /\ StatusCode resp <> 204 /\
     unmarshal respBody = Some err) ->
  exists run,
    call (S n + fuel)%nat now t ctx method path query body (Some unmarshal) opts
    = Some (Some (Error ("failed to unmarshal response: " +:+ err)), run) /\
    dispatches (trace run) = S n.
Proof.
  intros Hbody Hreq Hm Hn H500 Hbad. rewrite do_loop by assumption.
  replace (S n + fuel)%nat with (n + S fuel)%nat by lia.
  destruct (loop_500s decode_errBody newRequest_err httpClient_Do rand_Int63
              t ctx method (requestURL query_Encode t path query) body
              (Some unmarshal) (requestConfigOf t opts) (retryLimit t opts)
              Hreq Hm n (S fuel) 0 None (mkRun now []))
    as (lastErr' & r' & -> & Hcount); try lia.
  { intros i clk Hi. apply H500. lia. }
  rewrite Z.add_0_l.
  destruct (Hbad (clock r')) as (resp & respBody & Hout & Hrb & H2xx & H204 & Eun).
  rewrite (loop_undecodable decode_errBody newRequest_err httpClient_Do
             rand_Int63 t ctx method _ body (Some unmarshal) _ _ Hreq
             fuel (Z.of_nat n) lastErr' r' resp respBody unmarshal err)
    by auto.
  eexists. split; [reflexivity|].
  rewrite dispatches_exchanged, Hcount. reflexivity.
Qed.

(** X5.  When every call of [httpClient.Do] fails with the error [err]
    and the context is never done, [do] makes [maxRetries + 1] attempts,
    sleeps [backoff(i)] after each attempt [i] but the last, and returns a
    [NetworkError] that carries [err]. *)
Theorem do_network_failure (fuel : nat) (now : Z) (t : transport)
    (ctx : Context) (method path : string)
    (query : list (string * list string)) (body : Payload)
    (out : option (list byte -> option string)) (opts : list RequestOption)
    (err : string) :
  marshals body ->
  newRequest_err method (requestURL query_Encode t path query) = None ->
  0 <= retryLimit t opts -> in_int64 (retryLimit t opts) ->
  doneAt ctx = None ->
  (forall i clk, outcome (httpClient_Do i clk) = Failed err) ->
  exists run,
    call (S (Z.to_nat (retryLimit t opts)) + fuel)%nat
         now t ctx method path query body out opts
    = Some (Some (NetworkError err err), run) /\
    trace run
    = attempts_from 0
        (buildRequest t method (requestURL query_Encode t path query) body
           (requestConfigOf t opts))
        (List.map (fun i => backoff_duration i (rand_Int63 i))
                  (seqZ 0 (retryLimit t opts))).
Proof.
  intros Hbody Hreq Hm0 Hm Hctx Hfail. rewrite do_loop by assumption.
  set (m := retryLimit t opts) in *.
  replace (S (Z.to_nat m) + fuel)%nat with (Z.to_nat m + S fuel)%nat by lia.
  destruct (loop_iter decode_errBody newRequest_err httpClient_Do rand_Int63
              t ctx method (requestURL query_Encode t path query) body out
              (requestConfigOf t opts) m
              (fun i => backoff_duration i (rand_Int63 i))
              (Z.to_nat m) (S fuel) 0 None (mkRun now []))
    as (lastErr' & r' & -> & Htr); try lia.
  { intros fuel' i lastErr r Hi. eexists.
    apply (loop_failed_retry decode_errBody newRequest_err httpClient_Do
             rand_Int63 t ctx method _ body out _ m Hreq Hm fuel' i lastErr r err);
      [lia | apply Hfail |].
    unfold ctx_Err. now rewrite Hctx. }
  rewrite Z2Nat.id, Z.add_0_l in * by lia.
  rewrite (loop_failed_last decode_errBody newRequest_err httpClient_Do
             rand_Int63 t ctx method _ body out _ m Hreq fuel lastErr' r' err)
    by auto.
  eexists. split; [reflexivity|].
  cbn [exchanged trace]. rewrite Htr. cbn [trace app].
  pose proof (attempts_from_seq t method (requestURL query_Encode t path query)
                body (requestConfigOf t opts)
                (fun i => backoff_duration i (rand_Int63 i)) (Z.to_nat m) 0) as E.
  rewrite Z2Nat.id, Z.add_0_l in E by lia. exact E.
Qed.

(** X6.  When every attempt is answered by the same 429 response, [do]
    makes [maxRetries + 1] attempts, waits the [Retry-After] of the
    response (never the backoff) after each attempt but the last, and
    returns the [RateLimitError] of the last response without sleeping
    again. *)
Theorem do_rate_limited_throughout (fuel : nat) (now : Z) (t : transport)
    (ctx : Context) (method path : string)
    (query : list (string * list string)) (body : Payload)
    (out : option (list byte -> option string)) (opts : list RequestOption)
    (resp : Response) (respBody : list byte) :
  marshals body ->
  newRequest_err method (requestURL query_Encode t path query) = None ->
  0 <= retryLimit t opts -> in_int64 (retryLimit t opts) ->
  (forall i clk, outcome (httpClient_Do i clk) = Responded resp) ->
  Body resp = BodyOk respBody -> StatusCode resp = 429 ->
  exists run,
    call (S (Z.to_nat (retryLimit t opts)) + fuel)%nat
         now t ctx method path query body out opts
    = Some (Some (RateLimitError
                    (errorBase decode_errBody 429 respBody
                       (Header_Get (Header resp) "X-Request-Id"))
                    (retryAfterOf (Header resp))), run) /\
    trace run
    = attempts_from 0
        (buildRequest t method (requestURL query_Encode t path query) body
           (requestConfigOf t opts))
        (List.map (fun _ => wrap64 (retryAfterOf (Header resp) * Second))
                  (seqZ 0 (retryLimit t opts))).
Proof.
  intros Hbody Hreq Hm0 Hm Hresp Hrb H429. rewrite do_loop by assumption.
  set (m := retryLimit t opts) in *.
  replace (S (Z.to_nat m) + fuel)%nat with (Z.to_nat m + S fuel)%nat by lia.
  destruct (loop_iter decode_errBody newRequest_err httpClient_Do rand_Int63
              t ctx method (requestURL query_Encode t path query) body out
              (requestConfigOf t opts) m
              (fun _ => wrap64 (retryAfterOf (Header resp) * Second))
              (Z.to_nat m) (S fuel) 0 None (mkRun now []))
    as (lastErr' & r' & -> & Htr); try lia.
  { intros fuel' i lastErr r Hi. eexists.
    apply (loop_rate_limited decode_errBody newRequest_err httpClient_Do
             rand_Int63 t ctx method _ body out _ m Hreq Hm fuel' i lastErr r
             resp respBody); [lia | apply Hresp | assumption | assumption]. }
  rewrite Z2Nat.id, Z.add_0_l in * by lia.
  rewrite (loop_rate_limited_last decode_errBody newRequest_err httpClient_Do
             rand_Int63 t ctx method _ body out _ m Hreq fuel lastErr' r'
             resp respBody) by auto.
  eexists. split; [reflexivity|].
  cbn [exchanged trace]. rewrite Htr. cbn [trace app].
  pose proof (attempts_from_seq t method (requestURL query_Encode t path query)
                body (requestConfigOf t opts)
                (fun _ => wrap64 (retryAfterOf (Header resp) * Second))
                (Z.to_nat m) 0) as E.
  rewrite Z2Nat.id, Z.add_0_l in E by lia. exact E.
Qed.

(** The loop reads the transport and the request configuration only for
    the API key and the idempotency key. *)
Lemma loop_config (t t' : transport) (rc rc' : requestConfig)
    (ctx : Context) (method u : string) (body : Payload)
    (out : option (list byte -> option string)) (m : Z) :
  apiKey t = apiKey t' -> idempotencyKey rc = idempotencyKey rc' ->
  forall (fuel : nat) (attempt : Z) (lastErr : option error) (r : Run),
    loop decode_errBody newRequest_err httpClient_Do rand_Int63
         t ctx method u body out rc m fuel attempt lastErr r
    = loop decode_errBody newRequest_err httpClient_Do rand_Int63
         t' ctx method u body out rc' m fuel attempt lastErr r.
Proof.
  intros Hkey Hidem.
  assert (Hreq : buildRequest t method u body rc
                 = buildRequest t' method u body rc').
  { unfold buildRequest. now rewrite Hkey, Hidem. }
  induction fuel as [|fuel IH]; intros attempt lastErr r; [reflexivity|].
  cbn [loop]. rewrite Hreq.
  repeat match goal with
    | |- ?x = ?x => reflexivity
    | |- loop _ _ _ _ _ _ _ _ _ _ _ _ _ _ _ _ = _ => apply IH
    | |- match ?c with _ => _ end = match ?c with _ => _ end => destruct c
    end.
Qed.

Lemma builtin_agree (opts : list RequestOption) :
  Forall builtin opts ->
  forall rc rc', agree rc rc' ->
    agree (fold_left (fun rc opt => opt rc) opts rc)
          (fold_left (fun rc opt => opt rc) opts rc').
Proof.
  induction 1 as [|opt opts Hopt _ IH]; intros rc rc' (Hm & Hk);
    cbn [fold_left]; [now split|].
  apply IH.
  destruct Hopt as [(d & ->) | [(n & ->) | (key & ->)]];
    split; cbn; first [assumption | reflexivity].
Qed.

Lemma do_config (fuel : nat) (now : Z) (t t' : transport)
    (ctx : Context) (method path : string)
    (query : list (string * list string)) (body : Payload)
    (out : option (list byte -> option string))
    (opts opts' : list RequestOption) :
  apiKey t = apiKey t' -> baseURL t = baseURL t' ->
  maxRetries t = maxRetries t' ->
  agree (requestConfigOf t opts) (requestConfigOf t' opts') ->
  call fuel now t ctx method path query body out opts
  = call fuel now t' ctx method path query body out opts'.
Proof.
  intros Hkey Hurl Hmax (Hm & Hk). unfold do. cbv zeta.
  fold (requestConfigOf t opts) (requestConfigOf t' opts').
  rewrite Hm, Hurl, Hmax.
  destruct body; try reflexivity; now apply loop_config.
Qed.

(** X7.  [WithRequestTimeout] has no effect on a call: [do] stores the
    value in the request configuration and never reads it, and it does
    not read the timeout of the transport either.  (The options are the
    ones the package provides.) *)
Theorem do_ignores_request_timeout (fuel : nat) (now : Z) (t : transport)
    (ctx : Context) (method path : string)
    (query : list (string * list string)) (body : Payload)
    (out : option (list byte -> option string))
    (before after : list RequestOption) (d d' : Z) :
  Forall builtin before -> Forall builtin after ->
  let t' := mkTransport (apiKey t) (baseURL t) d' (maxRetries t) (debug t) in
  call fuel now t ctx method path query body out
       (before ++ WithRequestTimeout d :: after)
  = call fuel now t ctx method path query body out (before ++ after) /\
  call fuel now t' ctx method path query body out (before ++ after)
  = call fuel now t ctx method path query body out (before ++ after).
Proof.
  intros Hbefore Hafter t'. split.
  - apply do_config; try reflexivity.
    unfold requestConfigOf. rewrite !fold_left_app. cbn [fold_left].
    apply builtin_agree; [assumption|]. split; reflexivity.
  - apply do_config; try reflexivity.
    unfold requestConfigOf. apply builtin_agree.
    + apply Forall_app. now split.
    + split; reflexivity.
Qed.

(** X8.  Whatever the status and the body, the error [mapError] returns
    embeds an [APIError] with the status and the request id of the
    response and with a message and a code that are not empty. *)
Theorem mapError_base (status : Z) (body : list byte) (requestID : string)
    (headers : gmap string string) :
  exists base,
    baseOf (mapError decode_errBody status body requestID headers) = Some base /\
    base = errorBase decode_errBody status body requestID /\
    Status base = status /\ RequestID base = requestID /\
    Message base <> EmptyString /\ Code base <> EmptyString.
Proof.
  exists (errorBase decode_errBody status body requestID). split.
  - rewrite mapError_kind. cbv zeta.
    repeat match goal with
      | |- context [if ?c then _ else _] => destruct c
      end; reflexivity.
  - split; [reflexivity|]. split; [reflexivity|]. split; [reflexivity|].
    unfold errorBase. cbn [Message Code]. split.
    + repeat case_bool_decide; try assumption;
        apply StringsFacts.append_nonempty_l; discriminate.
    + repeat case_bool_decide; try assumption; discriminate.
Qed.

Lemma backoff_duration_bound (attempt u : Z) :
  0 <= attempt <= 53 -> 0 <= u < 2 ^ 63 ->
  0 <= backoff_duration attempt u <= 11 * Second.
Proof.
  intros Hk Hu.
  pose proof (backoff_base_curve attempt Hk) as Hbase.
  pose proof (jitter_range u Hu) as Hj.
  pose proof (backoff_base_values attempt ltac:(lia)) as Hv.
  set (base := Z.min (1000 * 2 ^ attempt) 10000) in *.
  set (sum := Float64.round53 (base * 2 ^ 63 + jitter u)).
  assert (Hsum : base * 2 ^ 63 <= sum <= (base + 1000) * 2 ^ 63).
  { cbn [In] in Hv. unfold sum.
    destruct Hv as [E|[E|[E|[E|[E|[]]]]]]; rewrite <- E;
      (apply Float64Facts.round53_between;
       [lia | vm_compute; reflexivity | vm_compute; reflexivity | lia]). }
  assert (Hb : 1000 <= base <= 10000) by (cbn [In] in Hv; lia).
  assert (Hms : base <= Z.quot sum (2 ^ 63) <= base + 1000).
  { rewrite Z.quot_div_nonneg by lia.
    change (2 ^ 63) with 9223372036854775808 in *.
    Z.div_mod_to_equations. lia. }
  unfold backoff_duration. rewrite Hbase. fold sum.
  rewrite Float64Facts.to_int64_id
    by (unfold in_int64, min_int64, max_int64; lia).
  rewrite wrap64_id
    by (unfold in_int64, min_int64, max_int64, Millisecond; lia).
  unfold Millisecond, Second. lia.
Qed.

Lemma total_sleep_bound (req : Request) (ds : list Z) :
  (forall i clk resp, outcome (httpClient_Do i clk) = Responded resp ->
                      StatusCode resp <> 429) ->
  (forall i, 0 <= rand_Int63 i < 2 ^ 63) ->
  forall attempt,
    0 <= attempt -> attempt + Z.of_nat (length ds) <= 54 ->
    explained httpClient_Do rand_Int63 attempt ds ->
    total_sleep (attempts_from attempt req ds)
    <= Z.of_nat (length ds) * (11 * Second).
Proof.
  intros H429 Hrand.
  induction ds as [|d ds IH]; intros attempt Hat Hlen Hex; [cbn; lia|].
  cbn [length] in Hlen. destruct Hex as (Hd & Hex).
  specialize (IH (attempt + 1) ltac:(lia) ltac:(lia) Hex).
  cbn [attempts_from total_sleep length].
  destruct Hd as [-> | (clk & resp & Hout & Hst & _)];
    [|now destruct (H429 attempt clk resp Hout)].
  pose proof (backoff_duration_bound attempt (rand_Int63 attempt)
                ltac:(lia) (Hrand attempt)).
  lia.
Qed.

(** X9.  The time a call spends sleeping is bounded: with a retry limit
    of at most 54 and no 429 among the responses, the sleeps of a call add
    up to at most 11 seconds per retry. *)
Theorem do_total_backoff (fuel : nat) (now : Z) (t : transport)
    (ctx : Context) (method path : string)
    (query : list (string * list string)) (body : Payload)
    (out : option (list byte -> option string)) (opts : list RequestOption) :
  retryLimit t opts <= 54 ->
  (forall i, 0 <= rand_Int63 i < 2 ^ 63) ->
  (forall i clk resp, outcome (httpClient_Do i clk) = Responded resp ->
                      StatusCode resp <> 429) ->
  (Z.to_nat (retryLimit t opts + 1) < fuel)%nat ->
  exists res run,
    call fuel now t ctx method path query body out opts = Some (res, run) /\
    total_sleep (trace run) <= Z.max 0 (retryLimit t opts) * (11 * Second).
Proof.
  intros Hm Hrand H429 Hfuel.
  assert (Hnone : forall res : option error,
            exists res' run,
              Some (res, mkRun now []) = Some (res', run) /\
              total_sleep (trace run)
              <= Z.max 0 (retryLimit t opts) * (11 * Second)).
  { intros res. exists res, (mkRun now []). split; [reflexivity|].
    cbn. unfold Second. lia. }
  destruct body as [|bodyBytes|err] eqn:Eb; [| |apply Hnone];
    rewrite <- Eb; (rewrite do_loop by (rewrite Eb; exact I));
    (destruct (newRequest_err method (requestURL query_Encode t path query))
       as [err|] eqn:Ereq;
     [ destruct fuel as [|fuel]; [lia|];
       destruct (loop_request_error t ctx method _ body out
                   (requestConfigOf t opts) (retryLimit t opts) fuel 0 None
                   (mkRun now []) err Ereq) as (res & ->); apply Hnone
     | destruct (loop_shape decode_errBody newRequest_err httpClient_Do
                   rand_Int63 t ctx method _ body out (requestConfigOf t opts)
                   (retryLimit t opts) Ereq
                   ltac:(unfold max_int64; lia) fuel 0 None (mkRun now []))
         as (res & run & ds & -> & Htr & Hlen & Hex); [lia | lia |];
       exists res, run; split; [reflexivity|];
       cbn [trace app] in Htr; rewrite Htr;
       destruct (Z.ltb_spec (retryLimit t opts) 0);
       [ cbn; unfold Second; lia
       | specialize (Hlen ltac:(lia));
         pose proof (total_sleep_bound
                       (buildRequest t method
                          (requestURL query_Encode t path query) body
                          (requestConfigOf t opts)) ds H429 Hrand 0
                       ltac:(lia) ltac:(lia) Hex);
         unfold Second in *; nia ] ]).
Qed.

End Bounds.

(** A host that refuses every connection, and a server that answers
    every request with a 429 and [Retry-After: 2]. *)
Definition unreachable (_ _ : Z) : Exchange :=
  mkExchange 0 (Failed "connection refused").
Definition busy_response : Response :=
  mkResponse 429 {[ "Retry-After" := "2" ]} (BodyOk []).
Definition busy_server (_ _ : Z) : Exchange :=
  mkExchange 0 (Responded busy_response).
Definition truncated (_ : list byte) : option string :=
  Some "unexpected end of JSON input".

Lemma flaky_500 (i clk : Z) : 0 <= i < 2 -> responds 500 (flaky_server i clk).
Proof.
  intros Hi. exists (mkResponse 500 ∅ (BodyOk [])), [].
  unfold flaky_server. destruct (Z.ltb_spec i 2); [|lia]. repeat split.
Qed.

Lemma flaky_never_429 (i clk : Z) (resp : Response) :
  outcome (flaky_server i clk) = Responded resp -> StatusCode resp <> 429.
Proof.
  unfold flaky_server, answer. destruct (i <? 2); cbn [outcome];
    intros E; injection E as <-; discriminate.
Qed.

Lemma do_attempts_bounded_witness :
  exists res run,
    do no_envelope builds no_query flaky_server no_jitter 5 0 client
       background "GET" "/api/sources" [] NoBody (Some any_json) []
    = Some (res, run) /\
    Z.of_nat (dispatches (trace run)) <= Z.max 0 (retryLimit client [] + 1) /\
    Z.of_nat (sleeps (trace run)) <= Z.max 0 (retryLimit client []) /\
    (trace run = [] \/ (sleeps (trace run) < dispatches (trace run))%nat).
Proof.
  apply do_attempts_bounded; [vm_compute; reflexivity | vm_compute; lia].
Defined.

Lemma do_resends_same_request_witness :
  exists res run ds,
    do no_envelope builds no_query flaky_server no_jitter 5 0 client
       background "GET" "/api/sources" [] NoBody (Some any_json) []
    = Some (res, run) /\
    trace run
    = attempts_from 0
        (buildRequest client "GET" (requestURL no_query client "/api/sources" [])
           NoBody (requestConfigOf client [])) ds /\
    Z.of_nat (length ds) <= retryLimit client [] /\
    explained flaky_server no_jitter 0 ds.
Proof.
  apply do_resends_same_request;
    [exact I | reflexivity | vm_compute; split; [discriminate | reflexivity]
    | vm_compute; lia].
Defined.

Lemma do_negative_retries_sends_nothing_witness :
  do no_envelope builds no_query missing_server no_jitter 1 0 client
     background "DELETE" "/api/sources/src_1" [] NoBody None
     [WithRequestRetries (-1)]
  = Some (None, mkRun 0 []).
Proof.
  apply (do_negative_retries_sends_nothing no_envelope builds no_query
           missing_server no_jitter 0);
    [exact I | vm_compute; reflexivity].
Defined.

Lemma do_undecodable_response_is_final_witness :
  exists run,
    do no_envelope builds no_query flaky_server no_jitter 3 0 client
       background "GET" "/api/sources" [] NoBody (Some truncated) []
    = Some (Some (Error ("failed to unmarshal response: "
                         +:+ "unexpected end of JSON input")), run) /\
    dispatches (trace run) = 3%nat.
Proof.
  apply (do_undecodable_response_is_final no_envelope builds no_query
           flaky_server no_jitter 0 0 client background "GET" "/api/sources"
           [] NoBody truncated [] 2 "unexpected end of JSON input").
  - exact I.
  - reflexivity.
  - vm_compute. split; discriminate.
  - vm_compute. discriminate.
  - intros i clk Hi. now apply flaky_500.
  - intros clk. exists (mkResponse 200 ∅ (BodyOk [])), [].
    repeat split; vm_compute; discriminate.
Defined.

Lemma do_network_failure_witness :
  exists run,
    do no_envelope builds no_query unreachable no_jitter 4 0 client
       background "GET" "/api/sources" [] NoBody (Some any_json) []
    = Some (Some (NetworkError "connection refused" "connection refused"),
            run) /\
    trace run
    = attempts_from 0
        (buildRequest client "GET" (requestURL no_query client "/api/sources" [])
           NoBody (requestConfigOf client []))
        (List.map (fun i => backoff_duration i (no_jitter i))
                  (seqZ 0 (retryLimit client []))).
Proof.
  apply (do_network_failure no_envelope builds no_query unreachable no_jitter
           0 0 client background "GET" "/api/sources" [] NoBody
           (Some any_json) [] "connection refused").
  - exact I.
  - reflexivity.
  - vm_compute. discriminate.
  - vm_compute. split; discriminate.
  - reflexivity.
  - intros i clk. reflexivity.
Defined.

Lemma do_rate_limited_throughout_witness :
  exists run,
    do no_envelope builds no_query busy_server no_jitter 4 0 client
       background "GET" "/api/sources" [] NoBody (Some any_json) []
    = Some (Some (RateLimitError
                    (errorBase no_envelope 429 []
                       (Header_Get (Header busy_response) "X-Request-Id"))
                    (retryAfterOf (Header busy_response))), run) /\
    trace run
    = attempts_from 0
        (buildRequest client "GET" (requestURL no_query client "/api/sources" [])
           NoBody (requestConfigOf client []))
        (List.map (fun _ => wrap64 (retryAfterOf (Header busy_response) * Second))
                  (seqZ 0 (retryLimit client []))).
Proof.
  apply (do_rate_limited_throughout no_envelope builds no_query busy_server
           no_jitter 0 0 client background "GET" "/api/sources" [] NoBody
           (Some any_json) [] busy_response []).
  - exact I.
  - reflexivity.
  - vm_compute. discriminate.
  - vm_compute. split; discriminate.
  - intros i clk. reflexivity.
  - reflexivity.
  - reflexivity.
Defined.

Lemma do_ignores_request_timeout_witness :
  do no_envelope builds no_query flaky_server no_jitter 5 0 client
     background "GET" "/api/sources" [] NoBody (Some any_json)
     ([WithRequestRetries 1] ++ WithRequestTimeout Second
        :: [WithIdempotencyKey "key-1"])
  = do no_envelope builds no_query flaky_server no_jitter 5 0 client
       background "GET" "/api/sources" [] NoBody (Some any_json)
       ([WithRequestRetries 1] ++ [WithIdempotencyKey "key-1"]).
Proof.
  apply (do_ignores_request_timeout no_envelope builds no_query flaky_server
           no_jitter 5 0 client background "GET" "/api/sources" [] NoBody
           (Some any_json) [WithRequestRetries 1] [WithIdempotencyKey "key-1"]
           Second Millisecond).
  - apply List.Forall_cons; [|apply List.Forall_nil].
    right. left. now exists 1.
  - apply List.Forall_cons; [|apply List.Forall_nil].
    right. right. now exists "key-1".
Defined.

Lemma do_total_backoff_witness :
  exists res run,
    do no_envelope builds no_query flaky_server no_jitter 5 0 client
       background "GET" "/api/sources" [] NoBody (Some any_json) []
    = Some (res, run) /\
    total_sleep (trace run) <= Z.max 0 (retryLimit client []) * (11 * Second).
Proof.
  apply do_total_backoff.
  - vm_compute. discriminate.
  - intros i. vm_compute. split; [discriminate | reflexivity].
  - apply flaky_never_429.
  - vm_compute. lia.
Defined.

End TransportMore.

(** * More on strings *)

Module StringsMore.
Import Strings.

Lemma prefix_append (p s : string) :
  String.prefix p s = true -> exists rest, s = p +:+ rest.
Proof.
  revert s. induction p as [|a p IH]; intros s H.
  - now exists s.
  - destruct s as [|b s]; [discriminate|]. cbn [String.prefix] in H.
    destruct (ascii_dec a b) as [->|]; [|discriminate].
    destruct (IH s H) as (rest & ->). now exists rest.
Qed.

Lemma Cut_None (sep : ascii) (s : string) :
  Cut sep s = None <->
  all_chars (fun c => negb (Ascii.eqb c sep)) s = true.
Proof.
  induction s as [|c s IH]; cbn [Cut all_chars]; [tauto|].
  destruct (Ascii.eqb c sep); cbn [negb andb]; [split; discriminate|].
  rewrite <- IH. destruct (Cut sep s) as [[b a]|]; split; congruence.
Qed.

Lemma Split_nonempty (sep : ascii) (s : string) : Split sep s <> [].
Proof.
  destruct s as [|c s]; cbn [Split]; [discriminate|].
  destruct (Ascii.eqb c sep); [discriminate|].
  destruct (Split sep s); discriminate.
Qed.

(** A property of characters that the separator has holds of a string
    exactly when it holds of its pieces. *)
Lemma all_chars_Split (p : ascii -> bool) (sep : ascii) (s : string) :
  p sep = true ->
  (all_chars p s = true <->
   Forall (fun part => all_chars p part = true) (Split sep s)).
Proof.
  intros Hsep. induction s as [|c s IH]; cbn [Split all_chars].
  - split; [repeat constructor | reflexivity].
  - destruct (Ascii.eqb_spec c sep) as [->|Hc].
    + rewrite Hsep. cbn [andb]. rewrite IH, List.Forall_cons_iff.
      cbn [all_chars]. tauto.
    + pose proof (Split_nonempty sep s) as Hne.
      destruct (Split sep s) as [|piece pieces]; [congruence|].
      rewrite andb_true_iff, IH, !List.Forall_cons_iff.
      cbn [all_chars]. rewrite andb_true_iff. tauto.
Qed.

Lemma all_chars_list (p : ascii -> bool) (s : string) :
  all_chars p s = true <->
  Forall (fun c => p c = true) (list_ascii_of_string s).
Proof.
  induction s as [|c s IH]; cbn [all_chars list_ascii_of_string].
  - split; [constructor | reflexivity].
  - rewrite andb_true_iff, List.Forall_cons_iff, IH. tauto.
Qed.

Lemma Split_append (sep : ascii) (s1 s2 : string) :
  all_chars (fun c => negb (Ascii.eqb c sep)) s1 = true ->
  Split sep (s1 +:+ String sep s2) = s1 :: Split sep s2.
Proof.
  induction s1 as [|c s1 IH]; intros H.
  - change (EmptyString +:+ String sep s2) with (String sep s2).
    cbn [Split]. now rewrite Ascii.eqb_refl.
  - cbn [all_chars] in H. apply andb_true_iff in H as (Hc & H).
    change (String c s1 +:+ String sep s2) with (String c (s1 +:+ String sep s2)).
    cbn [Split]. apply negb_true_iff in Hc. rewrite Hc, IH by assumption.
    reflexivity.
Qed.

Lemma append_assoc (s1 s2 s3 : string) : (s1 +:+ s2) +:+ s3 = s1 +:+ (s2 +:+ s3).
Proof.
  induction s1 as [|c s1 IH]; [reflexivity|].
  change (String c s1 +:+ s2) with (String c (s1 +:+ s2)).
  change (String c (s1 +:+ s2) +:+ s3) with (String c ((s1 +:+ s2) +:+ s3)).
  now rewrite IH.
Qed.

(** [strings.Split(strings.Join(parts, sep), sep)] returns the parts,
    when there is one at least and none contains the separator. *)
Lemma Split_Join (sep : ascii) (parts : list string) :
  parts <> [] ->
  Forall (fun part => all_chars (fun c => negb (Ascii.eqb c sep)) part
                      = true) parts ->
  Split sep (Client.strings_Join parts (String sep EmptyString)) = parts.
Proof.
  intros Hne H. induction H as [|part parts Hpart Hparts IH]; [congruence|].
  destruct parts as [|part' parts'].
  - cbn [Client.strings_Join]. apply StringsFacts.Split_without_sep.
    apply all_chars_list in Hpart.
    eapply List.Forall_impl; [|exact Hpart].
    intros c Hc. now apply negb_true_iff in Hc.
  - change (Client.strings_Join (part :: part' :: parts') (String sep EmptyString))
      with (part +:+ String sep EmptyString
            +:+ Client.strings_Join (part' :: parts') (String sep EmptyString)).
    change (String sep EmptyString +:+ ?s) with (String sep s).
    rewrite Split_append by assumption.
    rewrite IH by discriminate. reflexivity.
Qed.

Lemma Cut_append (sep : ascii) (s1 s2 : string) :
  all_chars (fun c => negb (Ascii.eqb c sep)) s1 = true ->
  Cut sep (s1 +:+ String sep s2) = Some (s1, s2).
Proof.
  induction s1 as [|c s1 IH]; intros H.
  - change (EmptyString +:+ String sep s2) with (String sep s2).
    cbn [Cut]. now rewrite Ascii.eqb_refl.
  - cbn [all_chars] in H. apply andb_true_iff in H as (Hc & H).
    change (String c s1 +:+ String sep s2) with (String c (s1 +:+ String sep s2)).
    cbn [Cut]. apply negb_true_iff in Hc. rewrite Hc, IH by assumption.
    reflexivity.
Qed.

Lemma all_chars_append (p : ascii -> bool) (s1 s2 : string) :
  all_chars p (s1 +:+ s2)
  = all_chars p s1 && all_chars p s2.
Proof.
  induction s1 as [|c s1 IH]; [reflexivity|].
  change (String c s1 +:+ s2) with (String c (s1 +:+ s2)).
  cbn [all_chars]. now rewrite IH, andb_assoc.
Qed.

End StringsMore.

Module WebhookMore.
Import Int IntFacts Errors Webhook WebhookProps WebhookParse StringsMore.

(** *** Secrets *)

(** The text [NewWebhook] decodes: the secret without its [whsec_]
    prefix. *)
Definition stripped (secret : string) : string :=
  if Strings.HasPrefix secret "whsec_" then Strings.drop 6 secret else secret.

(** A character of the standard alphabet, or the padding character. *)
Definition coded (c : ascii) : Prop :=
  Base64.dec c <> None \/ c = Base64.padChar.

Lemma coded_enc (v : Z) : 0 <= v < 64 -> coded (Base64.enc v).
Proof. intros Hv. left. now rewrite Base64Facts.dec_enc. Qed.

Lemma Forall_coded_encode (src : list byte) :
  Forall coded (list_ascii_of_string (Base64.EncodeToString src)).
Proof.
  induction src as [| b0 | b0 b1 | b0 b1 b2 rest IH] using Base64Facts.list_ind3.
  - constructor.
  - cbn [Base64.EncodeToString list_ascii_of_string].
    destruct (Base64Facts.sextets _ (Base64Facts.pack3_range b0 x00 x00))
      as (H0 & H1 & _).
    repeat (apply List.Forall_cons;
            [first [now right | apply coded_enc; assumption]|]).
    apply List.Forall_nil.
  - cbn [Base64.EncodeToString list_ascii_of_string].
    destruct (Base64Facts.sextets _ (Base64Facts.pack3_range b0 b1 x00))
      as (H0 & H1 & H2 & _).
    repeat (apply List.Forall_cons;
            [first [now right | apply coded_enc; assumption]|]).
    apply List.Forall_nil.
  - cbn [Base64.EncodeToString list_ascii_of_string].
    destruct (Base64Facts.sextets _ (Base64Facts.pack3_range b0 b1 b2))
      as (H0 & H1 & H2 & H3 & _).
    repeat (apply List.Forall_cons; [apply coded_enc; assumption|]).
    exact IH.
Qed.

Lemma encoded_not_prefixed (src : list byte) :
  Strings.HasPrefix (Base64.EncodeToString src) "whsec_" = false.
Proof.
  destruct (Strings.HasPrefix _ _) eqn:E; [|reflexivity]. exfalso.
  apply prefix_append in E as (rest & E).
  pose proof (Forall_coded_encode src) as H. rewrite E in H.
  rewrite StringsFacts.list_ascii_append in H.
  apply Forall_app in H as (H & _).
  cbn in H. do 5 (apply List.Forall_cons_iff in H as (_ & H)).
  apply List.Forall_cons_iff in H as ([H|H] & _); [now apply H | discriminate].
Qed.

Lemma encoded_nonempty (src : list byte) :
  src <> [] -> Base64.EncodeToString src <> EmptyString.
Proof.
  destruct src as [|b0 [|b1 [|b2 rest]]]; [congruence | | |]; discriminate.
Qed.

(** X10.  A secret that is the standard base64 encoding of a non-empty
    key, with or without the [whsec_] prefix, gives a verifier that signs
    with that key. *)
Theorem NewWebhook_encoded_key (key : list byte) :
  key <> [] ->
  NewWebhook (Base64.EncodeToString key) = Some (mkWebhook key) /\
  NewWebhook ("whsec_" +:+ Base64.EncodeToString key) = Some (mkWebhook key).
Proof.
  intros Hkey. split; unfold NewWebhook.
  - rewrite (bool_decide_eq_false_2 _ (encoded_nonempty key Hkey)).
    rewrite encoded_not_prefixed.
    now rewrite Base64Facts.DecodeString_EncodeToString.
  - rewrite bool_decide_eq_false_2 by discriminate.
    replace (Strings.HasPrefix ("whsec_" +:+ Base64.EncodeToString key) "whsec_")
      with true by (now destruct (Base64.EncodeToString key)).
    change (Strings.drop 6 ("whsec_" +:+ Base64.EncodeToString key))
      with (Base64.EncodeToString key).
    now rewrite Base64Facts.DecodeString_EncodeToString.
Qed.

Lemma quanta_corrupt (c : ascii) :
  Base64.dec c = None -> c <> Base64.padChar ->
  forall fuel src, In c src -> Base64.quanta fuel src = None.
Proof.
  intros Hdec Hpad. induction fuel as [|fuel IH]; intros src Hin; [reflexivity|].
  cbn [Base64.quanta].
  destruct src as [|c0 [|c1 [|c2 [|c3 rest]]]]; try reflexivity;
    [destruct Hin|].
  destruct (Base64.dec c0) as [d0|] eqn:E0; [|reflexivity].
  destruct (Base64.dec c1) as [d1|] eqn:E1; [|reflexivity].
  assert (Hrest : In c (c2 :: c3 :: rest)).
  { destruct Hin as [<-|[<-|Hin]]; [congruence | congruence | exact Hin]. }
  destruct (Base64.dec c2) as [d2|] eqn:E2.
  - destruct (Base64.dec c3) as [d3|] eqn:E3.
    + destruct (Base64.unpack d0 d1 d2 d3) as [[b0 b1] b2].
      rewrite IH; [reflexivity|].
      destruct Hrest as [<-|[<-|Hin']]; [congruence | congruence | exact Hin'].
    + destruct (Base64.unpack d0 d1 d2 0) as [[b0 b1] b2].
      destruct (Ascii.eqb_spec c3 Base64.padChar) as [->|]; [|reflexivity].
      case_bool_decide as Hnil; [|reflexivity]. subst rest.
      destruct Hrest as [<-|[<-|[]]]; congruence.
  - destruct (Base64.unpack d0 d1 0 0) as [[b0 b1] b2].
    destruct (Ascii.eqb_spec c2 Base64.padChar) as [->|]; [|reflexivity].
    destruct (Ascii.eqb_spec c3 Base64.padChar) as [->|]; [|reflexivity].
    case_bool_decide as Hnil; [|reflexivity]. subst rest.
    destruct Hrest as [<-|[<-|[]]]; congruence.
Qed.

(** X11.  A secret with a character outside the standard base64 alphabet
    (the [-] or [_] of the URL-safe alphabet, say) is not decoded: its
    bytes, after the [whsec_] prefix, are the key. *)
Theorem NewWebhook_raw_secret (secret : string) (c : ascii) :
  secret <> EmptyString ->
  In c (list_ascii_of_string (stripped secret)) ->
  Base64.dec c = None -> c <> Base64.padChar -> Base64.is_newline c = false ->
  NewWebhook secret
  = Some (mkWebhook (list_byte_of_string (stripped secret))).
Proof.
  intros Hne Hin Hdec Hpad Hnl. unfold NewWebhook.
  rewrite (bool_decide_eq_false_2 _ Hne). fold (stripped secret).
  unfold Base64.DecodeString.
  rewrite (quanta_corrupt c Hdec Hpad); [reflexivity|].
  apply List.filter_In. split; [exact Hin | now rewrite Hnl].
Qed.


(** *** The timestamp *)

Definition is_digit (c : ascii) : bool :=
  match Strconv.digit_val c with Some _ => true | None => false end.

(** An optional sign followed by one or more decimal digits. *)
Definition numeric (s : string) : bool :=
  match s with
  | EmptyString => false
  | String c rest =>
      if Ascii.eqb c "+" || Ascii.eqb c "-"
      then negb (bool_decide (rest = EmptyString))
           && Strings.all_chars is_digit rest
      else Strings.all_chars is_digit s
  end.

Lemma parse_digits_digits (s : string) :
  forall acc n, Strconv.parse_digits s acc = Some n ->
                Strings.all_chars is_digit s = true.
Proof.
  induction s as [|c s IH]; intros acc n H; [reflexivity|].
  cbn [Strconv.parse_digits] in H. cbn [Strings.all_chars]. unfold is_digit at 1.
  destruct (Strconv.digit_val c); [|discriminate].
  apply (IH _ _ H).
Qed.

Lemma ParseUint_digits (s : string) (n : Z) :
  Strconv.ParseUint s = Some n ->
  s <> EmptyString /\ Strings.all_chars is_digit s = true.
Proof.
  unfold Strconv.ParseUint. destruct s as [|c s]; [discriminate|].
  destruct (Strconv.parse_digits (String c s) 0) eqn:E; [|discriminate].
  intros _. split; [discriminate | apply (parse_digits_digits _ _ _ E)].
Qed.

Lemma ParseInt_numeric (s : string) (t : Z) :
  Strconv.ParseInt s = Some t -> numeric s = true.
Proof.
  unfold Strconv.ParseInt, numeric. destruct s as [|c s]; [discriminate|].
  cbv zeta.
  destruct (Strconv.ParseUint _) as [un|] eqn:E; [|discriminate]. intros _.
  apply ParseUint_digits in E as (Hne & Hd).
  destruct (Ascii.eqb c "+" || Ascii.eqb c "-"); [|exact Hd].
  rewrite Hd, (bool_decide_eq_false_2 _ Hne). reflexivity.
Qed.

Lemma round53_neg (x : Z) : x < 0 -> Float64.round53 x < 0.
Proof.
  intros Hx. destruct (Z.le_gt_cases (Z.abs x) (2 ^ 53)) as [Hs|Hl].
  - rewrite Float64Facts.round53_exact; lia.
  - destruct (Float64Facts.round53_large x ltac:(lia)) as (_ & Hsgn).
    rewrite (Z.sgn_neg x Hx) in Hsgn. now apply Z.sgn_neg_iff in Hsgn.
Qed.

Lemma round53_zero (x : Z) : Float64.round53 x = 0 -> x = 0.
Proof.
  intros H. destruct (Z.le_gt_cases (Z.abs x) (2 ^ 53)) as [Hs|Hl].
  - now rewrite Float64Facts.round53_exact in H.
  - destruct (Float64Facts.round53_large x ltac:(lia)) as (Hbig & _).
    rewrite H in Hbig. cbn in Hbig. lia.
Qed.

Lemma wrap64_zero (a b : Z) :
  in_int64 a -> in_int64 b -> wrap64 (a - b) = 0 -> a = b.
Proof.
  unfold in_int64, min_int64, max_int64, wrap64. intros Ha Hb H.
  change (2 ^ 63) with 9223372036854775808 in *.
  change (2 ^ 64) with 18446744073709551616 in *.
  Z.div_mod_to_equations. lia.
Qed.

(** *** Signature headers *)

Definition no_comma (c : ascii) : bool := negb (Ascii.eqb c ",").
Definition no_space (c : ascii) : bool := negb (Ascii.eqb c " ").

Lemma parseSignatures_nil (header : string) :
  parseSignatures header = [] <->
  Strings.all_chars no_comma header = true.
Proof.
  rewrite (all_chars_Split no_comma " " header) by reflexivity.
  rewrite List.Forall_forall. split.
  - intros E part Hin. apply (Cut_None "," part).
    destruct (Strings.Cut "," part) as [[v sg]|] eqn:EC; [|reflexivity].
    exfalso.
    assert (Hsig : In (mkSig v sg) (parseSignatures header)).
    { apply In_parseSignatures. exists part. split; [exact Hin|].
      unfold Strings.SplitN2. now rewrite EC. }
    rewrite E in Hsig. destruct Hsig.
  - intros H. destruct (parseSignatures header) as [|sig sigs] eqn:E;
      [reflexivity|]. exfalso.
    assert (Hsig : In sig (parseSignatures header)) by (rewrite E; now left).
    apply In_parseSignatures in Hsig as (part & Hin & Hcut).
    apply H, (Cut_None "," part) in Hin.
    unfold Strings.SplitN2 in Hcut. rewrite Hin in Hcut. discriminate.
Qed.

(** The text of one entry, [<version>,<signature>]. *)
Definition entry (sig : parsedSignature) : string :=
  version sig +:+ "," +:+ signature sig.

(** An entry a sender can write: no blank in it, no comma in its version. *)
Definition well_formed (sig : parsedSignature) : Prop :=
  Strings.all_chars no_comma (version sig) = true /\
  Strings.all_chars no_space (version sig) = true /\
  Strings.all_chars no_space (signature sig) = true.

Lemma fold_addSignature (sigs : list parsedSignature) :
  Forall well_formed sigs ->
  forall acc, fold_left addSignature (List.map entry sigs) acc = acc ++ sigs.
Proof.
  induction 1 as [|sig sigs (Hc & _) _ IH]; intros acc; cbn [List.map fold_left].
  - now rewrite List.app_nil_r.
  - rewrite IH. unfold addSignature at 1, Strings.SplitN2, entry.
    change ("," +:+ signature sig) with (String "," (signature sig)).
    rewrite (Cut_append "," _ _ Hc). destruct sig.
    cbn [version signature]. now rewrite <- List.app_assoc.
Qed.

(** X12.  [parseSignatures] reads back the entries a sender joined with
    blanks, each written [<version>,<signature>]: all of them, in order,
    whatever their versions, and a signature may itself contain commas. *)
Theorem parseSignatures_Join (sigs : list parsedSignature) :
  Forall well_formed sigs ->
  parseSignatures (Client.strings_Join (List.map entry sigs) " ") = sigs.
Proof.
  intros H. destruct sigs as [|sig sigs]; [reflexivity|].
  unfold parseSignatures.
  change (fold_left addSignature
            (Strings.Split " " (Client.strings_Join (List.map entry (sig :: sigs)) " "))
            [] = sig :: sigs).
  rewrite Split_Join.
  - now rewrite fold_addSignature.
  - discriminate.
  - apply List.Forall_map. eapply List.Forall_impl; [|exact H].
    intros s (_ & Hv & Hs). unfold entry. rewrite !all_chars_append.
    fold no_space. rewrite Hv, Hs. reflexivity.
Qed.

(** *** The shape of a signature *)

Lemma length_be_bytes (n : nat) (x : Z) : length (SHA256.be_bytes n x) = n.
Proof.
  revert x. induction n as [|n IH]; intros x; [reflexivity|].
  cbn [SHA256.be_bytes]. rewrite List.length_app, IH. cbn. lia.
Qed.

Lemma length_Sum256 (data : list byte) : length (SHA256.Sum256 data) = 32%nat.
Proof.
  unfold SHA256.Sum256. cbv zeta.
  destruct (SHA256.blocks _ _ _). rewrite !List.length_app, !length_be_bytes.
  reflexivity.
Qed.

Lemma length_mac (key msg : list byte) : length (HMAC.Sum key msg) = 32%nat.
Proof. apply length_Sum256. Qed.

(** An encoding of [3n + 2] bytes: alphabet characters and one padding
    character at the end. *)
Lemma encode_padded_once (src : list byte) :
  (length src mod 3 = 2)%nat ->
  String.length (Base64.EncodeToString src)
  = (4 * S (length src / 3))%nat /\
  exists body,
    Base64.EncodeToString src = body +:+ "=" /\
    Forall (fun c => Base64.dec c <> None) (list_ascii_of_string body).
Proof.
  induction src as [| b0 | b0 b1 | b0 b1 b2 rest IH] using Base64Facts.list_ind3;
    intros Hlen; try discriminate.
  - split; [reflexivity|].
    cbn [Base64.EncodeToString].
    destruct (Base64Facts.sextets _ (Base64Facts.pack3_range b0 b1 x00))
      as (H0 & H1 & H2 & _).
    eexists (String _ (String _ (String _ EmptyString))).
    split; [reflexivity|]. cbn [list_ascii_of_string].
    repeat (apply List.Forall_cons;
            [rewrite Base64Facts.dec_enc by assumption; discriminate|]).
    apply List.Forall_nil.
  - assert (Hrest : (length rest mod 3 = 2)%nat).
    { cbn [length] in Hlen.
      replace (S (S (S (length rest)))) with (length rest + 1 * 3)%nat in Hlen by lia.
      now rewrite Nat.Div0.mod_add in Hlen. }
    destruct (IH Hrest) as (Hl & body & E & Hbody).
    cbn [Base64.EncodeToString String.length length]. split.
    + rewrite Hl.
      replace (S (S (S (length rest)))) with (length rest + 1 * 3)%nat by lia.
      rewrite Nat.div_add by lia. lia.
    + destruct (Base64Facts.sextets _ (Base64Facts.pack3_range b0 b1 b2))
        as (H0 & H1 & H2 & H3 & _).
      rewrite E.
      eexists (String _ (String _ (String _ (String _ body)))).
      split; [reflexivity|]. cbn [list_ascii_of_string].
      repeat (apply List.Forall_cons;
              [rewrite Base64Facts.dec_enc by assumption; discriminate|]).
      exact Hbody.
Qed.

(** X13.  For every key and content, [sign] returns 44 characters: 43 of
    the base64 alphabet and one [=]; they decode to the 32 bytes of the
    MAC. *)
Theorem sign_shape (w : Webhook) (content : string) :
  String.length (sign w content) = 44%nat /\
  (exists body,
     sign w content = body +:+ "=" /\
     Forall (fun c => Base64.dec c <> None) (list_ascii_of_string body)) /\
  exists mac, length mac = 32%nat /\
              Base64.DecodeString (sign w content) = Some mac.
Proof.
  unfold sign.
  pose proof (length_mac (secret w) (list_byte_of_string content)) as Hlen.
  destruct (encode_padded_once _ ltac:(now rewrite Hlen)) as (Hl & Hbody).
  rewrite Hlen in Hl. split; [exact Hl|]. split; [exact Hbody|].
  eexists. split; [exact Hlen|].
  apply Base64Facts.DecodeString_EncodeToString.
Qed.

Section Headers.
Variable lower : string -> string.

Local Abbreviation low := (Strings.ToLower lower).
Local Abbreviation hdr :=
  (fun (headers : list (string * string)) (k : string) =>
     get (normalizeHeaders lower headers) k).

(** X14.  A [webhook-timestamp] that is not an optional sign followed by
    decimal digits (a fractional or exponent form, surrounding blanks, a
    hexadecimal number) is rejected as "invalid timestamp format",
    whatever the tolerance and the signature. *)
Theorem Verify_invalid_timestamp (now : Z) (w : Webhook) (payload : list byte)
    (headers : list (string * string)) (toleranceSec : Z) :
  hdr headers "webhook-id" <> EmptyString ->
  hdr headers "webhook-timestamp" <> EmptyString ->
  hdr headers "webhook-signature" <> EmptyString ->
  numeric (hdr headers "webhook-timestamp") = false ->
  VerifyWithTolerance lower now w payload headers toleranceSec
  = Some (WebhookVerificationError "invalid timestamp format").
Proof.
  intros Hid Hts Hsg Hnum. rewrite VerifyWithTolerance_fields.
  unfold verifyFields.
  rewrite !bool_decide_eq_false_2 by assumption.
  destruct (Strconv.ParseInt _) as [t|] eqn:E; [|reflexivity].
  apply ParseInt_numeric in E. congruence.
Qed.

(** X15.  With a negative tolerance [VerifyWithTolerance] rejects every
    request, and with tolerance zero it accepts only a timestamp equal to
    the current second. *)
Theorem Verify_nonpositive_tolerance (now : Z) (w : Webhook)
    (payload : list byte) (headers : list (string * string))
    (toleranceSec : Z) :
  toleranceSec <= 0 -> in_int64 now ->
  match VerifyWithTolerance lower now w payload headers toleranceSec with
  | None =>
      toleranceSec = 0 /\
      Strconv.ParseInt (hdr headers "webhook-timestamp") = Some now
  | Some err => exists msg, err = WebhookVerificationError msg
  end.
Proof.
  intros Htol Hnow. rewrite VerifyWithTolerance_fields. unfold verifyFields.
  repeat (case_bool_decide; [eexists; reflexivity|]).
  destruct (Strconv.ParseInt _) as [t|] eqn:E; [|eexists; reflexivity].
  destruct (outside now t toleranceSec) eqn:Eout; [eexists; reflexivity|].
  assert (Hin : toleranceSec = 0 /\ t = now).
  { unfold outside, drift in Eout. apply Z.ltb_ge in Eout.
    destruct (Z.eq_dec toleranceSec 0) as [->|Hneg].
    - split; [reflexivity|]. change (Float64.round53 0) with 0 in Eout.
      symmetry. apply wrap64_zero;
        [assumption | now apply (StrconvFacts.ParseInt_range _ _ E) |].
      apply round53_zero. lia.
    - pose proof (round53_neg toleranceSec ltac:(lia)). lia. }
  destruct Hin as (-> & ->).
  repeat match goal with
    | |- match (if ?c then _ else _) with _ => _ end => destruct c
    end; first [eexists; reflexivity | split; [reflexivity | exact E]].
Qed.

(** X16.  Past the header and timestamp checks, the error is "no valid
    signatures found" exactly when the [webhook-signature] header contains
    no comma. *)
Theorem Verify_no_valid_signatures (now : Z) (w : Webhook)
    (payload : list byte) (headers : list (string * string))
    (toleranceSec t : Z) :
  hdr headers "webhook-id" <> EmptyString ->
  hdr headers "webhook-signature" <> EmptyString ->
  Strconv.ParseInt (hdr headers "webhook-timestamp") = Some t ->
  outside now t toleranceSec = false ->
  VerifyWithTolerance lower now w payload headers toleranceSec
  = Some (WebhookVerificationError "no valid signatures found")
  <-> Strings.all_chars no_comma (hdr headers "webhook-signature") = true.
Proof.
  intros Hid Hsg Hts Hout. rewrite VerifyWithTolerance_fields.
  unfold verifyFields.
  rewrite (bool_decide_eq_false_2 _ Hid).
  rewrite (bool_decide_eq_false_2 _ (ParseInt_nonempty _ _ Hts)).
  rewrite (bool_decide_eq_false_2 _ Hsg).
  rewrite Hts, Hout. rewrite <- parseSignatures_nil.
  destruct (parseSignatures _) as [|sig sigs]; cbn [length Nat.eqb].
  - tauto.
  - destruct (matches _ _); split; discriminate.
Qed.


Lemma fold_ins_agree (headers : list (string * string)) (key : string) :
  forall m1 m2 : gmap string string,
    m1 !! key = m2 !! key ->
    fold_left (ins lower) headers m1 !! key
    = fold_left (ins lower) headers m2 !! key.
Proof.
  induction headers as [|kv hs IH]; intros m1 m2 H; cbn [fold_left]; [exact H|].
  apply IH. unfold ins.
  destruct (decide (low (fst kv) = key)) as [<-|Hne].
  - now rewrite !lookup_insert_eq.
  - now rewrite !lookup_insert_ne.
Qed.

Lemma hdr_skip (h1 h2 : list (string * string)) (k v key : string) :
  low k <> key ->
  hdr (h1 ++ (k, v) :: h2) key = hdr (h1 ++ h2) key.
Proof.
  intros Hne. unfold get, normalizeHeaders.
  change (default EmptyString
            (fold_left (ins lower) (h1 ++ (k, v) :: h2) ∅ !! key)
          = default EmptyString (fold_left (ins lower) (h1 ++ h2) ∅ !! key)).
  rewrite !fold_left_app. cbn [fold_left]. f_equal.
  apply fold_ins_agree. unfold ins. cbn [fst snd].
  now rewrite lookup_insert_ne.
Qed.

(** X17.  [Verify] reads the three [webhook-*] headers only: an entry
    under any other name, wherever it comes in the iteration, does not
    change the result. *)
Theorem Verify_ignores_other_headers (now : Z) (w : Webhook)
    (payload : list byte) (h1 h2 : list (string * string)) (k v : string)
    (toleranceSec : Z) :
  ~ In (low k) ["webhook-id"; "webhook-timestamp"; "webhook-signature"] ->
  VerifyWithTolerance lower now w payload (h1 ++ (k, v) :: h2) toleranceSec
  = VerifyWithTolerance lower now w payload (h1 ++ h2) toleranceSec.
Proof.
  intros Hk. cbn [In] in Hk. rewrite !VerifyWithTolerance_fields.
  rewrite !hdr_skip by (intros E; rewrite E in Hk; tauto). reflexivity.
Qed.

(** X18.  When several names of the map lower-case to the same header
    name, the value read is the one of the entry visited last; for a map
    with both [Webhook-Id] and [webhook-id], then, it depends on the
    iteration order. *)
Theorem normalizeHeaders_last_wins (h1 h2 : list (string * string))
    (k v : string) :
  ~ In (low k) (lowered lower h2) ->
  hdr (h1 ++ (k, v) :: h2) (low k) = v.
Proof.
  intros Hlast. unfold get, normalizeHeaders.
  change (default EmptyString
            (fold_left (ins lower) (h1 ++ (k, v) :: h2) ∅ !! low k) = v).
  rewrite fold_left_app. cbn [fold_left].
  rewrite fold_ins_other by assumption.
  unfold ins. cbn [fst snd]. now rewrite lookup_insert_eq.
Qed.

Lemma generated_verifies (now : Z) (w : Webhook) (payload : list byte)
    (webhookID : string) (headers : list (string * string)) :
  in_int64 now ->
  Permutation headers (GenerateTestHeaders now w payload webhookID) ->
  Verify lower now w payload headers = None.
Proof.
  intros Hnow Hperm.
  destruct (GenerateTestHeaders_shape now w payload webhookID) as (Hid & Hshape).
  rewrite Hshape in Hperm.
  destruct (get_three lower headers _ _ _ Hperm) as (G1 & G2 & G3).
  unfold Verify. rewrite VerifyWithTolerance_fields, G1, G2, G3.
  rewrite (verifyFields_tagged now defaultTolerance w w payload _ _ now)
    by auto using plain_v, plain_1, outside_same_instant,
                  StrconvFacts.ParseInt_FormatInt.
  now rewrite bool_decide_eq_true_2.
Qed.

(** X19.  [VerifyAndParse] unmarshals the payload only once [Verify] has
    accepted it: a verification error is returned as it is, whatever the
    payload holds, and for headers made by [GenerateTestHeaders] at the
    same clock reading the result is that of [json.Unmarshal]. *)
Theorem VerifyAndParse_verifies_first
    (json_Unmarshal : list byte -> option string) (now : Z) (w : Webhook)
    (payload : list byte) (webhookID : string)
    (headers generated : list (string * string)) :
  in_int64 now ->
  Permutation generated (GenerateTestHeaders now w payload webhookID) ->
  (forall err, Verify lower now w payload headers = Some err ->
     VerifyAndParse lower json_Unmarshal now w payload headers
     = Some (inl err)) /\
  VerifyAndParse lower json_Unmarshal now w payload generated
  = match json_Unmarshal payload with
    | Some err => Some (inr err)
    | None => None
    end.
Proof.
  intros Hnow Hperm. unfold VerifyAndParse. split.
  - intros err ->. reflexivity.
  - now rewrite (generated_verifies now w payload webhookID generated).
Qed.

End Headers.
(** The headers of a delivery signed with a made-up signature, and an
    entry a proxy adds. *)
Definition delivery (timestamp signature : string) : list (string * string) :=
  [ ("webhook-id", "msg_1"); ("webhook-timestamp", timestamp);
    ("webhook-signature", signature) ].

Lemma NewWebhook_encoded_key_witness :
  NewWebhook (Base64.EncodeToString (list_byte_of_string "test-secret"))
  = Some test_secret /\
  NewWebhook ("whsec_"
              +:+ Base64.EncodeToString (list_byte_of_string "test-secret"))
  = Some test_secret.
Proof. apply NewWebhook_encoded_key. discriminate. Defined.

Lemma NewWebhook_raw_secret_witness :
  NewWebhook "whsec_c2VjcmV0LWtleQ_-"
  = Some (mkWebhook (list_byte_of_string (stripped "whsec_c2VjcmV0LWtleQ_-"))).
Proof.
  apply (NewWebhook_raw_secret "whsec_c2VjcmV0LWtleQ_-" "_").
  - discriminate.
  - vm_compute. tauto.
  - reflexivity.
  - discriminate.
  - reflexivity.
Defined.

Lemma Verify_invalid_timestamp_witness :
  VerifyWithTolerance (fun s => s) 1700000000 test_secret event_test
    (delivery "1700000000.5" "v1,AAAA") 300
  = Some (WebhookVerificationError "invalid timestamp format").
Proof.
  apply Verify_invalid_timestamp;
    first [vm_compute; discriminate | vm_compute; reflexivity].
Defined.

Lemma Verify_nonpositive_tolerance_witness :
  match VerifyWithTolerance (fun s => s) 1700000000 test_secret event_test
          (GenerateTestHeaders 1700000001 test_secret event_test "msg_1") 0
  with
  | None =>
      0 = 0 /\
      Strconv.ParseInt
        (get (normalizeHeaders (fun s => s)
                (GenerateTestHeaders 1700000001 test_secret event_test "msg_1"))
             "webhook-timestamp") = Some 1700000000
  | Some err => exists msg, err = WebhookVerificationError msg
  end.
Proof.
  apply Verify_nonpositive_tolerance; [lia | exact in_int64_1700000000].
Defined.

Lemma Verify_no_valid_signatures_witness :
  VerifyWithTolerance (fun s => s) 1700000000 test_secret event_test
    (delivery "1700000000" "AAAA") 300
  = Some (WebhookVerificationError "no valid signatures found")
  <-> Strings.all_chars no_comma
        (get (normalizeHeaders (fun s => s) (delivery "1700000000" "AAAA"))
             "webhook-signature") = true.
Proof.
  apply (Verify_no_valid_signatures (fun s => s) 1700000000 test_secret
           event_test (delivery "1700000000" "AAAA") 300 1700000000);
    first [vm_compute; discriminate | vm_compute; reflexivity].
Defined.

Lemma parseSignatures_Join_witness :
  parseSignatures
    (Client.strings_Join
       (List.map entry [mkSig "v1" "AAAA"; mkSig "v1a" "BB,CC"; mkSig "v2" "DDDD"])
       " ")
  = [mkSig "v1" "AAAA"; mkSig "v1a" "BB,CC"; mkSig "v2" "DDDD"].
Proof.
  apply parseSignatures_Join.
  repeat (apply List.Forall_cons; [repeat split|]). apply List.Forall_nil.
Defined.

Lemma Verify_ignores_other_headers_witness :
  VerifyWithTolerance (fun s => s) 1700000000 test_secret event_test
    ([("webhook-id", "msg_1")] ++ ("X-Forwarded-For", "10.0.0.1")
       :: [("webhook-timestamp", "1700000000"); ("webhook-signature", "v1,AAAA")])
    300
  = VerifyWithTolerance (fun s => s) 1700000000 test_secret event_test
      ([("webhook-id", "msg_1")]
       ++ [("webhook-timestamp", "1700000000"); ("webhook-signature", "v1,AAAA")])
      300.
Proof.
  apply Verify_ignores_other_headers.
  vm_compute. intros [E|[E|[E|[]]]]; discriminate E.
Defined.

Lemma normalizeHeaders_last_wins_witness :
  get (normalizeHeaders (fun s => s)
         ([("webhook-id", "msg_1")] ++ ("Webhook-Id", "msg_2") :: []))
      (Strings.ToLower (fun s => s) "Webhook-Id") = "msg_2" /\
  get (normalizeHeaders (fun s => s)
         ([("Webhook-Id", "msg_2")] ++ ("webhook-id", "msg_1") :: []))
      (Strings.ToLower (fun s => s) "webhook-id") = "msg_1".
Proof.
  split; apply normalizeHeaders_last_wins; intros [].
Defined.

Lemma VerifyAndParse_verifies_first_witness :
  (forall err,
     Verify (fun s => s) 1700000000 test_secret event_test
       (delivery "1700000000" "v1,AAAA") = Some err ->
     VerifyAndParse (fun s => s) (fun _ => None) 1700000000 test_secret
       event_test (delivery "1700000000" "v1,AAAA") = Some (inl err)) /\
  VerifyAndParse (fun s => s) (fun _ => None) 1700000000 test_secret
    event_test (GenerateTestHeaders 1700000000 test_secret event_test "msg_1")
  = None.
Proof.
  apply (VerifyAndParse_verifies_first (fun s => s) (fun _ => None)
           1700000000 test_secret event_test "msg_1");
    [exact in_int64_1700000000 | apply Permutation_refl].
Defined.

End WebhookMore.

(** * The client, its options and the resources *)

Module ClientMore.
Import Int IntFacts Errors Transport TransportProps Options Client StringsMore.

(** *** [WithBaseURL] *)

Fixpoint slashes (n : nat) : string :=
  match n with
  | O => EmptyString
  | S n' => String "/" (slashes n')
  end.

Lemma snoc_cases (s : string) :
  s = EmptyString \/ exists t c, s = t +:+ String c EmptyString.
Proof.
  induction s as [|a s IH]; [now left|]. right.
  destruct IH as [->|(t & c & ->)].
  - now exists EmptyString, a.
  - now exists (String a t), c.
Qed.

Lemma length_snoc (t : string) (c : ascii) :
  String.length (t +:+ String c EmptyString) = S (String.length t).
Proof.
  induction t as [|a t IH]; [reflexivity|].
  change (String a t +:+ String c EmptyString)
    with (String a (t +:+ String c EmptyString)).
  cbn [String.length]. now rewrite IH.
Qed.

Lemma get_snoc (t : string) (c : ascii) :
  String.get (String.length t) (t +:+ String c EmptyString) = Some c.
Proof.
  induction t as [|a t IH]; [reflexivity|].
  change (String a t +:+ String c EmptyString)
    with (String a (t +:+ String c EmptyString)).
  cbn [String.length String.get]. exact IH.
Qed.

Lemma last_char_snoc (t : string) (c : ascii) :
  last_char (t +:+ String c EmptyString) = Some c.
Proof.
  unfold last_char. rewrite length_snoc.
  replace (S (String.length t) - 1)%nat with (String.length t) by lia.
  apply get_snoc.
Qed.

Lemma take_snoc (t : string) (c : ascii) :
  take (String.length t) (t +:+ String c EmptyString) = t.
Proof.
  induction t as [|a t IH]; [reflexivity|].
  change (String a t +:+ String c EmptyString)
    with (String a (t +:+ String c EmptyString)).
  cbn [String.length take]. now rewrite IH.
Qed.

Lemma append_nil_r (s : string) : s +:+ EmptyString = s.
Proof.
  induction s as [|a s IH]; [reflexivity|].
  change (String a s +:+ EmptyString) with (String a (s +:+ EmptyString)).
  now rewrite IH.
Qed.

Lemma slashes_snoc (n : nat) :
  slashes n +:+ String "/" EmptyString = slashes (S n).
Proof.
  induction n as [|n IH]; [reflexivity|].
  change (slashes (S n) +:+ String "/" EmptyString)
    with (String "/" (slashes n +:+ String "/" EmptyString)).
  now rewrite IH.
Qed.

Lemma trim_slashes_spec (fuel : nat) :
  forall url, (String.length url <= fuel)%nat ->
    (exists n, url = trim_slashes fuel url +:+ slashes n) /\
    last_char (trim_slashes fuel url) <> Some "/"%char.
Proof.
  induction fuel as [|fuel IH]; intros url Hlen.
  - destruct url; [|cbn in Hlen; lia]. cbn [trim_slashes]. split.
    + now exists 0%nat.
    + discriminate.
  - cbn [trim_slashes]. destruct (snoc_cases url) as [->|(t & c & ->)].
    + split; [now exists 0%nat | discriminate].
    + rewrite length_snoc in *. rewrite last_char_snoc.
      change (0 <? S (String.length t))%nat with true. cbn [andb].
      replace (S (String.length t) - 1)%nat with (String.length t) by lia.
      rewrite take_snoc. case_bool_decide as Hc.
      * injection Hc as ->.
        destruct (IH t ltac:(lia)) as ((n & Ht) & Hlast).
        split; [|exact Hlast]. exists (S n).
        rewrite <- slashes_snoc, <- append_assoc, <- Ht. reflexivity.
      * split.
        -- exists 0%nat. now rewrite append_nil_r.
        -- now rewrite last_char_snoc.
Qed.

(** The configuration [New] reaches: the options applied in order. *)
Definition configured (opts : list ClientOption) (c : clientConfig)
  : clientConfig :=
  @fold_left clientConfig ClientOption (fun cfg opt => opt cfg) opts c.

Section Built.
Variable http_Client : Z -> HTTPClient.

Lemma New_configured (apiKey : string) (opts : list ClientOption) :
  apiKey <> EmptyString ->
  New http_Client apiKey opts
  = Some (newTransport http_Client apiKey (configured opts defaultConfig)).
Proof.
  intros Hkey. unfold New. now rewrite (bool_decide_eq_false_2 _ Hkey).
Qed.

(** X20.  A client built with [WithBaseURL(url)] as its last option sends
    to [url] without its trailing slashes, all of them: the base URL of
    its transport does not end in a slash, and [url] is that base followed
    by slashes only. *)
Theorem WithBaseURL_trims (apiKey url : string) (before : list ClientOption) :
  apiKey <> EmptyString ->
  exists t client n,
    New http_Client apiKey (before ++ [WithBaseURL url]) = Some (t, client) /\
    url = baseURL t +:+ slashes n /\
    last_char (baseURL t) <> Some "/"%char.
Proof.
  intros Hkey. rewrite (New_configured apiKey _ Hkey).
  unfold configured. rewrite fold_left_app. cbn [fold_left].
  destruct (trim_slashes_spec (String.length url) url ltac:(lia))
    as ((n & Hurl) & Hlast).
  eexists. eexists. exists n. split; [reflexivity|].
  cbn [baseURL WithBaseURL]. split; assumption.
Qed.

(** The client options the package provides. *)
Definition provided (opt : ClientOption) : Prop :=
  (exists url, opt = WithBaseURL url) \/
  (exists d, opt = WithTimeout d) \/
  (exists n, opt = WithMaxRetries n) \/
  (exists client, opt = WithHTTPClient client) \/
  (exists debug, opt = WithDebug debug).

(** Two configurations that differ in the timeout at most. *)
Definition same_but_timeout (c c' : clientConfig) : Prop :=
  cfg_baseURL c = cfg_baseURL c' /\ cfg_maxRetries c = cfg_maxRetries c' /\
  cfg_httpClient c = cfg_httpClient c' /\ cfg_debug c = cfg_debug c'.

Lemma provided_same_but_timeout (opts : list ClientOption) :
  Forall provided opts ->
  forall c c', same_but_timeout c c' ->
    same_but_timeout (configured opts c) (configured opts c').
Proof.
  unfold configured.
  induction 1 as [|opt opts Hopt _ IH]; intros c c' H; cbn [fold_left];
    [exact H|].
  apply IH. destruct H as (H1 & H2 & H3 & H4).
  destruct Hopt as [(url & ->) | [(d & ->) | [(n & ->) | [(cl & ->) | (dbg & ->)]]]];
    repeat split; cbn; first [assumption | reflexivity].
Qed.

Section Calls.
Variable decode_errBody : list byte -> errBody.
Variable newRequest_err : string -> string -> option string.
Variable query_Encode : list (string * list string) -> string.
Variable rand_Int63 : Z -> Z.

(** X21.  [WithTimeout] configures the default [http.Client] only.  When
    the options set an HTTP client of their own, adding [WithTimeout(d)]
    anywhere among them leaves the client as it is and changes no call:
    [do] never reads the timeout kept in the transport. *)
Theorem WithTimeout_with_custom_client (key : string)
    (before after : list ClientOption) (d : Z) (client : HTTPClient) :
  key <> EmptyString ->
  Forall provided after ->
  cfg_httpClient (configured (before ++ after) defaultConfig) = Some client ->
  exists t t',
    New http_Client key (before ++ after) = Some (t, client) /\
    New http_Client key (before ++ WithTimeout d :: after)
    = Some (t', client) /\
    forall fuel now ctx method path query body out opts,
      Forall TransportMore.builtin opts ->
      do decode_errBody newRequest_err query_Encode client rand_Int63
         fuel now t' ctx method path query body out opts
      = do decode_errBody newRequest_err query_Encode client rand_Int63
         fuel now t ctx method path query body out opts.
Proof.
  intros Hkey Hafter Hclient.
  rewrite !(New_configured key _ Hkey).
  unfold configured in *.
  rewrite !fold_left_app in *. cbn [fold_left].
  set (c0 := fold_left _ before defaultConfig) in *.
  pose proof (provided_same_but_timeout after Hafter (WithTimeout d c0) c0
                ltac:(repeat split)) as (Hurl & Hmax & Hcl & Hdbg).
  unfold configured in *.
  unfold newTransport.
  eexists. eexists.
  split; [rewrite Hclient; reflexivity|].
  split; [rewrite Hcl, Hclient; reflexivity|].
  intros fuel now ctx method path query body out opts Hopts.
  apply TransportMore.do_config; cbn [apiKey baseURL maxRetries];
    try assumption; try reflexivity.
  unfold requestConfigOf. apply TransportMore.builtin_agree; [assumption|].
  split; reflexivity.
Qed.
End Calls.
End Built.


(** *** [buildQuery] and [joinIDs] *)

(** What [buildQuery] sets for a value, if anything. *)
Definition setting (v : param) : option string :=
  match v with
  | PNil => None
  | PString val | POther val =>
      if bool_decide (val = EmptyString) then None else Some val
  | PInt val | PInt64 val =>
      if val =? 0 then None else Some (Strconv.FormatInt val)
  | PBool val => Some (FormatBool val)
  | PStringPtr val =>
      match val with
      | Some s => if bool_decide (s = EmptyString) then None else Some s
      | None => None
      end
  | PIntPtr val => option_map Strconv.FormatInt val
  | PBoolPtr val => option_map FormatBool val
  end.

Lemma addParam_setting (q : Values) (k : string) (v : param) :
  addParam q (k, v)
  = match setting v with
    | Some s => <[k := [s]]> q
    | None => q
    end.
Proof.
  unfold addParam, setting, Values_Set. cbn [fst snd].
  destruct v as [|val|val|val|val|[val|]|[val|]|[val|]|val]; cbn [option_map];
    try reflexivity;
    repeat match goal with
      | |- context [if ?c then _ else _] => destruct c
      end; reflexivity.
Qed.

Lemma setting_nonempty (v : param) (s : string) :
  setting v = Some s -> s <> EmptyString.
Proof.
  destruct v as [|val|val|val|val|[val|]|[val|]|[val|]|val];
    cbn [setting option_map]; try discriminate;
    repeat case_bool_decide; try discriminate;
    try (destruct (val =? 0); [discriminate|]);
    intros E; injection E as <-;
    first [assumption | apply StrconvFacts.FormatInt_nonempty
          | destruct val; discriminate].
Qed.

Lemma buildQuery_other (params : list (string * param)) (k : string) :
  forall q : Values,
    ~ In k (List.map fst params) ->
    fold_left addParam params q !! k = q !! k.
Proof.
  induction params as [|[k0 v0] ps IH]; intros q Hnot; cbn [fold_left];
    [reflexivity|].
  cbn [List.map fst In] in Hnot. rewrite IH by tauto.
  rewrite addParam_setting. destruct (setting v0); [|reflexivity].
  apply lookup_insert_ne. tauto.
Qed.

Lemma buildQuery_entry (params : list (string * param)) (k : string)
    (v : param) :
  forall q : Values,
    List.NoDup (List.map fst params) -> In (k, v) params ->
    fold_left addParam params q !! k
    = match setting v with
      | Some s => Some [s]
      | None => q !! k
      end.
Proof.
  induction params as [|[k0 v0] ps IH]; intros q Hnd Hin; [destruct Hin|].
  cbn [List.map fst] in Hnd. apply List.NoDup_cons_iff in Hnd as (Hfresh & Hnd).
  cbn [fold_left]. destruct Hin as [E|Hin].
  - injection E as -> ->. rewrite buildQuery_other by assumption.
    rewrite addParam_setting. destruct (setting v); [|reflexivity].
    apply lookup_insert_eq.
  - rewrite (IH _ Hnd Hin). destruct (setting v); [reflexivity|].
    rewrite addParam_setting. destruct (setting v0); [|reflexivity].
    apply lookup_insert_ne. intros ->. apply Hfresh.
    apply (List.in_map fst _ _ Hin).
Qed.

(** X22.  For a map with distinct keys [buildQuery] does not depend on
    the order in which the map is ranged over, and what its result holds
    under a key is decided by the entry of that key alone: nothing for
    nil, a nil pointer, an empty string (also behind a pointer or as the
    [%v] form of another type) and a zero [int] or [int64]; otherwise
    exactly one value, which is the string itself, the decimal form of the
    integer (of a [*int] also when it is 0) or [true]/[false], and is
    never empty.  A key the map does not have is not in the result. *)
Theorem buildQuery_values (params params' : list (string * param)) :
  List.NoDup (List.map fst params) -> Permutation params params' ->
  let shown (v : param) : option string :=
    match v with
    | PNil | PStringPtr None | PIntPtr None | PBoolPtr None => None
    | PString s | PStringPtr (Some s) | POther s =>
        if bool_decide (s = EmptyString) then None else Some s
    | PInt n | PInt64 n =>
        if bool_decide (n = 0) then None else Some (Strconv.FormatInt n)
    | PIntPtr (Some n) => Some (Strconv.FormatInt n)
    | PBool b | PBoolPtr (Some b) => Some (if b then "true" else "false")
    end in
  buildQuery params' = buildQuery params /\
  (forall k v,
     In (k, v) params ->
     buildQuery params !! k
     = match shown v with Some s => Some [s] | None => None end) /\
  (forall k, ~ In k (List.map fst params) -> buildQuery params !! k = None) /\
  (forall k vs,
     buildQuery params !! k = Some vs ->
     exists v s,
       In (k, v) params /\ shown v = Some s /\ vs = [s] /\ s <> EmptyString).
Proof.
  intros Hnd Hperm shown.
  assert (Hshown : forall v, shown v = setting v).
  { intros v. unfold shown, setting, FormatBool.
    destruct v as [|val|val|val|val|[val|]|[val|]|[val|]|val];
      cbn [option_map]; try reflexivity;
      case_bool_decide as E; destruct (Z.eqb_spec val 0);
      first [reflexivity | contradiction]. }
  assert (Hnd' : List.NoDup (List.map fst params')).
  { eapply Permutation_NoDup; [|exact Hnd]. now apply Permutation_map. }
  assert (Hentry : forall k v,
            In (k, v) params ->
            buildQuery params !! k
            = match shown v with Some s => Some [s] | None => None end).
  { intros k v Hin. unfold buildQuery.
    rewrite (buildQuery_entry params k v ∅ Hnd Hin), Hshown.
    destruct (setting v); [reflexivity | apply lookup_empty]. }
  assert (Hother : forall k,
            ~ In k (List.map fst params) -> buildQuery params !! k = None).
  { intros k Hout. unfold buildQuery.
    rewrite buildQuery_other by assumption. apply lookup_empty. }
  split; [|split; [exact Hentry | split; [exact Hother|]]].
  - apply map_eq. intros k. unfold buildQuery.
    destruct (in_dec string_dec k (List.map fst params)) as [Hin|Hout].
    + apply List.in_map_iff in Hin as ([k0 v] & <- & Hin). cbn [fst].
      rewrite (buildQuery_entry params k0 v ∅ Hnd Hin).
      rewrite (buildQuery_entry params' k0 v ∅ Hnd');
        [reflexivity | now apply (Permutation_in _ Hperm)].
    + rewrite (buildQuery_other params) by assumption.
      rewrite (buildQuery_other params'); [reflexivity|].
      intros Hin. apply Hout. eapply Permutation_in; [|exact Hin].
      apply Permutation_map. now apply Permutation_sym.
  - intros k vs Hk.
    destruct (in_dec string_dec k (List.map fst params)) as [Hin|Hout].
    + apply List.in_map_iff in Hin as ([k0 v] & <- & Hin). cbn [fst] in *.
      rewrite (Hentry k0 v Hin) in Hk.
      destruct (shown v) as [s|] eqn:Es; [|discriminate].
      injection Hk as <-. exists v, s.
      split; [exact Hin|]. split; [exact Es|]. split; [reflexivity|].
      apply (setting_nonempty v). now rewrite <- Hshown.
    + rewrite (Hother k Hout) in Hk. discriminate.
Qed.

(** X23.  The ids [joinIDs] joined come back when its result is split at
    the commas, provided there is an id and no id contains a comma; of no
    id at all it makes the empty string. *)
Theorem joinIDs_Split (ids : list string) :
  ids <> [] ->
  Forall (fun id => Strings.all_chars (fun c => negb (Ascii.eqb c ",")) id = true)
         ids ->
  Strings.Split "," (joinIDs ids) = ids /\ joinIDs [] = EmptyString.
Proof.
  intros Hne Hids. split; [|reflexivity].
  now apply (Split_Join "," ids).
Qed.

(** An [http.Client] that reaches no network. *)
Definition no_network (_ : Z) : HTTPClient :=
  fun _ _ => mkExchange 0 (Failed "no network").

Lemma WithBaseURL_trims_witness :
  exists t client n,
    New no_network "test_key" ([] ++ [WithBaseURL "https://hooks.example.com//"])
    = Some (t, client) /\
    "https://hooks.example.com//" = baseURL t +:+ slashes n /\
    last_char (baseURL t) <> Some "/"%char.
Proof. apply WithBaseURL_trims. discriminate. Defined.

Lemma WithTimeout_with_custom_client_witness :
  exists t t',
    New no_network "test_key"
      ([WithHTTPClient (Some flaky_server)] ++ [WithMaxRetries 1])
    = Some (t, flaky_server) /\
    New no_network "test_key"
      ([WithHTTPClient (Some flaky_server)] ++ WithTimeout Second
         :: [WithMaxRetries 1])
    = Some (t', flaky_server) /\
    forall fuel now ctx method path query body out opts,
      Forall TransportMore.builtin opts ->
      do no_envelope builds no_query flaky_server no_jitter
         fuel now t' ctx method path query body out opts
      = do no_envelope builds no_query flaky_server no_jitter
         fuel now t ctx method path query body out opts.
Proof.
  apply WithTimeout_with_custom_client.
  - discriminate.
  - apply List.Forall_cons; [|apply List.Forall_nil].
    right. right. left. now exists 1.
  - reflexivity.
Defined.

Lemma buildQuery_values_witness :
  buildQuery [("format", PString "csv"); ("limit", PInt 0);
              ("page", PIntPtr (Some 0))]
  = buildQuery [("limit", PInt 0); ("format", PString "csv");
                ("page", PIntPtr (Some 0))] /\
  buildQuery [("limit", PInt 0); ("format", PString "csv");
              ("page", PIntPtr (Some 0))] !! "format" = Some ["csv"] /\
  buildQuery [("limit", PInt 0); ("format", PString "csv");
              ("page", PIntPtr (Some 0))] !! "limit" = None /\
  buildQuery [("limit", PInt 0); ("format", PString "csv");
              ("page", PIntPtr (Some 0))] !! "page" = Some ["0"].
Proof.
  assert (Hnd : List.NoDup (List.map fst
            [("limit", PInt 0); ("format", PString "csv");
             ("page", PIntPtr (Some 0))])).
  { repeat constructor; cbn; intuition discriminate. }
  destruct (buildQuery_values _ _ Hnd (perm_swap _ _ _))
    as (Horder & Hentry & _).
  split; [exact Horder|].
  split; [|split].
  - apply (Hentry "format" (PString "csv")). cbn. tauto.
  - apply (Hentry "limit" (PInt 0)). cbn. tauto.
  - apply (Hentry "page" (PIntPtr (Some 0))). cbn. tauto.
Defined.

Lemma joinIDs_Split_witness :
  Strings.Split "," (joinIDs ["src_1"; "src_2"; "src_3"])
  = ["src_1"; "src_2"; "src_3"] /\
  joinIDs [] = EmptyString.
Proof.
  apply joinIDs_Split; [discriminate|].
  repeat (apply List.Forall_cons; [reflexivity|]). apply List.Forall_nil.
Defined.

End ClientMore.

Module ResourcesMore.
Import Int IntFacts Errors Transport TransportProps Client Resources StringsMore.

(** *** Path segments *)

(** The characters [PathEscape] leaves in a segment: letters, digits and
    [-_.~$&+:=@], and the [%] of an escape. *)
Definition segment_safe (c : ascii) : bool :=
  URL.is_alnum c || URL.one_of "-_.~$&+:=@%" c.

Definition unreserved (c : ascii) : bool :=
  URL.is_alnum c || URL.one_of "-_.~" c.

Definition unhex (c : ascii) : nat :=
  let n := nat_of_ascii c in
  if ((48 <=? n) && (n <=? 57))%nat then (n - 48)%nat else (n - 55)%nat.

(** The reading a server makes of an escaped segment: [%XY] is the byte
    with the hexadecimal digits [X] and [Y]. *)
Fixpoint percent_decode (s : string) : string :=
  match s with
  | EmptyString => EmptyString
  | String c rest =>
      if Ascii.eqb c "%" then
        match rest with
        | String h1 (String h2 rest') =>
            String (ascii_of_nat (16 * unhex h1 + unhex h2))
                   (percent_decode rest')
        | _ => String c (percent_decode rest)
        end
      else String c (percent_decode rest)
  end.

Ltac each_char c := destruct c as [[] [] [] [] [] [] [] []].

Lemma kept_safe (c : ascii) :
  URL.shouldEscape c = false ->
  segment_safe c = true /\ Ascii.eqb c "%" = false.
Proof. each_char c; vm_compute; intros E; first [discriminate E | now split]. Qed.

Lemma hex_safe (c : ascii) :
  segment_safe (URL.hex (nat_of_ascii c / 16)) = true /\
  segment_safe (URL.hex (nat_of_ascii c mod 16)) = true /\
  ascii_of_nat (16 * unhex (URL.hex (nat_of_ascii c / 16))
                + unhex (URL.hex (nat_of_ascii c mod 16))) = c.
Proof. each_char c; vm_compute; repeat split. Qed.

Lemma PathEscape_safe (s : string) :
  Strings.all_chars segment_safe (URL.PathEscape s) = true.
Proof.
  induction s as [|c s IH]; [reflexivity|]. cbn [URL.PathEscape].
  destruct (URL.shouldEscape c) eqn:E.
  - destruct (hex_safe c) as (H1 & H2 & _).
    cbn [Strings.all_chars]. rewrite H1, H2, IH. reflexivity.
  - destruct (kept_safe c E) as (Hc & _).
    cbn [Strings.all_chars]. now rewrite Hc, IH.
Qed.

Lemma percent_decode_PathEscape (s : string) :
  percent_decode (URL.PathEscape s) = s.
Proof.
  induction s as [|c s IH]; [reflexivity|]. cbn [URL.PathEscape].
  destruct (URL.shouldEscape c) eqn:E.
  - destruct (hex_safe c) as (_ & _ & Hc).
    cbn [percent_decode]. change (Ascii.eqb "%" "%") with true. cbv iota.
    now rewrite Hc, IH.
  - destruct (kept_safe c E) as (_ & Hc).
    cbn [percent_decode]. now rewrite Hc, IH.
Qed.

Lemma PathEscape_unreserved (s : string) :
  Strings.all_chars unreserved s = true -> URL.PathEscape s = s.
Proof.
  induction s as [|c s IH]; [reflexivity|]. cbn [Strings.all_chars URL.PathEscape].
  intros H. apply andb_true_iff in H as (Hc & Hs).
  assert (E : URL.shouldEscape c = false).
  { unfold URL.shouldEscape, unreserved in *.
    destruct (URL.is_alnum c); [reflexivity|].
    cbn [orb] in Hc. now rewrite Hc. }
  now rewrite E, IH.
Qed.

(** X24.  [url.PathEscape] makes one path segment of any id: the result
    holds letters, digits, [-_.~$&+:=@] and [%XY] escapes only (no slash,
    question mark, hash sign or blank), two ids never give the same
    segment, as the id can be read back from it, and an id of letters,
    digits and [-_.~] is left as it is. *)
Theorem PathEscape_segment (id : string) :
  Strings.all_chars segment_safe (URL.PathEscape id) = true /\
  percent_decode (URL.PathEscape id) = id /\
  (Strings.all_chars unreserved id = true -> URL.PathEscape id = id).
Proof.
  split; [apply PathEscape_safe|].
  split; [apply percent_decode_PathEscape | apply PathEscape_unreserved].
Qed.

Section Calls.
Variable decode_errBody : list byte -> errBody.
Variable newRequest_err : string -> string -> option string.
Variable query_Encode : list (string * list string) -> string.
Variable httpClient_Do : Z -> Z -> Exchange.
Variable rand_Int63 : Z -> Z.

(** X25.  [Sources.Delete] sends a [DELETE] with no body and no
    [Content-Type] to the base URL followed by [/api/sources/] and one
    escaped segment, and takes any 2xx response for success, whatever its
    body holds. *)
Theorem Sources_Delete_any_2xx (fuel : nat) (now : Z) (t : transport)
    (ctx : Context) (id : string) (opts : list RequestOption)
    (resp : Response) (respBody : list byte) :
  let u := baseURL t +:+ "/api/sources/" +:+ URL.PathEscape id in
  let key := idempotencyKey (requestConfigOf t opts) in
  newRequest_err "DELETE" u = None ->
  0 <= retryLimit t opts ->
  outcome (httpClient_Do 0 now) = Responded resp ->
  Body resp = BodyOk respBody ->
  200 <= StatusCode resp < 300 ->
  Strings.all_chars segment_safe (URL.PathEscape id) = true /\
  Sources_Delete decode_errBody newRequest_err query_Encode httpClient_Do
    rand_Int63 (S fuel) now t ctx id opts
  = Some (None,
          mkRun (now + elapsed (httpClient_Do 0 now))
            [Dispatch 0
               (mkRequest "DELETE" u
                  ([ ("Authorization", "Bearer " +:+ apiKey t);
                     ("User-Agent", "hookbase-go/0.1.0");
                     ("Accept", "application/json") ]
                   ++ (if bool_decide (key = EmptyString) then []
                       else [ ("Idempotency-Key", key) ]))
                  None)]).
Proof.
  intros u key Hreq Hm Hout Hbody Hst. split; [apply PathEscape_safe|].
  unfold Sources_Delete. rewrite do_loop by exact I.
  change (requestURL query_Encode t ("/api/sources/" +:+ URL.PathEscape id) [])
    with u.
  rewrite (loop_success decode_errBody newRequest_err httpClient_Do rand_Int63
             t ctx "DELETE" u NoBody None (requestConfigOf t opts)
             (retryLimit t opts) Hreq fuel 0 None (mkRun now []) resp respBody)
    by (cbn [clock decodes]; auto).
  reflexivity.
Qed.
End Calls.

(** *** Pages *)

(** X26.  [Events.List] and [Deliveries.List] take the limit, offset and
    total of a response as they come and compute the same page number from
    them.  The divisor [max(limit, 1)] is at least 1, so nothing divides by
    zero.  For a limit of 1 or more and an offset from 0 up to, but not
    including, the largest [int], the page [p] is the one whose window
    holds the offset, [(p - 1) * limit <= offset < p * limit].  For a
    negative offset the division truncates towards zero, so that
    [(p - 2) * limit < offset <= (p - 1) * limit] with [p <= 1]: the page
    is one too high unless the offset is a multiple of the limit.  For a
    limit below 1 and an offset below the largest [int] the page is
    [offset + 1]; for the largest offset with a limit of at most 1 that
    sum wraps to the smallest [int].  [Events.List] reports more pages
    exactly when [offset + limit] is below the total, provided the sum
    fits an [int]; [Deliveries.List], where the total is the number of
    deliveries received and so is not negative, reports more pages
    whenever the limit is not positive. *)
Theorem page_of_offset (total limit offset : Z) :
  in_int64 limit -> in_int64 offset ->
  let p := Page (eventsPage total limit offset) in
  1 <= max limit 1 /\
  Page (deliveriesPage total limit offset) = p /\
  (1 <= limit -> 0 <= offset < max_int64 ->
   (p - 1) * limit <= offset < p * limit) /\
  (1 <= limit -> offset < 0 ->
   (p - 2) * limit < offset <= (p - 1) * limit /\ p <= 1) /\
  (limit <= 0 -> offset < max_int64 -> p = offset + 1) /\
  (limit <= 1 -> offset = max_int64 -> p = min_int64) /\
  (in_int64 (offset + limit) ->
   (HasMore (eventsPage total limit offset) = true <-> offset + limit < total)) /\
  (limit <= 0 -> 0 <= total ->
   HasMore (deliveriesPage total limit offset) = true).
Proof.
  intros Hlimit Hoffset p.
  assert (Hmax : max limit 1 = if 1 <? limit then limit else 1) by reflexivity.
  assert (Hp : p = wrap64 (Z.quot offset (max limit 1) + 1)) by reflexivity.
  unfold in_int64, min_int64, max_int64 in *.
  split; [destruct (Z.ltb_spec 1 limit); lia|].
  split; [reflexivity|].
  split; [|split; [|split; [|split; [|split]]]].
  - intros H1 H0.
    assert (Emax : max limit 1 = limit)
      by (rewrite Hmax; destruct (Z.ltb_spec 1 limit); lia).
    rewrite Hp, Emax, Z.quot_div_nonneg by lia.
    pose proof (Z.div_mod offset limit ltac:(lia)) as Hdiv.
    pose proof (Z.mod_pos_bound offset limit ltac:(lia)) as Hmod.
    assert (Hq : 0 <= offset / limit <= offset).
    { split; [apply Z.div_pos; lia|]. apply Z.div_le_upper_bound; nia. }
    rewrite wrap64_id by (unfold in_int64, min_int64, max_int64; lia).
    set (q := offset / limit) in *. nia.
  - intros H1 H0.
    assert (Emax : max limit 1 = limit)
      by (rewrite Hmax; destruct (Z.ltb_spec 1 limit); lia).
    assert (Equot : Z.quot offset limit = - (- offset / limit)).
    { rewrite <- (Z.quot_div_nonneg (- offset) limit) by lia.
      rewrite Z.quot_opp_l by lia. lia. }
    rewrite Hp, Emax, Equot.
    pose proof (Z.div_mod (- offset) limit ltac:(lia)) as Hdiv.
    pose proof (Z.mod_pos_bound (- offset) limit ltac:(lia)) as Hmod.
    assert (Hq : 0 <= - offset / limit <= - offset).
    { split; [apply Z.div_pos; lia|]. apply Z.div_le_upper_bound; nia. }
    rewrite wrap64_id by (unfold in_int64, min_int64, max_int64; lia).
    set (q := - offset / limit) in *. nia.
  - intros H0 Hoff.
    assert (Emax : max limit 1 = 1)
      by (rewrite Hmax; destruct (Z.ltb_spec 1 limit); lia).
    rewrite Hp, Emax, Z.quot_1_r.
    apply wrap64_id. unfold in_int64, min_int64, max_int64. lia.
  - intros H1 Hoff.
    assert (Emax : max limit 1 = 1)
      by (rewrite Hmax; destruct (Z.ltb_spec 1 limit); lia).
    rewrite Hp, Emax, Z.quot_1_r, Hoff. vm_compute. reflexivity.
  - intros Hsum. unfold eventsPage. cbn [HasMore].
    rewrite wrap64_id by (unfold in_int64, min_int64, max_int64; lia).
    apply Z.ltb_lt.
  - intros H0 Htotal. unfold deliveriesPage. cbn [HasMore].
    apply Z.leb_le. lia.
Qed.

(** A server that answers every request with 204 and no content. *)
Definition no_content (_ _ : Z) : Exchange := answer 204.

Lemma PathEscape_segment_witness : URL.PathEscape "src_1" = "src_1".
Proof. exact (proj2 (proj2 (PathEscape_segment "src_1")) eq_refl). Defined.

Lemma Sources_Delete_any_2xx_witness :
  Strings.all_chars segment_safe (URL.PathEscape "a/b?c") = true /\
  Sources_Delete no_envelope builds no_query no_content no_jitter 1 0 client
    background "a/b?c" []
  = Some (None,
          mkRun (0 + elapsed (no_content 0 0))
            [Dispatch 0
               (mkRequest "DELETE"
                  (baseURL client +:+ "/api/sources/" +:+ URL.PathEscape "a/b?c")
                  ([ ("Authorization", "Bearer " +:+ apiKey client);
                     ("User-Agent", "hookbase-go/0.1.0");
                     ("Accept", "application/json") ]
                   ++ (if bool_decide
                            (idempotencyKey (requestConfigOf client [])
                             = EmptyString)
                       then []
                       else [ ("Idempotency-Key",
                               idempotencyKey (requestConfigOf client [])) ]))
                  None)]).
Proof.
  apply (Sources_Delete_any_2xx no_envelope builds no_query no_content
           no_jitter 0 0 client background "a/b?c" []
           (mkResponse 204 ∅ (BodyOk [])) []).
  - reflexivity.
  - vm_compute. discriminate.
  - reflexivity.
  - reflexivity.
  - vm_compute. split; [discriminate | reflexivity].
Defined.

Lemma page_of_offset_witness :
  Page (deliveriesPage 95 10 20) = Page (eventsPage 95 10 20) /\
  (Page (eventsPage 95 10 20) - 1) * 10 <= 20 < Page (eventsPage 95 10 20) * 10 /\
  ((Page (eventsPage 95 10 (-7)) - 2) * 10 < -7
   <= (Page (eventsPage 95 10 (-7)) - 1) * 10 /\
   Page (eventsPage 95 10 (-7)) <= 1) /\
  (HasMore (eventsPage 95 10 20) = true <-> 20 + 10 < 95).
Proof.
  assert (H10 : in_int64 10) by (vm_compute; split; discriminate).
  assert (H20 : in_int64 20) by (vm_compute; split; discriminate).
  assert (H7 : in_int64 (-7)) by (vm_compute; split; discriminate).
  assert (H30 : in_int64 (20 + 10)) by (vm_compute; split; discriminate).
  destruct (page_of_offset 95 10 20 H10 H20)
    as (_ & Hsame & Hwindow & _ & _ & _ & Hmore & _).
  destruct (page_of_offset 95 10 (-7) H10 H7) as (_ & _ & _ & Hneg & _).
  split; [exact Hsame|].
  split; [apply Hwindow; unfold max_int64; lia|].
  split; [apply Hneg; lia|].
  exact (Hmore H30).
Defined.

End ResourcesMore.
